(** * Kontour Coin ledger: a shallow embedding of
      [quantum-blockchain/backend/kontour_coin.py], of the mining oracle of
      [quantum-blockchain/backend/quantum_kontour_integration.py] and of the
      endpoints of [quantum-blockchain/backend/kontour_api.py] that call them.

    Conventions of the embedding.
    - Python [int] is [Z].  The ledger below is the code on int amounts: the
      ledger's own amounts (initial balances, the reward, the cost of
      training, the 0 of a deployment) are Python ints and the arithmetic on
      them is exact.
    - [create_transaction] also takes floats, and the endpoints pass nothing
      else.  The functions that compare or add amounts are given on every
      Python number in [Numbers], with the kernel's binary64 floats, and the
      ledger on ints is shown to be their restriction.
    - A Python [float] that is only stored and printed (oracle timings, the
      speed-up figure) is carried by its [repr], the text [json.dumps] writes.
    - [str] is [string]; a character is a code point below 256.
    - Transactions are Python dicts shared between the pending pool and the
      blocks that contain them; they live in an object store and are named by
      their position in it.
    - The clock, the random generator, the interpreter's [hash] and the
      measurement outcomes of the simulated circuit are inputs of the
      operations that consult them.
    - A file written by [json.dump] and read back by [json.load] is modelled by
      the document it holds; writing a file succeeds.
    - The contract and model registries, which no balance or block depends
      on, are kept apart from the ledger, in [Node]. *)

From Stdlib Require Import ZArith List String Ascii QArith Lia Bool.
From Stdlib Require Import DecimalString.
From Stdlib Require Floats.
From stdpp Require Import base gmap strings list.

Local Open Scope string_scope.
Local Open Scope list_scope.
Local Open Scope Z_scope.

(** ** [hashlib.sha256] *)

Module SHA256.

Definition mask32 : Z := 0xFFFFFFFF.
Definition add32 (x y : Z) : Z := (x + y) mod 2 ^ 32.
Definition rotr (n x : Z) : Z :=
  Z.lor (Z.shiftr x n) (Z.land (Z.shiftl x (32 - n)) mask32).
Definition shr (n x : Z) : Z := Z.shiftr x n.
Definition xor3 (x y z : Z) : Z := Z.lxor (Z.lxor x y) z.

Definition Ch (x y z : Z) : Z :=
  Z.lxor (Z.land x y) (Z.land (Z.lxor x mask32) z).
Definition Maj (x y z : Z) : Z := xor3 (Z.land x y) (Z.land x z) (Z.land y z).
Definition Sigma0 (x : Z) : Z := xor3 (rotr 2 x) (rotr 13 x) (rotr 22 x).
Definition Sigma1 (x : Z) : Z := xor3 (rotr 6 x) (rotr 11 x) (rotr 25 x).
Definition sigma0 (x : Z) : Z := xor3 (rotr 7 x) (rotr 18 x) (shr 3 x).
Definition sigma1 (x : Z) : Z := xor3 (rotr 17 x) (rotr 19 x) (shr 10 x).

(** The constants of FIPS 180-4 are fractional parts of roots of the first
    primes, 32 bits each. *)
Definition is_prime (n : nat) : bool :=
  forallb (fun d => negb (Nat.eqb (n mod d) 0)) (seq 2 (n - 2)).

Definition primes : list Z :=
  map Z.of_nat (List.filter is_prime (seq 2 310)).

(** The largest [r] with [r ^ 3 <= n], decided bit by bit from bit [bits]. *)
Fixpoint cube_root (bits : nat) (n r : Z) : Z :=
  match bits with
  | O => r
  | S bits' =>
      let r' := r + 2 ^ Z.of_nat bits' in
      cube_root bits' n (if r' * r' * r' <=? n then r' else r)
  end.

Definition K : list Z :=
  Eval vm_compute in map (fun p => cube_root 40 (p * 2 ^ 96) 0 mod 2 ^ 32) primes.

(** The eight working words. *)
Record regs := Regs { ra : Z; rb : Z; rc : Z; rd : Z; re : Z; rf : Z; rg : Z; rh : Z }.

Definition root32 (p : Z) : Z := Z.sqrt (p * 2 ^ 64) mod 2 ^ 32.

Definition H0 : regs :=
  Eval vm_compute in
    Regs (root32 2) (root32 3) (root32 5) (root32 7)
         (root32 11) (root32 13) (root32 17) (root32 19).

Definition nthZ (n : nat) (l : list Z) : Z := nth n l 0.

(** The message schedule, most recent word first. *)
Fixpoint extend (n : nat) (w : list Z) : list Z :=
  match n with
  | O => w
  | S n' =>
      let x := add32 (add32 (sigma1 (nthZ 1 w)) (nthZ 6 w))
                     (add32 (sigma0 (nthZ 14 w)) (nthZ 15 w)) in
      extend n' (x :: w)
  end.

Fixpoint be_words (n : nat) (bs : list Z) : list Z :=
  match n, bs with
  | S n', b0 :: b1 :: b2 :: b3 :: rest =>
      (b0 * 16777216 + b1 * 65536 + b2 * 256 + b3) :: be_words n' rest
  | _, _ => []
  end.

Definition schedule (block : list Z) : list Z :=
  rev (extend 48 (rev (be_words 16 block))).

Definition round (s : regs) (kw : Z * Z) : regs :=
  let t1 := add32 (add32 (add32 (rh s) (Sigma1 (re s)))
                         (add32 (Ch (re s) (rf s) (rg s)) (fst kw))) (snd kw) in
  let t2 := add32 (Sigma0 (ra s)) (Maj (ra s) (rb s) (rc s)) in
  Regs (add32 t1 t2) (ra s) (rb s) (rc s) (add32 (rd s) t1) (re s) (rf s) (rg s).

Definition compress (h : regs) (block : list Z) : regs :=
  let s := fold_left round (combine K (schedule block)) h in
  Regs (add32 (ra h) (ra s)) (add32 (rb h) (rb s)) (add32 (rc h) (rc s))
       (add32 (rd h) (rd s)) (add32 (re h) (re s)) (add32 (rf h) (rf s))
       (add32 (rg h) (rg s)) (add32 (rh h) (rh s)).

Definition be_bytes8 (n : Z) : list Z :=
  map (fun i => Z.land (Z.shiftr n (8 * i)) 255) [7; 6; 5; 4; 3; 2; 1; 0].

Definition pad (msg : list Z) : list Z :=
  let len := Z.of_nat (length msg) in
  let zeros := Z.to_nat ((55 - len) mod 64) in
  msg ++ [128] ++ repeat 0 zeros ++ be_bytes8 (8 * len).

Fixpoint blocks (fuel : nat) (h : regs) (bs : list Z) : regs :=
  match fuel, bs with
  | S fuel', _ :: _ => blocks fuel' (compress h (firstn 64 bs)) (skipn 64 bs)
  | _, _ => h
  end.

Definition digest (msg : list Z) : regs :=
  let p := pad msg in blocks (length p) H0 p.

Definition hex_digit (n : Z) : ascii :=
  nth (Z.to_nat n) (list_ascii_of_string "0123456789abcdef") "0"%char.

Definition hex_word (w : Z) : string :=
  string_of_list_ascii
    (map (fun i => hex_digit (Z.land (Z.shiftr w (4 * i)) 15)) [7; 6; 5; 4; 3; 2; 1; 0]).

Definition hexdigest_of (r : regs) : string :=
  hex_word (ra r) +:+ hex_word (rb r) +:+ hex_word (rc r) +:+ hex_word (rd r) +:+
  hex_word (re r) +:+ hex_word (rf r) +:+ hex_word (rg r) +:+ hex_word (rh r).

End SHA256.

(** [s.encode()]: UTF-8 of a string whose characters are code points < 256. *)
Definition utf8_char (c : ascii) : list Z :=
  let n := Z.of_N (N_of_ascii c) in
  if n <? 128 then [n]
  else [Z.lor 192 (Z.shiftr n 6); Z.lor 128 (Z.land n 63)].

Definition encode (s : string) : list Z :=
  flat_map utf8_char (list_ascii_of_string s).

(** [hashlib.sha256(s.encode()).hexdigest()] *)
Definition sha256_hex (s : string) : string :=
  SHA256.hexdigest_of (SHA256.digest (encode s)).

(** ** Python text helpers *)

(** [str(n)] for an int. *)
Definition str_int (n : Z) : string := DecimalString.NilZero.string_of_int (Z.to_int n).

(** [sep.join(parts)] *)
Fixpoint join (sep : string) (parts : list string) : string :=
  match parts with
  | [] => ""
  | [p] => p
  | p :: rest => p +:+ sep +:+ join sep rest
  end.

(** ** [json.dumps(obj, sort_keys=True)]

    The values the ledger serialises.  A float is kept as its [repr]. *)

#[warnings="-register-all"] Inductive json : Type :=
| JNull
| JBool (b : bool)
| JInt (n : Z)
| JFloat (repr : string)
| JStr (s : string)
| JList (items : list json)
| JDict (items : list (string * json)).

Definition hex4 (n : Z) : string :=
  string_of_list_ascii
    (map (fun i => SHA256.hex_digit (Z.land (Z.shiftr n (4 * i)) 15)) [3; 2; 1; 0]).

(** [json.encoder.py_encode_basestring_ascii]: quote, backslash and every
    character outside [' '..'~'] are escaped. *)
Definition escape_char (c : ascii) : string :=
  let n := Z.of_N (N_of_ascii c) in
  if n =? 34 then "\" +:+ String c ""
  else if n =? 92 then "\\"
  else if n =? 10 then "\n"
  else if n =? 13 then "\r"
  else if n =? 9 then "\t"
  else if n =? 8 then "\b"
  else if n =? 12 then "\f"
  else if (n <? 32) || (126 <? n) then "\u" +:+ hex4 n
  else String c "".

Fixpoint escape (s : string) : string :=
  match s with
  | EmptyString => ""
  | String c rest => escape_char c +:+ escape rest
  end.

Definition quote : string := String (ascii_of_nat 34) "".

Definition dumps_str (s : string) : string := quote +:+ escape s +:+ quote.

(** [sorted(dct.items())], a stable insertion of each item by key. *)
Fixpoint insert_item (kv : string * string) (l : list (string * string))
  : list (string * string) :=
  match l with
  | [] => [kv]
  | kv' :: rest =>
      if String.ltb (fst kv) (fst kv') then kv :: l else kv' :: insert_item kv rest
  end.

Definition sort_items (l : list (string * string)) : list (string * string) :=
  fold_left (fun acc kv => insert_item kv acc) l [].

Fixpoint dumps (j : json) : string :=
  match j with
  | JNull => "null"
  | JBool true => "true"
  | JBool false => "false"
  | JInt n => str_int n
  | JFloat r => r
  | JStr s => dumps_str s
  | JList items => "[" +:+ join ", " (map dumps items) +:+ "]"
  | JDict items =>
      let rendered := map (fun '(k, v) => (k, dumps v)) items in
      "{" +:+ join ", " (map (fun '(k, v) => dumps_str k +:+ ": " +:+ v) (sort_items rendered))
          +:+ "}"
  end.

(** ** Data model *)

Inductive TransactionType := TRANSFER | SMART_CONTRACT | AI_TRAINING | QUANTUM_COMPUTING.

Inductive TransactionStatus := PENDING | CONFIRMED | REJECTED.

(** The [str] value of an enum member, which is what [json.dumps] writes. *)
Definition type_value (t : TransactionType) : string :=
  match t with
  | TRANSFER => "transfer"
  | SMART_CONTRACT => "smart_contract"
  | AI_TRAINING => "ai_training"
  | QUANTUM_COMPUTING => "quantum_computing"
  end.

Definition status_value (s : TransactionStatus) : string :=
  match s with
  | PENDING => "pending"
  | CONFIRMED => "confirmed"
  | REJECTED => "rejected"
  end.

(** A transaction dict whose amount is an int ([Numbers.Transaction] holds any
    number). *)
Record Transaction := {
  tx_sender : string;
  tx_recipient : string;
  tx_amount : Z;
  tx_timestamp : Z;
  tx_type : TransactionType;
  tx_data : list (string * json);
  tx_status : TransactionStatus;
  tx_hash : string
}.

Definition set_status (s : TransactionStatus) (t : Transaction) : Transaction :=
  {| tx_sender := tx_sender t; tx_recipient := tx_recipient t; tx_amount := tx_amount t;
     tx_timestamp := tx_timestamp t; tx_type := tx_type t; tx_data := tx_data t;
     tx_status := s; tx_hash := tx_hash t |}.

(** A block dict.  [T] is what its ["transactions"] list holds: the names of
    shared transaction dicts while the block is in memory, the transactions
    themselves in a saved document. *)
Record Block_ (T : Type) := {
  index : Z;
  timestamp : Z;
  transactions : list T;
  previous_hash : string;
  nonce : Z;
  difficulty : Z;
  hash : string;
  quantum_enhanced : bool;
  quantum_metrics : list (string * json)
}.
Arguments index {T}. Arguments timestamp {T}. Arguments transactions {T}.
Arguments previous_hash {T}. Arguments nonce {T}. Arguments difficulty {T}.
Arguments hash {T}. Arguments quantum_enhanced {T}. Arguments quantum_metrics {T}.

Abbreviation Block := (Block_ nat).
Abbreviation BlockDoc := (Block_ Transaction).

Definition with_transactions {T U : Type} (txs : list U) (b : Block_ T) : Block_ U :=
  {| index := index b; timestamp := timestamp b; transactions := txs;
     previous_hash := previous_hash b; nonce := nonce b; difficulty := difficulty b;
     hash := hash b; quantum_enhanced := quantum_enhanced b;
     quantum_metrics := quantum_metrics b |}.

(** Python exceptions the ledger can raise. *)
Inductive exn := KeyError (key : string) | IndexError | ValueError | ZeroDivisionError.

(** The files of [kontour_data]: absent, or the document last written. *)
Record Files := {
  blockchain_json : option (list BlockDoc);
  accounts_json : option (gmap string Z)
}.

(** The instance attributes of [KontourCoin], the object store and the data
    directory. *)
Record KontourCoin := {
  blockchain : list Block;
  pending_transactions : list nat;
  accounts : gmap string Z;
  objects : list Transaction;
  files : Files
}.

(** The transaction dicts a list of names denotes; a name always denotes an
    allocated dict (see [reachable_allocated]). *)
Definition resolve (objs : list Transaction) (names : list nat) : list Transaction :=
  omap (fun r => objs !! r) names.

Definition document (objs : list Transaction) (b : Block) : BlockDoc :=
  with_transactions (resolve objs (transactions b)) b.

(** ** Serialisation of transactions and blocks *)

Definition tx_json (t : Transaction) : json :=
  JDict [("sender", JStr (tx_sender t)); ("recipient", JStr (tx_recipient t));
         ("amount", JInt (tx_amount t)); ("timestamp", JInt (tx_timestamp t));
         ("type", JStr (type_value (tx_type t))); ("data", JDict (tx_data t));
         ("status", JStr (status_value (tx_status t))); ("hash", JStr (tx_hash t))].

Definition block_items (b : BlockDoc) : list (string * json) :=
  [("index", JInt (index b)); ("timestamp", JInt (timestamp b));
   ("transactions", JList (map tx_json (transactions b)));
   ("previous_hash", JStr (previous_hash b)); ("nonce", JInt (nonce b));
   ("difficulty", JInt (difficulty b)); ("hash", JStr (hash b));
   ("quantum_enhanced", JBool (quantum_enhanced b));
   ("quantum_metrics", JDict (quantum_metrics b))].

(** [del d[key]] *)
Definition del_key (key : string) (items : list (string * json)) : list (string * json) :=
  List.filter (fun kv => negb (String.eqb (fst kv) key)) items.

(** [KontourCoin._calculate_hash] *)
Definition _calculate_hash (block : BlockDoc) : string :=
  let block_copy := del_key "hash" (block_items block) in
  let block_string := dumps (JDict block_copy) in
  sha256_hex block_string.

(** ** Accounts *)

(** [KontourCoin.get_account_balance] *)
Definition get_account_balance (self : KontourCoin) (address : string) : Z :=
  default 0 (accounts self !! address).

Definition KTR1 : string := "KTR1000000000000000000000000000000".
Definition KTR2 : string := "KTR2000000000000000000000000000000".
Definition KTR3 : string := "KTR3000000000000000000000000000000".

Definition set_files (f : Files) (self : KontourCoin) : KontourCoin :=
  {| blockchain := blockchain self; pending_transactions := pending_transactions self;
     accounts := accounts self; objects := objects self; files := f |}.

Definition set_accounts (a : gmap string Z) (self : KontourCoin) : KontourCoin :=
  {| blockchain := blockchain self; pending_transactions := pending_transactions self;
     accounts := a; objects := objects self; files := files self |}.

(** [KontourCoin._save_blockchain] *)
Definition _save_blockchain (self : KontourCoin) : KontourCoin :=
  set_files {| blockchain_json := Some (map (document (objects self)) (blockchain self));
               accounts_json := accounts_json (files self) |} self.

(** [KontourCoin._save_accounts] *)
Definition _save_accounts (self : KontourCoin) : KontourCoin :=
  set_files {| blockchain_json := blockchain_json (files self);
               accounts_json := Some (accounts self) |} self.

(** [json.load] of a chain: every transaction of the document is a fresh dict. *)
Fixpoint load_blocks (docs : list BlockDoc) (objs : list Transaction)
  : list Block * list Transaction :=
  match docs with
  | [] => ([], objs)
  | d :: rest =>
      let names := seq (length objs) (length (transactions d)) in
      let '(bs, objs') := load_blocks rest (objs ++ transactions d) in
      (with_transactions names d :: bs, objs')
  end.

(** [KontourCoin._load_blockchain] *)
Definition _load_blockchain (self : KontourCoin) : KontourCoin :=
  match blockchain_json (files self) with
  | Some docs =>
      let '(bs, objs) := load_blocks docs (objects self) in
      {| blockchain := bs; pending_transactions := pending_transactions self;
         accounts := accounts self; objects := objs; files := files self |}
  | None => self
  end.

(** [KontourCoin._load_accounts] *)
Definition _load_accounts (self : KontourCoin) : KontourCoin :=
  match accounts_json (files self) with
  | Some a => set_accounts a self
  | None => self
  end.

(** [KontourCoin._create_initial_accounts] *)
Definition _create_initial_accounts (self : KontourCoin) : KontourCoin :=
  let initial_accounts := [(KTR1, 1000000); (KTR2, 500000); (KTR3, 250000)] in
  let a := fold_left (fun acc account => <[fst account := snd account]> acc)
                     initial_accounts (accounts self) in
  _save_accounts (set_accounts a self).

Definition zeros64 : string :=
  "0000000000000000000000000000000000000000000000000000000000000000".

Definition append_block (b : Block) (self : KontourCoin) : KontourCoin :=
  {| blockchain := blockchain self ++ [b];
     pending_transactions := pending_transactions self;
     accounts := accounts self; objects := objects self; files := files self |}.

(** [KontourCoin._create_genesis_block]; [now] is [int(time.time())]. *)
Definition _create_genesis_block (now : Z) (self : KontourCoin) : KontourCoin :=
  let genesis_block : Block :=
    {| index := 0; timestamp := now; transactions := [];
       previous_hash := zeros64; nonce := 0; difficulty := 4; hash := zeros64;
       quantum_enhanced := true;
       quantum_metrics := [("mining_speedup", JFloat "1.0");
                           ("verification_accuracy", JFloat "1.0")] |} in
  let h := _calculate_hash (document (objects self) genesis_block) in
  let genesis_block : Block :=
    {| index := 0; timestamp := now; transactions := [];
       previous_hash := zeros64; nonce := 0; difficulty := 4; hash := h;
       quantum_enhanced := true;
       quantum_metrics := quantum_metrics genesis_block |} in
  _create_initial_accounts (_save_blockchain (append_block genesis_block self)).

(** [KontourCoin.__init__] over the data directory [dir]. *)
Definition __init__ (now : Z) (dir : Files) : KontourCoin :=
  let self := {| blockchain := []; pending_transactions := []; accounts := ∅;
                 objects := []; files := dir |} in
  let self := _load_blockchain self in
  match blockchain self with
  | [] => _create_genesis_block now self
  | _ :: _ => self
  end.

Definition no_files : Files := {| blockchain_json := None; accounts_json := None |}.

(** [KontourCoin.create_account]; [choice i] is the position [random.choice]
    picks in ["0123456789ABCDEF"] at its [i]-th call. *)
Definition random_choice (alphabet : string) (pick : nat) : string :=
  match String.get (pick mod String.length alphabet)%nat alphabet with
  | Some c => String c ""
  | None => ""
  end.

Definition create_account (choice : nat -> nat) (self : KontourCoin)
  : KontourCoin * string :=
  let address :=
    "KTR" +:+ join "" (map (fun i => random_choice "0123456789ABCDEF" (choice i)) (seq 0 31)) in
  (_save_accounts (set_accounts (<[address := 0]> (accounts self)) self), address).

(** What an f-string writes for an enum member that mixes in [str]: its value
    (the behaviour of [format] up to Python 3.10; no property below depends on
    the text hashed into a transaction's hash). *)
Definition format_type (t : TransactionType) : string := type_value t.

(** A reply of the ledger: a value, or the dict [{"error": msg}]. *)
Inductive reply (A : Type) :=
| Value (a : A)
| Error (msg : string).
Arguments Value {A}. Arguments Error {A}.

(** [KontourCoin.create_transaction] on an int amount
    ([Numbers.create_transaction] takes any number); [now] is
    [int(time.time())].  The reply holds the name of the new transaction dict. *)
Definition create_transaction (now : Z) (sender recipient : string) (amount : Z)
    (transaction_type : TransactionType) (data : option (list (string * json)))
    (self : KontourCoin) : KontourCoin * reply nat :=
  if get_account_balance self sender <? amount then (self, Error "Insufficient balance")
  else
    let data_or_empty := match data with Some d => d | None => [] end in
    let transaction_data :=
      sender +:+ recipient +:+ str_int amount +:+ str_int now +:+ format_type transaction_type in
    let transaction_data :=
      match data_or_empty with
      | [] => transaction_data
      | _ :: _ => transaction_data +:+ dumps (JDict data_or_empty)
      end in
    let transaction :=
      {| tx_sender := sender; tx_recipient := recipient; tx_amount := amount;
         tx_timestamp := now; tx_type := transaction_type; tx_data := data_or_empty;
         tx_status := PENDING; tx_hash := sha256_hex transaction_data |} in
    let name := length (objects self) in
    ({| blockchain := blockchain self;
        pending_transactions := pending_transactions self ++ [name];
        accounts := accounts self;
        objects := objects self ++ [transaction];
        files := files self |}, Value name).

(** ** Difficulty *)

(** [l[-n:]] *)
Definition last_n {A : Type} (n : nat) (l : list A) : list A :=
  skipn (length l - n) l.

Definition Qltb (x y : Q) : bool := negb (Qle_bool y x).

(** [KontourCoin._adjust_difficulty].  The chain is never empty when this is
    called; on an empty slice Python raises [IndexError].  The average is
    taken on the rationals, where the division by 9 is exact; on integer timestamps the
    two comparisons are those of [average_thresholds]. *)
Definition _adjust_difficulty (self : KontourCoin) (last_block : Block) : exn + Z :=
  let current_difficulty := difficulty last_block in
  if (index last_block mod 10 =? 0) && (0 <? index last_block) then
    let last_10_blocks := last_n 10 (blockchain self) in
    match last last_10_blocks, head last_10_blocks with
    | Some newest, Some oldest =>
        let avg_block_time : Q := (inject_Z (timestamp newest - timestamp oldest) / 9)%Q in
        if Qltb avg_block_time 30 then inr (current_difficulty + 1)
        else if Qltb 90 avg_block_time then inr (Z.max (current_difficulty - 1) 1)
        else inr current_difficulty
    | _, _ => inl IndexError
    end
  else inr current_difficulty.

(** ** The mining oracle, [QuantumKontourIntegration] *)

(** The dict a successful search returns. *)
Record MiningSuccess := {
  mr_nonce : Z;
  mr_hash : string;
  mr_iterations : Z;
  mr_time : string;
  mr_quantum_speedup : string;
  mr_circuit_depth : Z;
  mr_circuit_width : Z
}.

(** [{"success": True, ...}] or [{"success": False, "time": ..., ...}]. *)
Inductive MiningResult :=
| Success (r : MiningSuccess)
| Failure (time : string).

(** What the search draws from outside: the interpreter's [hash], the
    bitstring measured at each iteration, the depth of the circuit and the
    timings. *)
Record Simulator := {
  py_hash : string -> Z;
  measured : nat -> Z;
  depth : Z;
  elapsed_time : string;
  speedup : string
}.

(** [hex(n)[2:]] for [n >= 0]: the digits of [n] in base 16, most significant
    first, written in front of [acc]. *)
Fixpoint hex_from (fuel : nat) (n : Z) (acc : string) : string :=
  match fuel with
  | O => acc
  | S fuel' =>
      let acc' := String (SHA256.hex_digit (n mod 16)) acc in
      if n <? 16 then acc' else hex_from fuel' (n / 16) acc'
  end.

Definition hex (n : Z) : string := hex_from (S (Z.to_nat (Z.log2 n))) n "".

(** [s.zfill(width)] for an unsigned [s]. *)
Definition zfill (width : nat) (s : string) : string :=
  string_of_list_ascii (repeat "0"%char (width - String.length s)) +:+ s.

(** [s[:n]] *)
Fixpoint prefix (n : nat) (s : string) : string :=
  match n, s with
  | S n', String c rest => String c (prefix n' rest)
  | _, _ => ""
  end.

Definition hex_value (c : ascii) : option Z :=
  let n := Z.of_N (N_of_ascii c) in
  if (48 <=? n) && (n <=? 57) then Some (n - 48)
  else if (97 <=? n) && (n <=? 102) then Some (n - 87)
  else if (65 <=? n) && (n <=? 70) then Some (n - 55)
  else None.

Fixpoint int16_from (acc : Z) (s : string) : option Z :=
  match s with
  | EmptyString => Some acc
  | String c rest =>
      match hex_value c with
      | Some d => int16_from (16 * acc + d) rest
      | None => None
      end
  end.

(** [int(s, 16)] on the strings it is given here, which hold hexadecimal
    digits and nothing else (Python also reads a sign, a [0x] prefix, blanks
    and underscores); [ValueError] otherwise. *)
Definition int16 (s : string) : exn + Z :=
  match s with
  | EmptyString => inl ValueError
  | _ => match int16_from 0 s with Some n => inr n | None => inl ValueError end
  end.

(** [QuantumKontourIntegration._simulate_hash] *)
Definition _simulate_hash (sim : Simulator) (data : string) (nonce difficulty : Z) : string :=
  let combined := data +:+ str_int nonce in
  zfill 16 (hex (py_hash sim combined mod 2 ^ 64)).

(** [QuantumKontourIntegration._check_hash_difficulty] *)
Definition _check_hash_difficulty (hash_value : string) (difficulty : Z) : exn + bool :=
  match int16 (prefix 4 hash_value) with
  | inl e => inl e
  | inr n =>
      if difficulty + 1 =? 0 then inl ZeroDivisionError
      else inr (n <? 2 ^ 16 / (difficulty + 1))
  end.

(** The loop of [quantum_enhanced_mining], from iteration [iteration] with
    [remaining] iterations to go. *)
Fixpoint search (sim : Simulator) (block_data : string) (difficulty num_qubits : Z)
    (iteration remaining : nat) : exn + MiningResult :=
  match remaining with
  | O => inr (Failure (elapsed_time sim))
  | S remaining' =>
      let nonce := measured sim iteration mod 2 ^ num_qubits in
      let hash_value := _simulate_hash sim block_data nonce difficulty in
      match _check_hash_difficulty hash_value difficulty with
      | inl e => inl e
      | inr true =>
          inr (Success {| mr_nonce := nonce; mr_hash := hash_value;
                          mr_iterations := Z.of_nat iteration + 1;
                          mr_time := elapsed_time sim;
                          mr_quantum_speedup := speedup sim;
                          mr_circuit_depth := depth sim;
                          mr_circuit_width := num_qubits |})
      | inr false => search sim block_data difficulty num_qubits (S iteration) remaining'
      end
  end.

(** [QuantumKontourIntegration.quantum_enhanced_mining]: the search.  The
    circuit it first builds has [min(difficulty + 4, 20)] qubits, which takes
    [difficulty > -4], and on success it computes [2 ** (difficulty / 2)],
    which overflows from [difficulty = 2048] on: what the source raises outside
    [-4 < difficulty < 2048] is not part of this definition. *)
Definition quantum_enhanced_mining (sim : Simulator) (block_data : string)
    (difficulty max_iterations : Z) : exn + MiningResult :=
  let num_qubits := Z.min (difficulty + 4) 20 in
  search sim block_data difficulty num_qubits 0 (Z.to_nat max_iterations).

(** ** Mining *)

Definition NETWORK : string := "NETWORK".

(** The readings of [time.time()] in [mine_block]: the reward's timestamp, the
    float printed into the reward's hash, the block's timestamp. *)
Record Clock := {
  reward_timestamp : Z;
  reward_time : string;
  block_timestamp : Z
}.

(** The return of [mine_block]: the new block, the dict
    [{"error": .., "details": ..}], or an exception. *)
Inductive mined :=
| Mined (new_block : Block)
| MiningError (error : string) (details : option MiningResult)
| Raised (e : exn).

(** The loop [for transaction in transactions_to_mine] of [mine_block], on int
    amounts and balances ([Numbers.settle] is its arithmetic on any numbers).
    It stops at the first [KeyError], keeping what it has written so far. *)
Fixpoint update_balances (names : list nat) (accts : gmap string Z)
    (objs : list Transaction) : gmap string Z * list Transaction * option exn :=
  match names with
  | [] => (accts, objs, None)
  | name :: rest =>
      match objs !! name with
      | None => update_balances rest accts objs
      | Some transaction =>
          let debited :=
            if String.eqb (tx_sender transaction) NETWORK then inr accts
            else match accts !! tx_sender transaction with
                 | Some b => inr (<[tx_sender transaction := b - tx_amount transaction]> accts)
                 | None => inl (KeyError (tx_sender transaction))
                 end in
          match debited with
          | inl e => (accts, objs, Some e)
          | inr accts1 =>
              match accts1 !! tx_recipient transaction with
              | None => (accts1, objs, Some (KeyError (tx_recipient transaction)))
              | Some b =>
                  update_balances rest
                    (<[tx_recipient transaction := b + tx_amount transaction]> accts1)
                    (<[name := set_status CONFIRMED transaction]> objs)
              end
          end
      end
  end.

(** [KontourCoin.mine_block] up to the call of the oracle: an early return, or
    the candidate block together with the store that holds the reward
    transaction. *)
Definition candidate_block (clock : Clock) (miner_address : string)
    (self : KontourCoin) : mined + (Block * list Transaction) :=
  match pending_transactions self with
  | [] => inl (MiningError "No pending transactions to mine" None)
  | _ :: _ =>
  match last (blockchain self) with
  | None => inl (Raised IndexError)
  | Some last_block =>
  let reward_transaction :=
    {| tx_sender := NETWORK; tx_recipient := miner_address; tx_amount := 50;
       tx_timestamp := reward_timestamp clock; tx_type := TRANSFER;
       tx_data := [("reward", JBool true)]; tx_status := CONFIRMED;
       tx_hash := sha256_hex ("REWARD" +:+ miner_address +:+ reward_time clock) |} in
  let reward := length (objects self) in
  let transactions_to_mine := pending_transactions self ++ [reward] in
  match _adjust_difficulty self last_block with
  | inl e => inl (Raised e)
  | inr next_difficulty =>
      inr ({| index := index last_block + 1; timestamp := block_timestamp clock;
              transactions := transactions_to_mine; previous_hash := hash last_block;
              nonce := 0; difficulty := next_difficulty; hash := "";
              quantum_enhanced := true; quantum_metrics := [] |},
           objects self ++ [reward_transaction])
  end end end.

(** [json.dumps(new_block, sort_keys=True)] *)
Definition block_data_of (objs : list Transaction) (new_block : Block) : string :=
  dumps (JDict (block_items (document objs new_block))).

(** [KontourCoin.mine_block]; [quantum] is [self.quantum.quantum_enhanced_mining]. *)
Definition mine_block (clock : Clock) (quantum : string -> Z -> exn + MiningResult)
    (miner_address : string) (self : KontourCoin) : KontourCoin * mined :=
  match candidate_block clock miner_address self with
  | inl early => (self, early)
  | inr (new_block, objs) =>
  let block_data := block_data_of objs new_block in
  match quantum block_data (difficulty new_block) with
  | inl e => (self, Raised e)
  | inr (Failure t) => (self, MiningError "Mining failed" (Some (Failure t)))
  | inr (Success mining_result) =>
      let new_block : Block :=
        {| index := index new_block; timestamp := timestamp new_block;
           transactions := transactions new_block;
           previous_hash := previous_hash new_block;
           nonce := mr_nonce mining_result; difficulty := difficulty new_block;
           hash := mr_hash mining_result;
           quantum_enhanced := quantum_enhanced new_block;
           quantum_metrics :=
             [("mining_speedup", JFloat (mr_quantum_speedup mining_result));
              ("mining_time", JFloat (mr_time mining_result));
              ("circuit_depth", JInt (mr_circuit_depth mining_result));
              ("circuit_width", JInt (mr_circuit_width mining_result))] |} in
      let chain := blockchain self ++ [new_block] in
      match update_balances (transactions new_block) (accounts self) objs with
      | (accts, objs', Some e) =>
          ({| blockchain := chain; pending_transactions := pending_transactions self;
              accounts := accts; objects := objs'; files := files self |}, Raised e)
      | (accts, objs', None) =>
          (_save_accounts (_save_blockchain
             {| blockchain := chain; pending_transactions := [];
                accounts := accts; objects := objs'; files := files self |}),
           Mined new_block)
      end
  end end.

(** ** Runs of the ledger *)

(** A call on the ledger, with what it reads from outside.  [Restart] is a
    fresh [KontourCoin()] over the same data directory. *)
Inductive call :=
| CreateAccount (choice : nat -> nat)
| CreateTransaction (now : Z) (sender recipient : string) (amount : Z)
    (transaction_type : TransactionType) (data : option (list (string * json)))
| MineBlock (clock : Clock) (quantum : string -> Z -> exn + MiningResult)
    (miner_address : string)
| Restart (now : Z).

Definition step (self : KontourCoin) (c : call) : KontourCoin :=
  match c with
  | CreateAccount choice => fst (create_account choice self)
  | CreateTransaction now sender recipient amount ty data =>
      fst (create_transaction now sender recipient amount ty data self)
  | MineBlock clock quantum miner_address =>
      fst (mine_block clock quantum miner_address self)
  | Restart now => __init__ now (files self)
  end.

Definition run (calls : list call) (self : KontourCoin) : KontourCoin :=
  fold_left step calls self.

(** The states a ledger started on an empty data directory can be in. *)
Definition reachable (self : KontourCoin) : Prop :=
  exists now calls, self = run calls (__init__ now no_files).

(** The sum of all balances. *)
Definition total (accts : gmap string Z) : Z :=
  map_fold (fun _ balance acc => balance + acc) 0 accts.

(** ** The scenarios used below *)

(** A ledger started at time 1700000000 on an empty data directory. *)
Definition genesis : KontourCoin := __init__ 1700000000 no_files.

Definition noon : Clock :=
  {| reward_timestamp := 1700000100; reward_time := "1700000100.25";
     block_timestamp := 1700000100 |}.

(** An oracle that always answers with the same result. *)
Definition answering (r : MiningResult) : string -> Z -> exn + MiningResult :=
  fun _ _ => inr r.

(** The oracle of the repository with the default [max_iterations]. *)
Definition repository_oracle (sim : Simulator) : string -> Z -> exn + MiningResult :=
  fun block_data difficulty => quantum_enhanced_mining sim block_data difficulty 100.

(** A simulator whose interpreter hashes every string to [h] and whose
    circuit always measures 5.  With [h = 0] every simulated hash is 16 zeros
    and passes the difficulty test; with [h = -1] it is 16 digits f and fails. *)
Definition constant_simulator (h : Z) : Simulator :=
  {| py_hash := fun _ => h; measured := fun _ => 5; depth := 12;
     elapsed_time := "0.5"; speedup := "2.0" |}.

(** One pending transfer of 100 from KTR1 to KTR2. *)
Definition one_transfer : KontourCoin :=
  fst (create_transaction 1700000050 KTR1 KTR2 100 TRANSFER None genesis).

(** Two pending transfers of 600000 from KTR1, which holds 1000000. *)
Definition two_transfers : list call :=
  [CreateTransaction 1700000050 KTR1 KTR2 600000 TRANSFER None;
   CreateTransaction 1700000051 KTR1 KTR2 600000 TRANSFER None].

(** A result whose hash fails the difficulty test at every difficulty. *)
Definition unchecked_result : MiningSuccess :=
  {| mr_nonce := 7; mr_hash := "ffffffffffffffff"; mr_iterations := 1;
     mr_time := "0.5"; mr_quantum_speedup := "2.0";
     mr_circuit_depth := 12; mr_circuit_width := 8 |}.

(** The block [mine_block] appends once the oracle has answered [r]. *)
Definition sealed (new_block : Block) (r : MiningSuccess) : Block :=
  {| index := index new_block; timestamp := timestamp new_block;
     transactions := transactions new_block;
     previous_hash := previous_hash new_block;
     nonce := mr_nonce r; difficulty := difficulty new_block;
     hash := mr_hash r;
     quantum_enhanced := quantum_enhanced new_block;
     quantum_metrics :=
       [("mining_speedup", JFloat (mr_quantum_speedup r));
        ("mining_time", JFloat (mr_time r));
        ("circuit_depth", JInt (mr_circuit_depth r));
        ("circuit_width", JInt (mr_circuit_width r))] |}.

(** The ledger after the two transfers of 600000 were submitted and mined. *)
Definition overdrawn : KontourCoin :=
  run (two_transfers ++ [MineBlock noon (repository_oracle (constant_simulator 0)) KTR3])
      genesis.

(** ** Well-formed chains *)

(** Block [i] of the chain has index [i]. *)
Definition indexed {T : Type} (chain : list (Block_ T)) : Prop :=
  forall i b, chain !! i = Some b -> index b = Z.of_nat i.

(** No block has a difficulty below 1. *)
Definition floored {T : Type} (chain : list (Block_ T)) : Prop :=
  forall b, b ∈ chain -> 1 <= difficulty b.

(** The chain starts with a block without transactions whose stored hash is
    the one [_calculate_hash] computes. *)
Definition genesis_first {T : Type} (chain : list (Block_ T)) : Prop :=
  exists b0 rest, chain = b0 :: rest /\ transactions b0 = []
    /\ _calculate_hash (with_transactions [] b0) = hash b0.

Definition sound {T : Type} (chain : list (Block_ T)) : Prop :=
  genesis_first chain /\ indexed chain /\ floored chain.

(** The chain in memory and the chain on disk are both sound. *)
Definition consistent (self : KontourCoin) : Prop :=
  sound (blockchain self)
  /\ exists docs, blockchain_json (files self) = Some docs /\ sound docs.

(** The retargeting policy in the words of the specification: re-evaluated
    only when the tip's index is a positive multiple of [EPOCH], from the
    average time between the last [EPOCH] blocks. *)
Definition EPOCH : Z := 10.

Definition next_difficulty (chain : list Block) (tip : Block) : Z :=
  if (index tip mod EPOCH =? 0) && (0 <? index tip) then
    match chain !! Z.to_nat (index tip - EPOCH + 1) with
    | Some old =>
        let avg : Q := (inject_Z (timestamp tip - timestamp old) / inject_Z (EPOCH - 1))%Q in
        if Qltb avg 30 then difficulty tip + 1
        else if Qltb 90 avg then Z.max (difficulty tip - 1) 1
        else difficulty tip
    | None => difficulty tip
    end
  else difficulty tip.

(** Two chains whose blocks agree on everything but the representation of
    their transactions are sound together. *)
Definition alike {T U : Type} (b : Block_ T) (d : Block_ U) : Prop :=
  with_transactions (@nil unit) b = with_transactions (@nil unit) d
  /\ (transactions b = [] -> transactions d = []).

(** Ten rounds, 20 seconds apart: a transfer of 1 is submitted and mined. *)
Definition fast_round (i : Z) : list call :=
  [CreateTransaction (1700000000 + 20 * i) KTR1 KTR2 1 TRANSFER None;
   MineBlock {| reward_timestamp := 1700000000 + 20 * i; reward_time := "1700000000.5";
                block_timestamp := 1700000000 + 20 * i |}
             (repository_oracle (constant_simulator 0)) KTR3].

Definition fast_chain : KontourCoin :=
  run (flat_map fast_round [1; 2; 3; 4; 5; 6; 7; 8; 9; 10]) genesis.

(** ** The balance loop as a function of the transfers *)

(** What the balance loop reads of a transaction. *)
Definition transfer_of (t : Transaction) : string * string * Z :=
  (tx_sender t, tx_recipient t, tx_amount t).

Definition transfers (objs : list Transaction) (names : list nat)
  : list (string * string * Z) :=
  map transfer_of (resolve objs names).

(** The accounts and the exception [update_balances] ends with depend on the
    transfers only; [settle] is that loop without the store. *)
Fixpoint settle (l : list (string * string * Z)) (accts : gmap string Z)
  : gmap string Z * option exn :=
  match l with
  | [] => (accts, None)
  | (sender, recipient, amount) :: rest =>
      let debited :=
        if String.eqb sender NETWORK then inr accts
        else match accts !! sender with
             | Some b => inr (<[sender := b - amount]> accts)
             | None => inl (KeyError sender)
             end in
      match debited with
      | inl e => (accts, Some e)
      | inr accts1 =>
          match accts1 !! recipient with
          | None => (accts1, Some (KeyError recipient))
          | Some b => settle rest (<[recipient := b + amount]> accts1)
          end
      end
  end.

(** Every pending name denotes an allocated transaction dict. *)
Definition pool_allocated (self : KontourCoin) : Prop :=
  forall name, name ∈ pending_transactions self -> (name < length (objects self))%nat.

(** So does every name in a block of the chain. *)
Definition blocks_allocated (chain : list Block) (objs : list Transaction) : Prop :=
  forall b name, b ∈ chain -> name ∈ transactions b -> (name < length objs)%nat.

Definition allocated (self : KontourCoin) : Prop :=
  pool_allocated self /\ blocks_allocated (blockchain self) (objects self).

(** No pending transaction names NETWORK as its sender. *)
Definition user_pool (self : KontourCoin) : bool :=
  forallb (fun name =>
             match objects self !! name with
             | Some t => negb (String.eqb (tx_sender t) NETWORK)
             | None => false
             end) (pending_transactions self).

(** The amounts the transfers of [l] take from [who]. *)
Definition owed (who : string) (l : list (string * string * Z)) : Z :=
  fold_right (fun '(sender, _, amount) acc =>
                if String.eqb sender who then amount + acc else acc) 0 l.

(** The amounts the transfers of [l] issue in the name of NETWORK. *)
Definition minted (l : list (string * string * Z)) : Z := owed NETWORK l.

(** The pool can be paid: no pending amount is negative and every sender other
    than NETWORK holds at least the sum of its pending amounts. *)
Definition covered (self : KontourCoin) : bool :=
  let pool := transfers (objects self) (pending_transactions self) in
  forallb (fun '(sender, _, amount) =>
             (0 <=? amount)
             && (String.eqb sender NETWORK
                 || (owed sender pool <=? get_account_balance self sender))) pool.

(** ** Conservation *)

(** A run from one ledger to another that contains [n] mined blocks, in which
    accounts are created at addresses without funds, no submission names
    NETWORK as its sender, and every mining call returns (a block or an error
    value). *)
Inductive mines : KontourCoin -> nat -> KontourCoin -> Prop :=
| mines_done self : mines self 0 self
| mines_account self choice n self' :
    get_account_balance self (snd (create_account choice self)) = 0 ->
    mines (fst (create_account choice self)) n self' ->
    mines self n self'
| mines_submit self now sender recipient amount ty data n self' :
    String.eqb sender NETWORK = false ->
    mines (fst (create_transaction now sender recipient amount ty data self)) n self' ->
    mines self n self'
| mines_mined self clock quantum miner self1 b n self' :
    mine_block clock quantum miner self = (self1, Mined b) ->
    mines self1 n self' ->
    mines self (S n) self'
| mines_refused self clock quantum miner self1 error details n self' :
    mine_block clock quantum miner self = (self1, MiningError error details) ->
    mines self1 n self' ->
    mines self n self'.

(** The ledger after the transfer of 100 was mined for KTR3. *)
Definition one_block : KontourCoin :=
  fst (mine_block noon (repository_oracle (constant_simulator 0)) KTR3 one_transfer).

(** ** Non-negative balances *)

Definition is_mining (c : call) : bool :=
  match c with MineBlock _ _ _ => true | _ => false end.

(** The ledgers reached from an empty data directory by calls of which every
    mining call finds a pool that can be paid. *)
Inductive solvent : KontourCoin -> Prop :=
| solvent_start now : solvent (__init__ now no_files)
| solvent_call self c :
    solvent self -> (is_mining c = true -> covered self = true) ->
    solvent (step self c).

Definition nonnegative (accts : gmap string Z) : Prop :=
  forall address balance, accts !! address = Some balance -> 0 <= balance.

(** ** The addresses the balance loop indexes *)

Definition known {A : Type} (accts : gmap string A) (address : string) : bool :=
  match accts !! address with Some _ => true | None => false end.


(** ** The ledger on Python numbers

    [create_transaction] takes [amount: float] and the endpoints pass floats,
    while the ledger's own constants (initial balances, reward, fee) are
    ints.  The functions that compare or add amounts are given here on every
    Python number; the definitions above are these functions on ints
    ([create_transaction_on_ints], [settle_on_ints]). *)

Module Numbers.

Import PrimFloat.

(** A Python number: an [int], or a [float] (IEEE 754 binary64, rounding to
    nearest, ties to even). *)
Inductive number := Int (n : Z) | Float (f : float).

(** [float(n)], as the mixed operations convert an int: the nearest float;
    [None] is OverflowError. *)
Definition float_of_int (n : Z) : option float :=
  match SpecFloat.binary_normalize FloatOps.prec FloatOps.emax n 0 false with
  | SpecFloat.S754_infinity _ => None
  | x => Some (FloatOps.SF2Prim x)
  end.

(** The exact order of an int and a float (Python compares the two values as
    they are, without rounding the int); [None] when the float is NaN. *)
Definition compare_int_float (n : Z) (f : float) : option comparison :=
  match FloatOps.Prim2SF f with
  | SpecFloat.S754_nan => None
  | SpecFloat.S754_zero _ => Some (n ?= 0)
  | SpecFloat.S754_infinity negative => Some (if negative then Gt else Lt)
  | SpecFloat.S754_finite negative m e =>
      let mantissa := if negative then Zneg m else Zpos m in
      Some (if 0 <=? e then n ?= mantissa * 2 ^ e else n * 2 ^ (- e) ?= mantissa)
  end.

(** [a < b] *)
Definition lt (a b : number) : bool :=
  match a, b with
  | Int m, Int n => m <? n
  | Float x, Float y => ltb x y
  | Int m, Float y => match compare_int_float m y with Some Lt => true | _ => false end
  | Float x, Int n => match compare_int_float n x with Some Gt => true | _ => false end
  end.

(** [a <= b] *)
Definition le (a b : number) : bool :=
  match a, b with
  | Int m, Int n => m <=? n
  | Float x, Float y => leb x y
  | Int m, Float y =>
      match compare_int_float m y with Some Lt | Some Eq => true | _ => false end
  | Float x, Int n =>
      match compare_int_float n x with Some Gt | Some Eq => true | _ => false end
  end.

(** What the arithmetic of the ledger raises: an exception of the ledger on
    ints, or OverflowError when an int is too large for a float. *)
Inductive error := Ledger (e : exn) | OverflowError.

Definition arithmetic (on_ints : Z -> Z -> Z) (on_floats : float -> float -> float)
    (a b : number) : error + number :=
  match a, b with
  | Int m, Int n => inr (Int (on_ints m n))
  | Float x, Float y => inr (Float (on_floats x y))
  | Int m, Float y =>
      match float_of_int m with
      | Some x => inr (Float (on_floats x y))
      | None => inl OverflowError
      end
  | Float x, Int n =>
      match float_of_int n with
      | Some y => inr (Float (on_floats x y))
      | None => inl OverflowError
      end
  end.

(** [a + b] and [a - b] *)
Definition plus : number -> number -> error + number := arithmetic Z.add add.
Definition minus : number -> number -> error + number := arithmetic Z.sub sub.

(** The value of a number as a rational; [None] for NaN and the infinities. *)
Definition value (a : number) : option Q :=
  match a with
  | Int n => Some (inject_Z n)
  | Float f =>
      match FloatOps.Prim2SF f with
      | SpecFloat.S754_zero _ => Some 0%Q
      | SpecFloat.S754_finite negative m e =>
          let mantissa := if negative then Zneg m else Zpos m in
          Some (if 0 <=? e then inject_Z (mantissa * 2 ^ e)
                else (inject_Z mantissa / inject_Z (2 ^ (- e)))%Q)
      | _ => None
      end
  end.

(** [f"{x}"]; [float_repr] is [repr] on floats. *)
Definition str (float_repr : float -> string) (x : number) : string :=
  match x with
  | Int n => str_int n
  | Float f => float_repr f
  end.

(** A transaction dict. *)
Record Transaction := {
  sender : string;
  recipient : string;
  amount : number;
  timestamp : Z;
  type : TransactionType;
  data : list (string * json);
  status : TransactionStatus;
  hash : string
}.

(** The attributes [create_transaction] reads and writes; the pool holds the
    dicts themselves. *)
Record Pool := {
  accounts : gmap string number;
  pending_transactions : list Transaction
}.

(** [KontourCoin.get_account_balance] *)
Definition get_account_balance (self : Pool) (address : string) : number :=
  default (Int 0) (accounts self !! address).

(** [KontourCoin.create_transaction]; [now] is [int(time.time())]. *)
Definition create_transaction (float_repr : float -> string) (now : Z)
    (sender recipient : string) (amount : number) (transaction_type : TransactionType)
    (data : option (list (string * json))) (self : Pool) : Pool * reply Transaction :=
  if lt (get_account_balance self sender) amount then (self, Error "Insufficient balance")
  else
    let data_or_empty := match data with Some d => d | None => [] end in
    let transaction_data :=
      sender +:+ recipient +:+ str float_repr amount +:+ str_int now
      +:+ format_type transaction_type in
    let transaction_data :=
      match data_or_empty with
      | [] => transaction_data
      | _ :: _ => transaction_data +:+ dumps (JDict data_or_empty)
      end in
    let transaction :=
      {| sender := sender; recipient := recipient; amount := amount; timestamp := now;
         type := transaction_type; data := data_or_empty; status := PENDING;
         hash := sha256_hex transaction_data |} in
    ({| accounts := accounts self;
        pending_transactions := pending_transactions self ++ [transaction] |},
     Value transaction).

(** The balance loop of [mine_block] over the transfers it reads: for each
    one [accounts[sender] -= amount] unless the sender is NETWORK, then
    [accounts[recipient] += amount].  In either statement the account is
    looked up before the arithmetic is done. *)
Fixpoint settle (l : list (string * string * number)) (accts : gmap string number)
  : gmap string number * option error :=
  match l with
  | [] => (accts, None)
  | (sender, recipient, amount) :: rest =>
      let debited :=
        if String.eqb sender NETWORK then inr accts
        else match accts !! sender with
             | Some b =>
                 match minus b amount with
                 | inr b' => inr (<[sender := b']> accts)
                 | inl e => inl e
                 end
             | None => inl (Ledger (KeyError sender))
             end in
      match debited with
      | inl e => (accts, Some e)
      | inr accts1 =>
          match accts1 !! recipient with
          | None => (accts1, Some (Ledger (KeyError recipient)))
          | Some b =>
              match plus b amount with
              | inr b' => settle rest (<[recipient := b']> accts1)
              | inl e => (accts1, Some e)
              end
          end
      end
  end.

(** The floats 0.2, 0.3, 1.1 and 2.7, and minus 2 to the power -52. *)
Definition two_tenths : float := 0x1.999999999999ap-3.
Definition three_tenths : float := 0x1.3333333333333p-2.
Definition eleven_tenths : float := 0x1.199999999999ap+0.
Definition twenty_seven_tenths : float := 0x1.599999999999ap+1.
Definition minus_epsilon : float := -0x1p-52.

End Numbers.

(** The ledger on ints, seen on numbers. *)
Definition of_transaction (t : Transaction) : Numbers.Transaction :=
  {| Numbers.sender := tx_sender t; Numbers.recipient := tx_recipient t;
     Numbers.amount := Numbers.Int (tx_amount t); Numbers.timestamp := tx_timestamp t;
     Numbers.type := tx_type t; Numbers.data := tx_data t;
     Numbers.status := tx_status t; Numbers.hash := tx_hash t |}.

Definition of_ledger (self : KontourCoin) : Numbers.Pool :=
  {| Numbers.accounts := Numbers.Int <$> accounts self;
     Numbers.pending_transactions :=
       map of_transaction (resolve (objects self) (pending_transactions self)) |}.

Definition of_transfer (t : string * string * Z) : string * string * Numbers.number :=
  (t.1.1, t.1.2, Numbers.Int t.2).

(** An account of 2.7 and four transfers from it, of 0.2, 1.1, 0.3 and 1.1. *)
Definition fractional_accounts : gmap string Numbers.number :=
  {[KTR1 := Numbers.Float Numbers.twenty_seven_tenths; KTR2 := Numbers.Int 0]}.

Definition fractional_transfers : list (string * string * Numbers.number) :=
  map (fun amount => (KTR1, KTR2, Numbers.Float amount))
      [Numbers.two_tenths; Numbers.eleven_tenths; Numbers.three_tenths;
       Numbers.eleven_tenths].

(** Three transfers of 0.3 from KTR1 to KTR2 and the reward for KTR3. *)
Definition three_tenths_thrice : list (string * string * Numbers.number) :=
  [(KTR1, KTR2, Numbers.Float Numbers.three_tenths);
   (KTR1, KTR2, Numbers.Float Numbers.three_tenths);
   (KTR1, KTR2, Numbers.Float Numbers.three_tenths);
   (NETWORK, KTR3, Numbers.Int 50)].

(** The sum of the values of the balances. *)
Definition exact_total (accts : gmap string Numbers.number) : option Q :=
  map_fold (fun _ balance acc =>
              match Numbers.value balance, acc with
              | Some v, Some s => Some (Qred (v + s))
              | _, _ => None
              end) (Some 0%Q) accts.

(** ** Further predicates on chains and pools *)

(** Each block after the first names the hash of the block before it. *)
Definition linked {T : Type} (chain : list (Block_ T)) : Prop :=
  forall i b b', chain !! i = Some b -> chain !! S i = Some b' ->
    previous_hash b' = hash b.

(** The chain in memory is linked, and so is the chain on disk if there is one. *)
Definition chained (self : KontourCoin) : Prop :=
  linked (blockchain self)
  /\ forall docs, blockchain_json (files self) = Some docs -> linked docs.

Definition is_restart (c : call) : bool :=
  match c with Restart _ => true | _ => false end.

(** Some pending transaction credits an address that has no account. *)
Definition credits_unknown (self : KontourCoin) : Prop :=
  exists name t, name ∈ pending_transactions self
    /\ objects self !! name = Some t
    /\ accounts self !! tx_recipient t = None.

(** The addresses [_create_initial_accounts] and [create_account] produce:
    ["KTR"] followed by a character of ["0123456789ABCDEF"] and more. *)
Definition account_address (a : string) : Prop :=
  exists c rest, a = "KTR" +:+ String c rest
    /\ In c (list_ascii_of_string "0123456789ABCDEF").

(** The recipients no account function ever produces: NETWORK, and the
    addresses that begin with ["KTR_"], as those of contracts do. *)
Definition foreign (a : string) : Prop :=
  a = NETWORK \/ exists rest, a = "KTR_" +:+ rest.

Definition is_mined (reply : mined) : bool :=
  match reply with Mined _ => true | _ => false end.

(** The block mined from the two transfers of 600000. *)
Definition overdrawn_block : Block :=
  {| index := 1; timestamp := 1700000100; transactions := [0; 1; 2]%nat;
     previous_hash := "8b17fc1c76da074a67dcddc6b1815408e75c71915f79d76830777269ebdab2a5";
     nonce := 5; difficulty := 4; hash := "0000000000000000";
     quantum_enhanced := true;
     quantum_metrics := [("mining_speedup", JFloat "2.0"); ("mining_time", JFloat "0.5");
                         ("circuit_depth", JInt 12); ("circuit_width", JInt 8)] |}.

(** A pending AI-training fee: 10 coins from KTR1 to NETWORK. *)
Definition fee_pending : KontourCoin :=
  fst (create_transaction 1700000050 KTR1 NETWORK 10 AI_TRAINING
         (Some [("action", JStr "train")]) genesis).

(** ** Further definitions for the oracle *)

(** The [k] least significant hexadecimal digits of [n], most significant
    first, written in front of [acc]. *)
Fixpoint fixed_hex (k : nat) (n : Z) (acc : string) : string :=
  match k with
  | O => acc
  | S k' => fixed_hex k' (n / 16) (String (SHA256.hex_digit (n mod 16)) acc)
  end.

(** The difficulty test of the search at iteration [i]. *)
Definition attempt (sim : Simulator) (block_data : string) (difficulty : Z) (i : nat)
  : exn + bool :=
  _check_hash_difficulty
    (_simulate_hash sim block_data
       (measured sim i mod 2 ^ Z.min (difficulty + 4) 20) difficulty)
    difficulty.

(** [QuantumKontourMode] *)
Inductive QuantumKontourMode :=
| MINING | TRANSACTION_VERIFICATION | SMART_CONTRACT_MODE | AI_TRAINING_MODE
| OPTIMIZATION | SECURITY.

(** An entry of [operations_log]. *)
Record LogEntry := {
  log_timestamp : string;
  log_mode : QuantumKontourMode;
  log_details : list (string * json)
}.

(** [QuantumKontourIntegration._log_quantum_operation]; [now] is
    [datetime.now().strftime(...)]. *)
Definition _log_quantum_operation (now : string) (mode : QuantumKontourMode)
    (details : list (string * json)) (operations_log : list LogEntry) : list LogEntry :=
  let log_entry := {| log_timestamp := now; log_mode := mode; log_details := details |} in
  let operations_log := operations_log ++ [log_entry] in
  if (1000 <? length operations_log)%nat then last_n 1000 operations_log
  else operations_log.

(** ** [KontourCoin.verify_transaction] *)

(** The dict [quantum_transaction_verification] returns; the probability and
    the time are floats. *)
Record Verification := {
  is_valid : bool;
  verification_probability : string;
  verification_time : string;
  verification_depth : Z;
  verification_width : Z
}.

(** The ["block_index"] of the reply: the index of a block, or ["pending"]. *)
Inductive location := InBlock (block_index : Z) | InPool.

(** The dict [verify_transaction] returns when the transaction is found;
    [found] names the transaction dict. *)
Record Verified := {
  found : nat;
  where_found : location;
  verification_result : Verification;
  reported_valid : bool
}.

(** The first of [names] whose transaction has hash [transaction_hash]. *)
Fixpoint find_hash (objs : list Transaction) (names : list nat)
    (transaction_hash : string) : option nat :=
  match names with
  | [] => None
  | name :: rest =>
      match objs !! name with
      | Some tx =>
          if String.eqb (tx_hash tx) transaction_hash then Some name
          else find_hash objs rest transaction_hash
      | None => find_hash objs rest transaction_hash
      end
  end.

(** The loop over the blocks: the first block that holds the hash. *)
Fixpoint find_in_chain (objs : list Transaction) (chain : list Block)
    (transaction_hash : string) : option (nat * Z) :=
  match chain with
  | [] => None
  | block :: rest =>
      match find_hash objs (transactions block) transaction_hash with
      | Some name => Some (name, index block)
      | None => find_in_chain objs rest transaction_hash
      end
  end.

(** The text [verify_transaction] hands to the oracle. *)
Definition verification_data (transaction : Transaction) : string :=
  let transaction_data :=
    tx_sender transaction +:+ tx_recipient transaction +:+ str_int (tx_amount transaction)
    +:+ str_int (tx_timestamp transaction) +:+ format_type (tx_type transaction) in
  match tx_data transaction with
  | [] => transaction_data
  | _ :: _ => transaction_data +:+ dumps (JDict (tx_data transaction))
  end.

(** [KontourCoin.verify_transaction]; [quantum] is
    [self.quantum.quantum_transaction_verification]. *)
Definition verify_transaction (quantum : string -> string -> Verification)
    (transaction_hash : string) (self : KontourCoin) : reply Verified :=
  let located :=
    match find_in_chain (objects self) (blockchain self) transaction_hash with
    | Some (name, block_index) => Some (name, InBlock block_index)
    | None =>
        match find_hash (objects self) (pending_transactions self) transaction_hash with
        | Some name => Some (name, InPool)
        | None => None
        end
    end in
  match located with
  | None => Error "Transaction not found"
  | Some (name, block_index) =>
      match objects self !! name with
      | None => Error "Transaction not found"
      | Some transaction =>
          let result := quantum (verification_data transaction) (tx_hash transaction) in
          Value {| found := name; where_found := block_index;
                   verification_result := result; reported_valid := is_valid result |}
      end
  end.

(** An oracle that accepts every transaction. *)
Definition accepting : string -> string -> Verification :=
  fun _ _ => {| is_valid := true; verification_probability := "0.9";
                verification_time := "0.1"; verification_depth := 9;
                verification_width := 8 |}.

(** The second of the [two_transfers], as it waits in the pool. *)
Definition second_transfer : Transaction :=
  {| tx_sender := KTR1; tx_recipient := KTR2; tx_amount := 600000;
     tx_timestamp := 1700000051; tx_type := TRANSFER; tx_data := [];
     tx_status := PENDING;
     tx_hash := "680913d23f356ec12ce57515c59912c495597611bc291fc8c5fdc062df98ab63" |}.

(** The same transfer submitted twice within one second. *)
Definition twice : KontourCoin :=
  fst (create_transaction 1700000050 KTR1 KTR2 100 TRANSFER None one_transfer).

(** ** Smart contracts and AI models *)

(** A contract dict; its ["state"] is a dict of JSON values. *)
Record Contract := {
  sc_address : string;
  sc_owner : string;
  sc_code : string;
  sc_state : gmap string json;
  sc_created_at : Z;
  sc_transactions : list string
}.

(** What [quantum_ai_training] returns: the model id and the other entries. *)
Record TrainingResult := {
  model_id : string;
  training_report : list (string * json)
}.

(** An entry of [self.ai_models]. *)
Record Model := {
  ai_owner : string;
  ai_config : list (string * json);
  ai_training_result : TrainingResult;
  ai_created_at : Z;
  ai_transaction_hash : string
}.

(** The instance with the attributes the contract and model functions use
    beside the ledger's ([coin]), and the two files they write. *)
Record Node := {
  coin : KontourCoin;
  smart_contracts : gmap string Contract;
  ai_models : gmap string Model;
  smart_contracts_json : option (gmap string Contract);
  ai_models_json : option (gmap string Model)
}.

Definition with_coin (ledger : KontourCoin) (node : Node) : Node :=
  {| coin := ledger; smart_contracts := smart_contracts node; ai_models := ai_models node;
     smart_contracts_json := smart_contracts_json node;
     ai_models_json := ai_models_json node |}.

Definition with_contracts (contracts : gmap string Contract) (node : Node) : Node :=
  {| coin := coin node; smart_contracts := contracts; ai_models := ai_models node;
     smart_contracts_json := smart_contracts_json node;
     ai_models_json := ai_models_json node |}.

(** [KontourCoin._save_smart_contracts] *)
Definition _save_smart_contracts (node : Node) : Node :=
  {| coin := coin node; smart_contracts := smart_contracts node;
     ai_models := ai_models node;
     smart_contracts_json := Some (smart_contracts node);
     ai_models_json := ai_models_json node |}.

(** [KontourCoin._save_ai_models] *)
Definition _save_ai_models (node : Node) : Node :=
  {| coin := coin node; smart_contracts := smart_contracts node;
     ai_models := ai_models node;
     smart_contracts_json := smart_contracts_json node;
     ai_models_json := Some (ai_models node) |}.

(** [KontourCoin()] over a data directory: both tables start empty and
    neither file is read. *)
Definition open_node (now : Z) (dir : Files)
    (contracts_file : option (gmap string Contract))
    (models_file : option (gmap string Model)) : Node :=
  {| coin := __init__ now dir; smart_contracts := ∅; ai_models := ∅;
     smart_contracts_json := contracts_file; ai_models_json := models_file |}.

(** What the contract and model functions raise: TypeError, or an exception
    of the ledger or of the oracle. *)
Inductive node_exn := TypeError | Other (e : exn).

(** [KontourCoin.deploy_smart_contract]; [time_text] is [str(time.time())],
    [created_at] and [now] the two later readings of the clock. *)
Definition deploy_smart_contract (time_text : string) (created_at now : Z)
    (owner_address contract_code : string) (initial_state : gmap string json)
    (node : Node) : Node * (Contract * reply nat) :=
  let contract_address :=
    "KTR_SC_" +:+ prefix 24 (sha256_hex (owner_address +:+ time_text +:+ contract_code)) in
  let contract :=
    {| sc_address := contract_address; sc_owner := owner_address; sc_code := contract_code;
       sc_state := initial_state; sc_created_at := created_at; sc_transactions := [] |} in
  let node := with_contracts (<[contract_address := contract]> (smart_contracts node)) node in
  let '(ledger, transaction) :=
    create_transaction now owner_address contract_address 0 SMART_CONTRACT
      (Some [("action", JStr "deploy"); ("contract_address", JStr contract_address)])
      (coin node) in
  (_save_smart_contracts (with_coin ledger node), (contract, transaction)).

(** [x += 1] on a JSON value; [float_succ] is the [repr] of a float plus 1. *)
Definition increment (float_succ : string -> string) (v : json) : option json :=
  match v with
  | JInt n => Some (JInt (n + 1))
  | JBool b => Some (JInt (Z.b2z b + 1))
  | JFloat r => Some (JFloat (float_succ r))
  | JNull | JStr _ | JList _ | JDict _ => None
  end.

Inductive executed :=
| Executed (transaction : nat) (updated_state : gmap string json)
| ExecutionError (msg : string)
| ExecutionRaised (e : node_exn).

(** The contract with a new state and history; the dict in the table is the
    one the function mutates. *)
Definition updated (state : gmap string json) (history : list string)
    (contract : Contract) : Contract :=
  {| sc_address := sc_address contract; sc_owner := sc_owner contract;
     sc_code := sc_code contract; sc_state := state;
     sc_created_at := sc_created_at contract; sc_transactions := history |}.

(** [KontourCoin.execute_smart_contract]; [now] is the clock read by
    [create_transaction], [executed_at] the one stored as last execution. *)
Definition execute_smart_contract (float_succ : string -> string) (now executed_at : Z)
    (contract_address caller_address function : string) (args : list (string * json))
    (amount : Z) (node : Node) : Node * executed :=
  match smart_contracts node !! contract_address with
  | None => (node, ExecutionError "Contract not found")
  | Some contract =>
  if get_account_balance (coin node) caller_address <? amount
  then (node, ExecutionError "Insufficient balance")
  else
    let '(ledger, transaction) :=
      create_transaction now caller_address contract_address amount SMART_CONTRACT
        (Some [("action", JStr "execute"); ("function", JStr function);
               ("args", JDict args)])
        (coin node) in
    let node := with_coin ledger node in
    let state :=
      <["last_args" := JDict args]>
        (<["last_function" := JStr function]>
           (<["last_caller" := JStr caller_address]>
              (<["last_execution" := JInt executed_at]> (sc_state contract)))) in
    let store state history :=
      with_contracts
        (<[contract_address := updated state history contract]> (smart_contracts node))
        node in
    let counted :=
      match state !! "execution_count" with
      | Some v =>
          match increment float_succ v with
          | Some v' => Some (<["execution_count" := v']> state)
          | None => None
          end
      | None => Some (<["execution_count" := JInt 1]> state)
      end in
    match counted with
    | None => (store state (sc_transactions contract), ExecutionRaised TypeError)
    | Some state =>
        match transaction with
        | Error _ =>
            (store state (sc_transactions contract),
             ExecutionRaised (Other (KeyError "hash")))
        | Value name =>
            match objects ledger !! name with
            | None =>
                (store state (sc_transactions contract),
                 ExecutionRaised (Other (KeyError "hash")))
            | Some t =>
                (_save_smart_contracts
                   (store state (sc_transactions contract ++ [tx_hash t])),
                 Executed name state)
            end
        end
    end
  end.

Inductive trained :=
| Trained (model : string) (transaction : nat) (training_result : TrainingResult)
| TrainingError (msg : string)
| TrainingRaised (e : node_exn).

(** [KontourCoin.train_ai_model]; [quantum] is
    [self.quantum.quantum_ai_training], [now] the clock read by
    [create_transaction] and [created_at] the one stored with the model. *)
Definition train_ai_model
    (quantum : list json -> list (string * json) -> exn + TrainingResult)
    (now created_at : Z) (owner_address : string) (model_config : list (string * json))
    (training_data : list json) (node : Node) : Node * trained :=
  let training_cost := 10 in
  if get_account_balance (coin node) owner_address <? training_cost
  then (node, TrainingError "Insufficient balance for AI training")
  else
    let '(ledger, transaction) :=
      create_transaction now owner_address NETWORK training_cost AI_TRAINING
        (Some [("action", JStr "train"); ("model_config", JDict model_config)])
        (coin node) in
    let node := with_coin ledger node in
    match quantum training_data model_config with
    | inl e => (node, TrainingRaised (Other e))
    | inr training_result =>
        let stored :=
          match transaction with
          | Error _ => None
          | Value name =>
              match objects ledger !! name with
              | None => None
              | Some t => Some (name, tx_hash t)
              end
          end in
        match stored with
        | None => (node, TrainingRaised (Other (KeyError "hash")))
        | Some (name, transaction_hash) =>
            let model :=
              {| ai_owner := owner_address; ai_config := model_config;
                 ai_training_result := training_result; ai_created_at := created_at;
                 ai_transaction_hash := transaction_hash |} in
            (_save_ai_models
               {| coin := coin node; smart_contracts := smart_contracts node;
                  ai_models := <[model_id training_result := model]> (ai_models node);
                  smart_contracts_json := smart_contracts_json node;
                  ai_models_json := ai_models_json node |},
             Trained (model_id training_result) name training_result)
        end
    end.

(** [KontourCoin.predict_with_ai_model]; [quantum] is
    [self.quantum.quantum_ai_prediction]. *)
Definition predict_with_ai_model {A : Type} (quantum : string -> list json -> A)
    (model : string) (input_data : list json) (node : Node) : reply A :=
  match ai_models node !! model with
  | None => Error "Model not found"
  | Some _ => Value (quantum model input_data)
  end.

(** The calls made on an instance with its tables. *)
Inductive node_call :=
| Ledger (c : call)
| Deploy (time_text : string) (created_at now : Z) (owner_address contract_code : string)
    (initial_state : gmap string json)
| Execute (float_succ : string -> string) (now executed_at : Z)
    (contract_address caller_address function : string) (args : list (string * json))
    (amount : Z)
| Train (quantum : list json -> list (string * json) -> exn + TrainingResult)
    (now created_at : Z) (owner_address : string) (model_config : list (string * json))
    (training_data : list json).

Definition node_step (node : Node) (c : node_call) : Node :=
  match c with
  | Ledger (Restart now) =>
      open_node now (files (coin node)) (smart_contracts_json node) (ai_models_json node)
  | Ledger c => with_coin (step (coin node) c) node
  | Deploy time_text created_at now owner_address contract_code initial_state =>
      fst (deploy_smart_contract time_text created_at now owner_address contract_code
             initial_state node)
  | Execute float_succ now executed_at contract_address caller_address function args amount =>
      fst (execute_smart_contract float_succ now executed_at contract_address caller_address
             function args amount node)
  | Train quantum now created_at owner_address model_config training_data =>
      fst (train_ai_model quantum now created_at owner_address model_config training_data
             node)
  end.

Definition node_run (calls : list node_call) (node : Node) : Node :=
  fold_left node_step calls node.

(** The states an instance started on an empty data directory can be in. *)
Definition node_reachable (node : Node) : Prop :=
  exists now calls, node = node_run calls (open_node now no_files None None).

(** Some pending transaction credits an address that no account function
    produces. *)
Definition stalled (self : KontourCoin) : Prop :=
  exists name t, name ∈ pending_transactions self
    /\ objects self !! name = Some t
    /\ foreign (tx_recipient t).

Definition no_restart (calls : list call) : bool :=
  forallb (fun c => negb (is_restart c)) calls.

(** An instance started at time 1700000000 on an empty data directory. *)
Definition first_node : Node := open_node 1700000000 no_files None None.

(** A contract deployed by KTR1. *)
Definition deployment : Node * (Contract * reply nat) :=
  deploy_smart_contract "1700000010.5" 1700000010 1700000010 KTR1 "contract Token {}"
    {["supply" := JInt 1000]} first_node.

(** An oracle that trains nothing and names its model after the clock. *)
Definition quick_training : list json -> list (string * json) -> exn + TrainingResult :=
  fun _ _ => inr {| model_id := "quantum_ai_model_1700000020"; training_report := [] |}.

Definition refused_execution (reply : executed) : bool :=
  match reply with ExecutionError _ => true | _ => false end.

Definition refused_training (reply : trained) : bool :=
  match reply with TrainingError _ => true | _ => false end.

(** What [execution_count] holds after one more execution. *)
Definition counted (float_succ : string -> string) (state : gmap string json)
  : option json :=
  match state !! "execution_count" with
  | Some v => increment float_succ v
  | None => Some (JInt 1)
  end.

(** A float plus one, for the floats of the scenarios. *)
Definition one_more : string -> string :=
  fun r => if String.eqb r "0.5" then "1.5" else "1.0".

(** KTR2 calls the deployed contract and sends it 5 coins. *)
Definition execution : Node * executed :=
  execute_smart_contract one_more 1700000030 1700000030
    (sc_address (fst (snd deployment))) KTR2 "mint" [("to", JStr KTR3)] 5 (fst deployment).

(** KTR1 pays for a training run. *)
Definition training : Node * trained :=
  train_ai_model quick_training 1700000020 1700000021 KTR1 [("epochs", JInt 5)] []
    first_node.

(** ** Rewards *)

(** The reward transaction of [mine_block], its recipient and time apart. *)
Definition is_reward (t : Transaction) : Prop :=
  tx_sender t = NETWORK /\ tx_amount t = 50 /\ tx_type t = TRANSFER
  /\ tx_data t = [("reward", JBool true)].

(** A block that lists at least one transaction and then a reward. *)
Definition rewarded_block (d : BlockDoc) : Prop :=
  exists txs r, transactions d = txs ++ [r] /\ txs <> [] /\ is_reward r.

(** Every block after the first is such a block. *)
Definition rewarded (docs : list BlockDoc) : Prop :=
  forall i d, docs !! S i = Some d -> rewarded_block d.

(** The chain in memory, as it would be written, and the chain on disk. *)
Definition pays_rewards (self : KontourCoin) : Prop :=
  rewarded (map (document (objects self)) (blockchain self))
  /\ forall docs, blockchain_json (files self) = Some docs -> rewarded docs.

(** The same transaction dict but for its status. *)
Definition restatus (t t' : Transaction) : Prop := exists s, t' = set_status s t.

(** Every dict of [objs] is still in [objs'], but for its status. *)
Definition grows (objs objs' : list Transaction) : Prop :=
  forall name t, objs !! name = Some t ->
    exists t', objs' !! name = Some t' /\ restatus t t'.

(** ** Statistics *)

(** The dict [get_blockchain_stats] returns, without the oracle's metrics.
    The average is the exact quotient, which Python rounds to a float. *)
Record Stats := {
  block_count : Z;
  transaction_count : Z;
  pending_transaction_count : Z;
  account_count : Z;
  smart_contract_count : Z;
  ai_model_count : Z;
  avg_block_time : Q
}.

(** [sum(len(block["transactions"]) for block in self.blockchain)] *)
Definition count_transactions (chain : list Block) : Z :=
  fold_right (fun block total => Z.of_nat (length (transactions block)) + total) 0 chain.

(** [KontourCoin.get_blockchain_stats] *)
Definition get_blockchain_stats (node : Node) : exn + Stats :=
  let chain := blockchain (coin node) in
  let block_count := Z.of_nat (length chain) in
  let stats (average : Q) :=
    {| block_count := block_count;
       transaction_count := count_transactions chain;
       pending_transaction_count :=
         Z.of_nat (length (pending_transactions (coin node)));
       account_count := Z.of_nat (size (accounts (coin node)));
       smart_contract_count := Z.of_nat (size (smart_contracts node));
       ai_model_count := Z.of_nat (size (ai_models node));
       avg_block_time := average |} in
  if 1 <? block_count then
    match last chain, head chain with
    | Some newest, Some oldest =>
        let total_time := timestamp newest - timestamp oldest in
        inr (stats (inject_Z total_time / inject_Z (block_count - 1))%Q)
    | _, _ => inl IndexError
    end
  else inr (stats 0%Q).

(** ** The HTTP endpoints *)

(** What the body of an endpoint raises: an [HTTPException] of its own, or an
    exception of the ledger. *)
Inductive raised := HTTPException (status_code : Z) | Uncaught (e : node_exn).

(** What the client gets: the value returned, or the status of the
    [HTTPException] that leaves the endpoint. *)
Inductive response (A : Type) := Returned (body : A) | Failed (status_code : Z).
Arguments Returned {A}. Arguments Failed {A}.

(** [try: ... except Exception as e: raise HTTPException(status_code=500, ...)];
    an [HTTPException] raised in the body is an [Exception] too. *)
Definition guarded {A : Type} (body : raised + A) : response A :=
  match body with
  | inr a => Returned a
  | inl (HTTPException _) => Failed 500
  | inl (Uncaught _) => Failed 500
  end.

(** [TransactionType(value)], which raises ValueError for any other value. *)
Definition TransactionType_of (value : option string) : option TransactionType :=
  match value with
  | None => None
  | Some v =>
      if String.eqb v "transfer" then Some TRANSFER
      else if String.eqb v "smart_contract" then Some SMART_CONTRACT
      else if String.eqb v "ai_training" then Some AI_TRAINING
      else if String.eqb v "quantum_computing" then Some QUANTUM_COMPUTING
      else None
  end.

(** The endpoint [/transactions/create]; the request declares
    [amount: float], so the ledger is called with a float.  [now] is the clock
    the ledger reads, [float_repr] is [repr] on floats.  What the framework
    does with the dict the endpoint returns is not part of it. *)
Definition api_create_transaction (float_repr : PrimFloat.float -> string) (now : Z)
    (sender recipient : string) (amount : PrimFloat.float)
    (transaction_type : option string) (data : option (list (string * json)))
    (self : Numbers.Pool) : Numbers.Pool * response Numbers.Transaction :=
  match TransactionType_of transaction_type with
  | None => (self, guarded (inl (Uncaught (Other ValueError))))
  | Some tx_type =>
      let '(self, transaction) :=
        Numbers.create_transaction float_repr now sender recipient (Numbers.Float amount)
          tx_type data self in
      (self, guarded match transaction with
                     | Error _ => inl (HTTPException 400)
                     | Value transaction => inr transaction
                     end)
  end.

(** The endpoint [/mining/mine-block]. *)
Definition api_mine_block (clock : Clock) (quantum : string -> Z -> exn + MiningResult)
    (miner_address : string) (self : KontourCoin) : KontourCoin * response Block :=
  let '(self, block) := mine_block clock quantum miner_address self in
  (self, guarded match block with
                 | Mined b => inr b
                 | MiningError _ _ => inl (HTTPException 400)
                 | Raised e => inl (Uncaught (Other e))
                 end).

(** The endpoint [/smart-contracts/deploy]: the dict returned has the keys
    ["contract"] and ["transaction"] and so never a key ["error"]. *)
Definition api_deploy_smart_contract (time_text : string) (created_at now : Z)
    (owner_address contract_code : string) (initial_state : gmap string json)
    (node : Node) : Node * response (Contract * reply nat) :=
  let '(node, result) :=
    deploy_smart_contract time_text created_at now owner_address contract_code
      initial_state node in
  (node, guarded (inr result)).

(** ** [QuantumKontourIntegration.quantum_transaction_verification] *)

(** The attributes the verification writes: the log, and the probabilities
    of the accepted verifications (floats, by their [repr]). *)
Record Integration := {
  operations_log : list LogEntry;
  verification_accuracy : list string
}.

(** What one run of the verification circuit yields: how many of the 1024
    shots measured 0, the elapsed time, the depth of the circuit and the time
    of the log entry. *)
Record Shots := {
  zero_count : Z;
  shots_elapsed : string;
  shots_depth : Z;
  shots_logged : string
}.

(** The float [0.7], exactly. *)
Definition seven_tenths : Q := 3152519739159347 # 4503599627370496.

(** [quantum_transaction_verification]; [measure] runs the circuit built
    from the two strings, [float_repr] writes a float.  The quotient by 1024
    is exact on floats. *)
Definition quantum_transaction_verification (float_repr : Q -> string)
    (measure : string -> string -> Shots) (transaction_data signature : string)
    (self : Integration) : Integration * Verification :=
  let shots := measure transaction_data signature in
  let verification_probability := (inject_Z (zero_count shots) / 1024)%Q in
  let valid := Qltb seven_tenths verification_probability in
  let accuracy :=
    if valid then verification_accuracy self ++ [float_repr verification_probability]
    else verification_accuracy self in
  let log :=
    _log_quantum_operation (shots_logged shots) TRANSACTION_VERIFICATION
      [("verification_probability", JFloat (float_repr verification_probability));
       ("time", JFloat (shots_elapsed shots)); ("is_valid", JBool valid)]
      (operations_log self) in
  ({| operations_log := log; verification_accuracy := accuracy |},
   {| is_valid := valid;
      verification_probability := float_repr verification_probability;
      verification_time := shots_elapsed shots;
      verification_depth := shots_depth shots;
      verification_width := 8 |}).

(** * Properties *)

(** Split a conjunction of closed facts and evaluate each. *)
Ltac conjuncts := repeat match goal with |- _ /\ _ => split end.
Ltac evaluate := conjuncts; vm_compute; reflexivity.

(** ** The library functions and the genesis state on known values *)

Example sha256_of_abc :
  length SHA256.K = 64%nat
  /\ sha256_hex "abc" = "ba7816bf8f01cfea414140de5dae2223b00361a396177a9cb410ff61f20015ad"
  /\ sha256_hex "abcdbcdecdefdefgefghfghighijhijkijkljklmklmnlmnomnopnopq"
     = "248d6a61d20638b8e5c026930c3e6039a33ce45964ff2167f6ecedd419db06c1".
Proof. split; [|split]; vm_compute; reflexivity. Qed.

Example hex_samples :
  hex 0 = "0" /\ hex 48879 = "beef" /\ hex 255 = "ff" /\ hex 256 = "100"
  /\ hex (2 ^ 64 - 1) = "ffffffffffffffff" /\ zfill 16 (hex 4096) = "0000000000001000".
Proof. evaluate. Qed.

Example dumps_sample :
  dumps (JDict [("b", JInt 1); ("a", JList [JInt 1; JInt 2; JDict [("x", JNull)]]);
                ("c", JStr ("q" +:+ quote +:+ String (ascii_of_nat 10) (String (ascii_of_nat 127) (String (ascii_of_nat 1) (String (ascii_of_nat 233) "")))));
                ("d", JBool true); ("e", JFloat "1.5"); ("f", JInt (-12)); ("g", JDict []); ("h", JList [])])
  = "{" +:+ quote +:+ "a" +:+ quote +:+ ": [1, 2, {" +:+ quote +:+ "x" +:+ quote +:+ ": null}], "
     +:+ quote +:+ "b" +:+ quote +:+ ": 1, " +:+ quote +:+ "c" +:+ quote +:+ ": " +:+ quote +:+ "q\" +:+ quote +:+ "\n\u007f\u0001\u00e9" +:+ quote +:+ ", "
     +:+ quote +:+ "d" +:+ quote +:+ ": true, " +:+ quote +:+ "e" +:+ quote +:+ ": 1.5, " +:+ quote +:+ "f" +:+ quote +:+ ": -12, "
     +:+ quote +:+ "g" +:+ quote +:+ ": {}, " +:+ quote +:+ "h" +:+ quote +:+ ": []}".
Proof. vm_compute. reflexivity. Qed.

Example genesis_accounts :
  get_account_balance (__init__ 1700000000 no_files) KTR2 = 500000.
Proof. vm_compute. reflexivity. Qed.

(** ** Basic facts *)

Lemma last_n_last {A : Type} (n : nat) (l : list A) :
  (0 < n)%nat -> last (last_n n l) = last l.
Proof.
  intros Hn. unfold last_n.
  destruct (decide (length l = 0%nat)) as [H0|H0].
  - destruct l; [reflexivity | discriminate].
  - rewrite !last_lookup, length_skipn, lookup_drop. f_equal. lia.
Qed.

Lemma last_n_head {A : Type} (n : nat) (l : list A) :
  head (last_n n l) = l !! (length l - n)%nat.
Proof.
  unfold last_n. rewrite head_lookup, lookup_drop. f_equal. lia.
Qed.

(** The retargeting never raises when the chain has a last block. *)
Lemma adjust_difficulty_returns (self : KontourCoin) (last_block : Block) :
  last (blockchain self) = Some last_block ->
  exists d, _adjust_difficulty self last_block = inr d.
Proof.
  intros Hlast. unfold _adjust_difficulty.
  destruct ((index last_block mod 10 =? 0) && (0 <? index last_block)); [|eauto].
  rewrite last_n_last, Hlast, last_n_head by lia.
  destruct (blockchain self !! (length (blockchain self) - 10)%nat) as [oldest|] eqn:Hold.
  - repeat case_match; eauto.
  - apply lookup_ge_None in Hold.
    destruct (blockchain self); [discriminate | simpl in Hold; lia].
Qed.

Lemma candidate_block_pending (clock : Clock) (miner : string) (self : KontourCoin)
    (new_block : Block) (objs : list Transaction) :
  candidate_block clock miner self = inr (new_block, objs) ->
  pending_transactions self <> []
  /\ transactions new_block = pending_transactions self ++ [length (objects self)]
  /\ (exists reward, objs = objects self ++ [reward]
        /\ tx_sender reward = NETWORK /\ tx_recipient reward = miner
        /\ tx_amount reward = 50)
  /\ exists last_block, last (blockchain self) = Some last_block
        /\ index new_block = index last_block + 1
        /\ previous_hash new_block = hash last_block
        /\ _adjust_difficulty self last_block = inr (difficulty new_block).
Proof.
  unfold candidate_block. intros H.
  destruct (pending_transactions self) as [|p ps] eqn:Hp; [discriminate|].
  destruct (last (blockchain self)) as [lb|] eqn:Hl; [|discriminate].
  destruct (_adjust_difficulty self lb) as [e|d] eqn:Hd; [discriminate|].
  injection H as <- <-. simpl.
  split; [congruence|]. split; [reflexivity|]. split.
  - eexists. split; [reflexivity|]. simpl. auto.
  - exists lb. auto.
Qed.

(** With pending transactions and a chain, the candidate block is built. *)
Lemma candidate_block_built (clock : Clock) (miner : string) (self : KontourCoin) :
  pending_transactions self <> [] -> blockchain self <> [] ->
  exists new_block objs, candidate_block clock miner self = inr (new_block, objs).
Proof.
  intros Hp Hc. unfold candidate_block.
  destruct (pending_transactions self) as [|p ps]; [congruence|].
  destruct (last (blockchain self)) as [lb|] eqn:Hl.
  - destruct (adjust_difficulty_returns self lb Hl) as [d ->]. eauto.
  - apply last_None in Hl. congruence.
Qed.

(** The balance loop only ever raises [KeyError]. *)
Lemma update_balances_raises (names : list nat) (accts : gmap string Z)
    (objs : list Transaction) accts' objs' e :
  update_balances names accts objs = (accts', objs', Some e) ->
  exists key, e = KeyError key.
Proof.
  revert accts objs. induction names as [|name rest IH]; intros accts objs H; simpl in H.
  - discriminate.
  - destruct (objs !! name) as [t|]; [|eauto].
    destruct (String.eqb (tx_sender t) NETWORK).
    + destruct (accts !! tx_recipient t); [eauto|].
      injection H as _ _ <-. eauto.
    + destruct (accts !! tx_sender t) as [b|].
      * destruct (<[tx_sender t:=b - tx_amount t]> accts !! tx_recipient t); [eauto|].
        injection H as _ _ <-. eauto.
      * injection H as _ _ <-. eauto.
Qed.

(** What [mine_block] does once the oracle has reported success. *)
Lemma mine_block_success (clock : Clock) (quantum : string -> Z -> exn + MiningResult)
    (miner : string) (self : KontourCoin) (new_block : Block)
    (objs : list Transaction) (r : MiningSuccess) :
  candidate_block clock miner self = inr (new_block, objs) ->
  quantum (block_data_of objs new_block) (difficulty new_block) = inr (Success r) ->
  let '(accts, objs', raised) :=
    update_balances (transactions new_block) (accounts self) objs in
  mine_block clock quantum miner self =
    match raised with
    | Some e =>
        ({| blockchain := blockchain self ++ [sealed new_block r];
            pending_transactions := pending_transactions self;
            accounts := accts; objects := objs'; files := files self |}, Raised e)
    | None =>
        (_save_accounts (_save_blockchain
           {| blockchain := blockchain self ++ [sealed new_block r];
              pending_transactions := [];
              accounts := accts; objects := objs'; files := files self |}),
         Mined (sealed new_block r))
    end.
Proof.
  intros Hc Hq. unfold mine_block. rewrite Hc, Hq. cbv zeta. cbn [transactions].
  destruct (update_balances (transactions new_block) (accounts self) objs)
    as [[accts objs'] [e|]]; reflexivity.
Qed.

(** Every way [mine_block] can return. *)
Lemma mine_block_cases (clock : Clock) (quantum : string -> Z -> exn + MiningResult)
    (miner : string) (self : KontourCoin) :
  (fst (mine_block clock quantum miner self) = self
   /\ forall b, snd (mine_block clock quantum miner self) <> Mined b)
  \/ exists new_block objs r,
       candidate_block clock miner self = inr (new_block, objs)
       /\ quantum (block_data_of objs new_block) (difficulty new_block) = inr (Success r).
Proof.
  destruct (candidate_block clock miner self) as [early|[new_block objs]] eqn:Hc.
  - left. unfold mine_block. rewrite Hc. simpl. split; [reflexivity|].
    intros b ->. unfold candidate_block in Hc. repeat case_match; discriminate.
  - destruct (quantum (block_data_of objs new_block) (difficulty new_block))
      as [e|[r|t]] eqn:Hq.
    + left. unfold mine_block. rewrite Hc, Hq. simpl. split; [reflexivity | discriminate].
    + right. eauto.
    + left. unfold mine_block. rewrite Hc, Hq. simpl. split; [reflexivity | discriminate].
Qed.

(** A mined block, seen from its result. *)
Lemma mine_block_mined (clock : Clock) (quantum : string -> Z -> exn + MiningResult)
    (miner : string) (self self' : KontourCoin) (b : Block) :
  mine_block clock quantum miner self = (self', Mined b) ->
  exists new_block objs r accts objs',
    candidate_block clock miner self = inr (new_block, objs)
    /\ quantum (block_data_of objs new_block) (difficulty new_block) = inr (Success r)
    /\ update_balances (transactions new_block) (accounts self) objs = (accts, objs', None)
    /\ b = sealed new_block r
    /\ self' = _save_accounts (_save_blockchain
                 {| blockchain := blockchain self ++ [b]; pending_transactions := [];
                    accounts := accts; objects := objs'; files := files self |}).
Proof.
  intros H.
  destruct (mine_block_cases clock quantum miner self)
    as [[_ Hno]|(new_block & objs & r & Hc & Hq)].
  - rewrite H in Hno. exfalso. exact (Hno b eq_refl).
  - pose proof (mine_block_success clock quantum miner self new_block objs r Hc Hq) as Hs.
    destruct (update_balances (transactions new_block) (accounts self) objs)
      as [[accts objs'] [e|]] eqn:Hu; rewrite Hs in H.
    + discriminate.
    + injection H as <- <-. exists new_block, objs, r, accts, objs'. auto.
Qed.

(** ** Numbers *)

(** Against the int 0 the exact comparison is the comparison of floats. *)
Lemma lt_zero_float (f : PrimFloat.float) :
  Numbers.lt (Numbers.Int 0) (Numbers.Float f) = PrimFloat.ltb PrimFloat.zero f.
Proof.
  rewrite FloatAxioms.ltb_spec. unfold Numbers.lt, Numbers.compare_int_float.
  change (FloatOps.Prim2SF PrimFloat.zero) with (SpecFloat.S754_zero false).
  destruct (FloatOps.Prim2SF f) as [s|s| |s m e]; [reflexivity| destruct s; reflexivity
                                                      |reflexivity|].
  unfold SpecFloat.SFltb, SpecFloat.SFcompare.
  destruct (0 <=? e) eqn:He.
  - apply Z.leb_le in He. destruct s.
    + assert (Z.neg m * 2 ^ e < 0) as H by (pose proof (Z.pow_pos_nonneg 2 e); nia).
      apply Z.compare_gt_iff in H. rewrite H. reflexivity.
    + assert (0 < Z.pos m * 2 ^ e) as H by (pose proof (Z.pow_pos_nonneg 2 e); nia).
      apply Z.compare_lt_iff in H. rewrite H. reflexivity.
  - destruct s; reflexivity.
Qed.

(** On ints [Numbers.settle] is [settle]: the same accounts, the same
    exception. *)
Lemma settle_on_ints (l : list (string * string * Z)) (accts : gmap string Z) :
  Numbers.settle (map of_transfer l) (Numbers.Int <$> accts)
  = (Numbers.Int <$> (settle l accts).1, Numbers.Ledger <$> (settle l accts).2).
Proof.
  revert accts. induction l as [|[[s r] a] rest IH]; intros accts; [reflexivity|].
  cbn [map of_transfer fst snd Numbers.settle settle].
  destruct (String.eqb s NETWORK).
  - rewrite lookup_fmap. destruct (accts !! r) as [b|]; [|reflexivity].
    cbn [fmap option_fmap option_map Numbers.plus Numbers.arithmetic].
    rewrite <- fmap_insert. apply IH.
  - rewrite lookup_fmap. destruct (accts !! s) as [b|]; [|reflexivity].
    cbn [fmap option_fmap option_map Numbers.minus Numbers.arithmetic].
    rewrite <- fmap_insert, lookup_fmap.
    destruct (<[s:=b - a]> accts !! r) as [b'|]; [|reflexivity].
    cbn [fmap option_fmap option_map Numbers.plus Numbers.arithmetic].
    rewrite <- fmap_insert. apply IH.
Qed.

(** An int of 1025 bits is too large to be added to a float; one of 1024 bits
    is not. *)
Example int_too_large_for_float :
  Numbers.plus (Numbers.Int (2 ^ 1024)) (Numbers.Float PrimFloat.one)
  = inl Numbers.OverflowError
  /\ exists f, Numbers.plus (Numbers.Int (2 ^ 1023)) (Numbers.Float PrimFloat.one)
               = inr (Numbers.Float f).
Proof.
  split; [vm_compute; reflexivity|]. eexists. vm_compute. reflexivity.
Qed.

Lemma resolve_allocated (objs extra : list Transaction) (names : list nat) :
  (forall name, name ∈ names -> (name < length objs)%nat) ->
  resolve (objs ++ extra) names = resolve objs names.
Proof.
  unfold resolve. induction names as [|r rest IH]; intros H; [reflexivity|].
  simpl. rewrite lookup_app_l by (apply H; left).
  fold (omap (fun r => (objs ++ extra) !! r) rest) (omap (fun r => objs !! r) rest).
  rewrite IH by (intros; apply H; right; assumption). reflexivity.
Qed.

(** On ints [Numbers.create_transaction] is [create_transaction]: both refuse,
    or both queue the same transaction. *)
Lemma create_transaction_on_ints (float_repr : PrimFloat.float -> string) (now : Z)
    (sender recipient : string) (amount : Z) (ty : TransactionType)
    (data : option (list (string * json))) (self : KontourCoin) :
  pool_allocated self ->
  let result := create_transaction now sender recipient amount ty data self in
  let on_numbers :=
    Numbers.create_transaction float_repr now sender recipient (Numbers.Int amount) ty data
      (of_ledger self) in
  match snd result with
  | Error msg => on_numbers = (of_ledger (fst result), Error msg)
  | Value name =>
      exists t, objects (fst result) !! name = Some t
        /\ on_numbers = (of_ledger (fst result), Value (of_transaction t))
  end.
Proof.
  intros Ha. cbv zeta. unfold create_transaction, Numbers.create_transaction.
  assert (Numbers.get_account_balance (of_ledger self) sender
          = Numbers.Int (get_account_balance self sender)) as ->.
  { unfold Numbers.get_account_balance, get_account_balance, of_ledger.
    cbn [Numbers.accounts]. rewrite lookup_fmap.
    destruct (accounts self !! sender); reflexivity. }
  cbn [Numbers.lt]. destruct (get_account_balance self sender <? amount); cbn [fst snd].
  - reflexivity.
  - eexists. split; [apply list_lookup_middle; reflexivity|].
    unfold of_ledger. cbn [accounts objects pending_transactions Numbers.accounts
                           Numbers.pending_transactions Numbers.str].
    f_equal. f_equal.
    assert (forall objs a b, resolve objs (a ++ b) = resolve objs a ++ resolve objs b)
      as Happ by (intros; apply omap_app).
    rewrite Happ, resolve_allocated by exact Ha. rewrite map_app. f_equal.
    unfold resolve. simpl. rewrite list_lookup_middle by reflexivity. reflexivity.
Qed.

(** ** Unknown addresses *)

(** C10, as the code has it.  The balance of an address without an account
    entry is the int 0 (the query cannot fail), and a submission from such a
    sender is refused exactly when [0 < amount] holds in Python: for an int
    when it is positive, for a float when the float comparison [0.0 < amount]
    holds, which it does not for NaN.  A refused submission leaves accounts
    and pool as they were; every other one is queued as it was submitted. *)
Theorem unknown_sender_has_balance_zero (self : Numbers.Pool) (sender : string) :
  Numbers.accounts self !! sender = None ->
  Numbers.get_account_balance self sender = Numbers.Int 0
  /\ (forall n, Numbers.lt (Numbers.Int 0) (Numbers.Int n) = (0 <? n))
  /\ (forall f, Numbers.lt (Numbers.Int 0) (Numbers.Float f)
               = PrimFloat.ltb PrimFloat.zero f)
  /\ forall float_repr now recipient amount ty data,
       let result :=
         Numbers.create_transaction float_repr now sender recipient amount ty data self in
       if Numbers.lt (Numbers.Int 0) amount
       then result = (self, Error "Insufficient balance")
       else exists t,
              result
              = ({| Numbers.accounts := Numbers.accounts self;
                    Numbers.pending_transactions :=
                      Numbers.pending_transactions self ++ [t] |}, Value t)
              /\ Numbers.sender t = sender /\ Numbers.recipient t = recipient
              /\ Numbers.amount t = amount /\ Numbers.status t = PENDING.
Proof.
  intros Hnone.
  assert (Hbal : Numbers.get_account_balance self sender = Numbers.Int 0).
  { unfold Numbers.get_account_balance. rewrite Hnone. reflexivity. }
  split; [exact Hbal|]. split; [reflexivity|]. split; [exact lt_zero_float|].
  intros float_repr now recipient amount ty data. cbv zeta.
  unfold Numbers.create_transaction. rewrite Hbal.
  destruct (Numbers.lt (Numbers.Int 0) amount); [reflexivity|].
  eexists. split; [reflexivity|]. cbn. auto.
Qed.

Lemma unknown_sender_has_balance_zero_witness :
  Numbers.accounts (of_ledger genesis) !! "KTR9" = None
  /\ Numbers.get_account_balance (of_ledger genesis) "KTR9" = Numbers.Int 0
  /\ Numbers.create_transaction (fun _ => "0.0") 1700000050 "KTR9" KTR2 (Numbers.Int 1)
       TRANSFER None (of_ledger genesis)
     = (of_ledger genesis, Error "Insufficient balance").
Proof.
  assert (Numbers.accounts (of_ledger genesis) !! "KTR9" = None) as H
    by (vm_compute; reflexivity).
  split; [exact H|].
  destruct (unknown_sender_has_balance_zero (of_ledger genesis) "KTR9" H)
    as (Hbal & _ & _ & Hsubmit).
  split; [exact Hbal|].
  exact (Hsubmit (fun _ => "0.0") 1700000050 KTR2 (Numbers.Int 1) TRANSFER None).
Defined.

(** C10 as stated fails on floats: the amount NaN is not [<= 0], yet a
    submission of NaN from a sender without an account passes the test
    [balance < amount] and is queued. *)
Lemma nan_from_unknown_sender_is_admitted :
  let nan := Numbers.Float PrimFloat.nan in
  let after :=
    Numbers.create_transaction (fun _ => "nan") 1700000050 "KTR9" KTR2 nan TRANSFER None
      (of_ledger genesis) in
  Numbers.accounts (of_ledger genesis) !! "KTR9" = None
  /\ Numbers.le nan (Numbers.Int 0) = false
  /\ exists t, snd after = Value t
       /\ Numbers.amount t = nan
       /\ Numbers.pending_transactions (fst after) = [t].
Proof.
  cbv zeta. split; [vm_compute; reflexivity|]. split; [vm_compute; reflexivity|].
  eexists. split; [vm_compute; reflexivity|]. split; [reflexivity|].
  vm_compute. reflexivity.
Qed.

(** ** Domain errors *)

(** C9.  A submission refused for insufficient balance, a mining call on an
    empty pool and a mining call whose oracle reports failure each return an
    error value and leave the whole ledger (chain, balances, pool) as it was. *)
Theorem domain_errors_change_nothing (self : KontourCoin) :
  (forall now sender recipient amount ty data,
     get_account_balance self sender < amount ->
     create_transaction now sender recipient amount ty data self
     = (self, Error "Insufficient balance"))
  /\ (forall clock quantum miner,
        pending_transactions self = [] ->
        mine_block clock quantum miner self
        = (self, MiningError "No pending transactions to mine" None))
  /\ (forall clock quantum miner new_block objs t,
        candidate_block clock miner self = inr (new_block, objs) ->
        quantum (block_data_of objs new_block) (difficulty new_block) = inr (Failure t) ->
        mine_block clock quantum miner self
        = (self, MiningError "Mining failed" (Some (Failure t)))).
Proof.
  split; [|split].
  - intros now sender recipient amount ty data Hlt. unfold create_transaction.
    apply Z.ltb_lt in Hlt. rewrite Hlt. reflexivity.
  - intros clock quantum miner Hp. unfold mine_block, candidate_block.
    rewrite Hp. reflexivity.
  - intros clock quantum miner new_block objs t Hc Hq. unfold mine_block.
    rewrite Hc, Hq. reflexivity.
Qed.

(** The three cases at work: KTR3 holds 250000; the pool of [genesis] is
    empty; the repository's oracle gives up after 100 iterations when every
    simulated hash is 16 digits f. *)
Lemma domain_errors_change_nothing_witness :
  create_transaction 1700000050 KTR3 KTR1 250001 TRANSFER None genesis
  = (genesis, Error "Insufficient balance")
  /\ mine_block noon (repository_oracle (constant_simulator 0)) KTR3 genesis
     = (genesis, MiningError "No pending transactions to mine" None)
  /\ mine_block noon (repository_oracle (constant_simulator (-1))) KTR3 one_transfer
     = (one_transfer, MiningError "Mining failed" (Some (Failure "0.5"))).
Proof.
  split; [|split].
  - apply (proj1 (domain_errors_change_nothing genesis)). vm_compute. reflexivity.
  - apply (proj1 (proj2 (domain_errors_change_nothing genesis))). vm_compute. reflexivity.
  - eapply (proj2 (proj2 (domain_errors_change_nothing one_transfer))).
    + vm_compute. reflexivity.
    + vm_compute. reflexivity.
Defined.

(** ** Mining and the oracle *)

(** C1, as the code has it.  When the oracle reports success, [mine_block]
    appends the block carrying the oracle's nonce and hash as reported, with
    no test of either; the call returns that block unless the balance loop
    raises [KeyError].  When the oracle reports failure, the call returns the
    mining-failed error and the ledger is unchanged. *)
Theorem oracle_answer_is_committed_unchecked (clock : Clock)
    (quantum : string -> Z -> exn + MiningResult) (miner : string)
    (self : KontourCoin) (new_block : Block) (objs : list Transaction) :
  candidate_block clock miner self = inr (new_block, objs) ->
  (forall r,
     quantum (block_data_of objs new_block) (difficulty new_block) = inr (Success r) ->
     exists b,
       blockchain (fst (mine_block clock quantum miner self)) = blockchain self ++ [b]
       /\ nonce b = mr_nonce r /\ hash b = mr_hash r
       /\ (snd (mine_block clock quantum miner self) = Mined b
           \/ exists key, snd (mine_block clock quantum miner self) = Raised (KeyError key)))
  /\ (forall t,
        quantum (block_data_of objs new_block) (difficulty new_block) = inr (Failure t) ->
        mine_block clock quantum miner self
        = (self, MiningError "Mining failed" (Some (Failure t)))).
Proof.
  intros Hc. split.
  - intros r Hq. exists (sealed new_block r).
    pose proof (mine_block_success clock quantum miner self new_block objs r Hc Hq) as Hs.
    destruct (update_balances (transactions new_block) (accounts self) objs)
      as [[accts objs'] [e|]] eqn:Hu; rewrite Hs; simpl.
    + destruct (update_balances_raises _ _ _ _ _ _ Hu) as [key ->]. eauto 6.
    + auto.
  - intros t Hq. unfold mine_block. rewrite Hc, Hq. reflexivity.
Qed.

Lemma oracle_answer_is_committed_unchecked_witness :
  exists new_block objs,
    candidate_block noon KTR3 one_transfer = inr (new_block, objs)
    /\ (forall r,
          answering (Success unchecked_result) (block_data_of objs new_block)
            (difficulty new_block) = inr (Success r) ->
          exists b,
            blockchain (fst (mine_block noon (answering (Success unchecked_result))
                               KTR3 one_transfer)) = blockchain one_transfer ++ [b]
            /\ nonce b = mr_nonce r /\ hash b = mr_hash r
            /\ (snd (mine_block noon (answering (Success unchecked_result))
                       KTR3 one_transfer) = Mined b
                \/ exists key,
                     snd (mine_block noon (answering (Success unchecked_result))
                            KTR3 one_transfer) = Raised (KeyError key))).
Proof.
  eexists _, _. split; [vm_compute; reflexivity|].
  refine (proj1 (oracle_answer_is_committed_unchecked noon
                   (answering (Success unchecked_result)) KTR3 one_transfer _ _ _)).
  vm_compute. reflexivity.
Defined.

(** C1 as stated fails: the oracle's hash ["ffffffffffffffff"] fails the
    difficulty test at difficulty 4 and is not [_calculate_hash] of the block,
    yet [mine_block] returns the block with that hash, appended to the chain. *)
Lemma oracle_answer_not_rechecked :
  let after := mine_block noon (answering (Success unchecked_result)) KTR3 one_transfer in
  exists b,
    snd after = Mined b
    /\ blockchain (fst after) = blockchain one_transfer ++ [b]
    /\ hash b = "ffffffffffffffff"
    /\ _check_hash_difficulty (hash b) (difficulty b) = inr false
    /\ _calculate_hash (document (objects (fst after)) b) <> hash b.
Proof.
  cbv zeta. eexists. split; [vm_compute; reflexivity|].
  split; [vm_compute; reflexivity|]. split; [reflexivity|].
  split; [vm_compute; reflexivity|]. vm_compute. discriminate.
Qed.

(** ** A miner without an account *)

(** The balance loop never adds a key to the accounts. *)
Lemma update_balances_keys (names : list nat) (accts : gmap string Z)
    (objs : list Transaction) (key : string) :
  accts !! key = None ->
  (update_balances names accts objs).1.1 !! key = None.
Proof.
  revert accts objs. induction names as [|name rest IH]; intros accts objs Hk; simpl.
  - exact Hk.
  - destruct (objs !! name) as [t|]; [|auto].
    destruct (String.eqb (tx_sender t) NETWORK).
    + destruct (accts !! tx_recipient t) as [b|] eqn:Hr; simpl; [|exact Hk].
      apply IH. rewrite lookup_insert_ne; [exact Hk | intros E; rewrite E in *; congruence].
    + destruct (accts !! tx_sender t) as [b|] eqn:Hs; simpl; [|exact Hk].
      assert (<[tx_sender t:=b - tx_amount t]> accts !! key = None) as Hk1.
      { rewrite lookup_insert_ne; [exact Hk | intros E; rewrite E in *; congruence]. }
      destruct (<[tx_sender t:=b - tx_amount t]> accts !! tx_recipient t) as [b'|] eqn:Hr;
        simpl; [|exact Hk1].
      apply IH. rewrite lookup_insert_ne; [exact Hk1 | intros E; rewrite E in *; congruence].
Qed.

(** The loop raises when some transaction it is given credits an address
    that has no account. *)
Lemma update_balances_unknown_recipient (names : list nat) (accts : gmap string Z)
    (objs : list Transaction) (key : string) :
  accts !! key = None ->
  (exists name t, name ∈ names /\ objs !! name = Some t /\ tx_recipient t = key) ->
  exists e, (update_balances names accts objs).2 = Some e.
Proof.
  revert accts objs. induction names as [|name rest IH];
    intros accts objs Hk (name' & t' & Hin & Hobj & Hrec); simpl.
  - apply elem_of_nil in Hin. destruct Hin.
  - destruct (objs !! name) as [t|] eqn:Ht.
    + assert (forall accts1, accts1 !! key = None ->
                match accts1 !! tx_recipient t with
                | Some b =>
                    update_balances rest (<[tx_recipient t:=b + tx_amount t]> accts1)
                      (<[name:=set_status CONFIRMED t]> objs)
                | None => (accts1, objs, Some (KeyError (tx_recipient t)))
                end.2 <> None) as Hcredit.
      { intros accts1 Hk1.
        destruct (accts1 !! tx_recipient t) as [b|] eqn:Hr; [|discriminate].
        assert (tx_recipient t <> key) as Hne by (intros E; rewrite E in *; congruence).
        destruct (IH (<[tx_recipient t:=b + tx_amount t]> accts1)
                     (<[name:=set_status CONFIRMED t]> objs)) as [e He].
        - rewrite lookup_insert_ne; [exact Hk1 | exact Hne].
        - apply elem_of_cons in Hin as [->|Hin].
          + congruence.
          + destruct (decide (name' = name)) as [->|Hn]; [congruence|].
            exists name', t'. rewrite list_lookup_insert_ne by congruence. auto.
        - rewrite He. discriminate. }
      destruct (String.eqb (tx_sender t) NETWORK).
      * specialize (Hcredit accts Hk). revert Hcredit.
        destruct (match accts !! tx_recipient t with Some _ => _ | None => _ end)
          as [[a o] [e|]]; simpl; intros Hcredit; [eauto | congruence].
      * destruct (accts !! tx_sender t) as [b|] eqn:Hs; simpl; [|eauto].
        assert (<[tx_sender t:=b - tx_amount t]> accts !! key = None) as Hk1.
        { rewrite lookup_insert_ne; [exact Hk | intros E; rewrite E in *; congruence]. }
        specialize (Hcredit _ Hk1). revert Hcredit.
        destruct (match <[tx_sender t:=b - tx_amount t]> accts !! tx_recipient t with
                  | Some _ => _ | None => _ end) as [[a o] [e|]];
          simpl; intros Hcredit; [eauto | congruence].
    + apply IH; [exact Hk|].
      apply elem_of_cons in Hin as [->|Hin]; [congruence|]. eauto.
Qed.

(** Mining for an address that has no account never returns a block: there
    is no implicit creation of the miner's account. *)
Lemma mine_block_unknown_miner (clock : Clock)
    (quantum : string -> Z -> exn + MiningResult) (miner : string)
    (self : KontourCoin) (b : Block) :
  accounts self !! miner = None ->
  snd (mine_block clock quantum miner self) <> Mined b.
Proof.
  intros Hk Hm.
  destruct (mine_block clock quantum miner self) as [self' reply] eqn:H.
  simpl in Hm. subst reply.
  destruct (mine_block_mined _ _ _ _ _ _ H)
    as (new_block & objs & r & accts & objs' & Hc & _ & Hu & _ & _).
  apply candidate_block_pending in Hc
    as (_ & Htx & (reward & -> & _ & Hrec & _) & _).
  destruct (update_balances_unknown_recipient (transactions new_block) (accounts self)
              (objects self ++ [reward]) miner Hk) as [e He].
  - exists (length (objects self)), reward. rewrite Htx. split; [|split].
    + apply elem_of_app. right. left.
    + apply list_lookup_middle. reflexivity.
    + exact Hrec.
  - rewrite Hu in He. discriminate.
Qed.

(** C7 on the scenario of the specification, with a miner ["KTRM"] that has
    no account: the transfer of 100 is applied and the block is appended, then
    crediting the reward raises [KeyError]; the miner gets no balance and the
    pool is not emptied. *)
Theorem fresh_miner_raises_key_error :
  let after := mine_block noon (repository_oracle (constant_simulator 0)) "KTRM" one_transfer in
  accounts one_transfer !! "KTRM" = None
  /\ snd after = Raised (KeyError "KTRM")
  /\ get_account_balance (fst after) KTR1 = 999900
  /\ get_account_balance (fst after) KTR2 = 500100
  /\ accounts (fst after) !! "KTRM" = None
  /\ pending_transactions (fst after) = [0%nat]
  /\ Z.of_nat (length (blockchain (fst after))) = 2.
Proof.
  cbv zeta. evaluate.
Qed.

(** ** Restarting *)

(** A fresh instance over a data directory that holds a chain starts with no
    accounts and no pending transactions: [__init__] reads the chain only. *)
Lemma restart_reads_chain_only (now : Z) (dir : Files) (d : BlockDoc) (docs : list BlockDoc) :
  blockchain_json dir = Some (d :: docs) ->
  accounts (__init__ now dir) = ∅ /\ pending_transactions (__init__ now dir) = [].
Proof.
  intros Hf. unfold __init__, _load_blockchain. simpl. rewrite Hf. simpl.
  destruct (load_blocks docs (transactions d)) as [bs objs]. simpl. auto.
Qed.

(** C6 on the smallest run: the first instance saves its three accounts,
    the instance restarted over the same directory has none (the chain is
    restored as it was saved). *)
Theorem restart_loses_accounts :
  let restarted := __init__ 1700000200 (files genesis) in
  accounts_json (files genesis) = Some (accounts genesis)
  /\ get_account_balance genesis KTR1 = 1000000
  /\ accounts restarted = ∅
  /\ get_account_balance restarted KTR1 = 0
  /\ map (document (objects restarted)) (blockchain restarted)
     = map (document (objects genesis)) (blockchain genesis).
Proof.
  cbv zeta. evaluate.
Qed.

(** ** Well-formed chains *)

Lemma with_transactions_twice {T U V : Type} (txs : list U) (txs' : list V) (b : Block_ T) :
  with_transactions txs' (with_transactions txs b) = with_transactions txs' b.
Proof. destruct b. reflexivity. Qed.

Lemma alike_with_transactions {T U : Type} (txs : list U) (b : Block_ T) :
  (transactions b = [] -> txs = []) -> alike b (with_transactions txs b).
Proof.
  intros H. split; [|destruct b; exact H].
  symmetry. apply with_transactions_twice.
Qed.

Lemma alike_fields {T U : Type} (b : Block_ T) (d : Block_ U) :
  alike b d ->
  index d = index b /\ difficulty d = difficulty b /\ hash d = hash b
  /\ with_transactions (@nil Transaction) d = with_transactions [] b.
Proof.
  intros [H _]. destruct b, d. simpl in *. injection H as -> -> -> -> -> -> -> ->. auto.
Qed.

Lemma sound_alike {T U : Type} (c : list (Block_ T)) (c' : list (Block_ U)) :
  Forall2 alike c c' -> sound c -> sound c'.
Proof.
  intros HF ((b0 & rest & -> & Htx & Hh) & Hi & Hf). split; [|split].
  - inversion HF as [|? d0 ? rest' Hal HF']; subst.
    exists d0, rest'. split; [reflexivity|]. split; [apply Hal, Htx|].
    destruct (alike_fields _ _ Hal) as (_ & _ & -> & ->). exact Hh.
  - intros i d Hd.
    destruct (Forall2_lookup_r _ _ _ _ _ HF Hd) as (b & Hb & Hal).
    destruct (alike_fields _ _ Hal) as (-> & _). eauto.
  - intros d Hd. apply list_elem_of_lookup in Hd as [i Hd].
    destruct (Forall2_lookup_r _ _ _ _ _ HF Hd) as (b & Hb & Hal).
    destruct (alike_fields _ _ Hal) as (_ & -> & _).
    apply Hf. apply list_elem_of_lookup. eauto.
Qed.

Lemma sound_document (objs : list Transaction) (c : list Block) :
  sound c -> sound (map (document objs) c).
Proof.
  apply sound_alike. apply Forall2_fmap_r, Forall_Forall2_diag, Forall_forall.
  intros b _. apply alike_with_transactions. intros ->. reflexivity.
Qed.

Lemma load_blocks_alike (docs : list BlockDoc) (objs : list Transaction) :
  Forall2 alike docs (load_blocks docs objs).1.
Proof.
  revert objs. induction docs as [|d docs IH]; intros objs; simpl.
  - constructor.
  - specialize (IH (objs ++ transactions d)).
    destruct (load_blocks docs (objs ++ transactions d)) as [bs objs']. simpl in *.
    constructor; [|exact IH].
    apply alike_with_transactions. intros ->. reflexivity.
Qed.

Lemma sound_load (docs : list BlockDoc) (objs : list Transaction) :
  sound docs -> sound (load_blocks docs objs).1.
Proof. apply sound_alike, load_blocks_alike. Qed.

Lemma sound_last_index {T : Type} (c : list (Block_ T)) (tip : Block_ T) :
  sound c -> last c = Some tip -> Z.of_nat (length c) = index tip + 1.
Proof.
  intros (_ & Hi & _) Hl. rewrite last_lookup in Hl.
  pose proof (lookup_lt_Some _ _ _ Hl). rewrite (Hi _ _ Hl). lia.
Qed.

Lemma sound_snoc {T : Type} (c : list (Block_ T)) (tip b : Block_ T) :
  sound c -> last c = Some tip ->
  index b = index tip + 1 -> 1 <= difficulty b ->
  sound (c ++ [b]).
Proof.
  intros Hs Hl Hidx Hd. pose proof (sound_last_index c tip Hs Hl) as Hlen.
  destruct Hs as ((b0 & rest & -> & Htx & Hh) & Hi & Hf). split; [|split].
  - exists b0, (rest ++ [b]). auto.
  - intros i x Hx. apply lookup_snoc_Some in Hx as [[_ Hx]|[-> <-]]; [eauto | lia].
  - intros x Hx. apply elem_of_app in Hx as [Hx|Hx]; [auto|].
    apply list_elem_of_singleton in Hx as ->. exact Hd.
Qed.

(** On a sound chain the code computes the policy of the specification. *)
Lemma adjust_difficulty_refines (self : KontourCoin) (tip : Block) :
  sound (blockchain self) -> last (blockchain self) = Some tip ->
  _adjust_difficulty self tip = inr (next_difficulty (blockchain self) tip).
Proof.
  intros Hs Hl. pose proof (sound_last_index _ _ Hs Hl) as Hlen.
  unfold _adjust_difficulty, next_difficulty, EPOCH.
  destruct ((index tip mod 10 =? 0) && (0 <? index tip)) eqn:Hc; [|reflexivity].
  apply andb_true_iff in Hc as [Hm Hp].
  apply Z.eqb_eq in Hm. apply Z.ltb_lt in Hp.
  assert (10 <= index tip) as Hge.
  { pose proof (Z.div_mod (index tip) 10). lia. }
  rewrite last_n_last, Hl, last_n_head by lia.
  replace (Z.to_nat (index tip - 10 + 1)) with (length (blockchain self) - 10)%nat by lia.
  destruct (blockchain self !! (length (blockchain self) - 10)%nat) as [old|] eqn:Hold.
  - change (inject_Z (10 - 1)) with 9%Q. repeat case_match; congruence.
  - apply lookup_ge_None in Hold. lia.
Qed.

Lemma next_difficulty_floor (chain : list Block) (tip : Block) :
  1 <= difficulty tip -> 1 <= next_difficulty chain tip.
Proof.
  intros H. unfold next_difficulty. repeat case_match; lia.
Qed.

(** ** Every reachable ledger is consistent *)

Lemma calculate_hash_ignores_hash (b b' : BlockDoc) :
  del_key "hash" (block_items b) = del_key "hash" (block_items b') ->
  _calculate_hash b = _calculate_hash b'.
Proof. unfold _calculate_hash. intros ->. reflexivity. Qed.

Lemma consistent_init (now : Z) : consistent (__init__ now no_files).
Proof.
  unfold __init__, _load_blockchain. cbn [files blockchain_json no_files blockchain].
  unfold _create_genesis_block, _create_initial_accounts, _save_accounts, _save_blockchain,
    set_accounts, set_files, append_block.
  cbn [blockchain files blockchain_json accounts objects pending_transactions app map].
  set (h := _calculate_hash _).
  assert (forall T (txs : list T),
            sound [ {| index := 0; timestamp := now; transactions := txs;
                       previous_hash := zeros64; nonce := 0; difficulty := 4; hash := h;
                       quantum_enhanced := true;
                       quantum_metrics := [("mining_speedup", JFloat "1.0");
                                           ("verification_accuracy", JFloat "1.0")] |} ]
            \/ txs <> []) as Hsound.
  { intros T txs. destruct txs as [|t txs]; [left | right; discriminate].
    split; [|split].
    - eexists _, []. split; [reflexivity|]. split; [reflexivity|].
      subst h. apply calculate_hash_ignores_hash. reflexivity.
    - intros [|i] b Hb; [|destruct i; discriminate]. injection Hb as <-. reflexivity.
    - intros b Hb. apply list_elem_of_singleton in Hb as ->. simpl. lia. }
  split.
  - destruct (Hsound nat []) as [H|H]; [exact H | congruence].
  - eexists. split; [reflexivity|].
    destruct (Hsound Transaction []) as [H|H]; [exact H | congruence].
Qed.

Lemma consistent_mine (clock : Clock) (quantum : string -> Z -> exn + MiningResult)
    (miner : string) (self : KontourCoin) :
  consistent self -> consistent (fst (mine_block clock quantum miner self)).
Proof.
  intros [Hs (docs & Hf & Hd)].
  destruct (mine_block_cases clock quantum miner self)
    as [[-> _]|(new_block & objs & r & Hc & Hq)].
  { split; eauto. }
  pose proof (mine_block_success clock quantum miner self new_block objs r Hc Hq) as Hm.
  apply candidate_block_pending in Hc as (_ & _ & _ & tip & Hl & Hidx & _ & Hadj).
  assert (sound (blockchain self ++ [sealed new_block r])) as Hs'.
  { apply (sound_snoc _ tip); [exact Hs | exact Hl | exact Hidx |]. simpl.
    rewrite (adjust_difficulty_refines self tip Hs Hl) in Hadj. injection Hadj as <-.
    apply next_difficulty_floor. apply Hs. apply last_Some_elem_of, Hl. }
  destruct (update_balances (transactions new_block) (accounts self) objs)
    as [[accts objs'] [e|]]; rewrite Hm; simpl.
  - split; [exact Hs' | eauto].
  - split; [exact Hs'|]. eexists. split; [reflexivity|]. apply sound_document, Hs'.
Qed.

Lemma consistent_restart (now : Z) (self : KontourCoin) :
  consistent self -> consistent (__init__ now (files self)).
Proof.
  intros [_ (docs & Hf & Hd)].
  unfold __init__, _load_blockchain. cbn [files objects]. rewrite Hf.
  pose proof (sound_load docs [] Hd) as Hl.
  destruct (load_blocks docs []) as [bs objs]. simpl in Hl.
  cbn [blockchain]. destruct bs as [|b bs].
  - destruct Hl as ((b0 & rest & Hnil & _) & _). discriminate.
  - split; [exact Hl|]. cbn [files]. eauto.
Qed.

Lemma consistent_step (self : KontourCoin) (c : call) :
  consistent self -> consistent (step self c).
Proof.
  intros H. destruct c as [choice|now sender recipient amount ty data|clock quantum miner|now];
    simpl.
  - exact H.
  - unfold create_transaction. destruct (_ <? _); exact H.
  - apply consistent_mine, H.
  - apply consistent_restart, H.
Qed.

Lemma consistent_run (calls : list call) (self : KontourCoin) :
  consistent self -> consistent (run calls self).
Proof.
  revert self. induction calls as [|c calls IH]; intros self H; simpl.
  - exact H.
  - apply IH, consistent_step, H.
Qed.

Lemma reachable_consistent (self : KontourCoin) : reachable self -> consistent self.
Proof.
  intros (now & calls & ->). apply consistent_run, consistent_init.
Qed.

(** ** Difficulty *)

(** C8.  In every reachable ledger the difficulty computed for the next
    block is the dead-band policy of the specification applied to the tip
    (unchanged unless the tip's index is a positive multiple of 10; then +1
    when the average of the last 10 blocks is below 30, -1 but at least 1 when
    it is above 90); a mined block carries that difficulty, and no block of
    the chain has a difficulty below 1. *)
Theorem difficulty_follows_dead_band_policy (self : KontourCoin) :
  reachable self ->
  exists tip,
    last (blockchain self) = Some tip
    /\ _adjust_difficulty self tip = inr (next_difficulty (blockchain self) tip)
    /\ 1 <= next_difficulty (blockchain self) tip
    /\ (forall clock quantum miner b,
          snd (mine_block clock quantum miner self) = Mined b ->
          difficulty b = next_difficulty (blockchain self) tip)
    /\ (forall b, b ∈ blockchain self -> 1 <= difficulty b).
Proof.
  intros Hr. apply reachable_consistent in Hr as [Hs _].
  destruct (last (blockchain self)) as [tip|] eqn:Hl.
  2:{ apply last_None in Hl. destruct Hs as ((b0 & rest & H & _) & _). congruence. }
  exists tip. split; [reflexivity|].
  pose proof (adjust_difficulty_refines self tip Hs Hl) as Hadj.
  split; [exact Hadj|]. split; [|split].
  - apply next_difficulty_floor. apply Hs. apply last_Some_elem_of, Hl.
  - intros clock quantum miner b Hm.
    destruct (mine_block clock quantum miner self) as [self' reply] eqn:H.
    simpl in Hm. subst reply.
    destruct (mine_block_mined _ _ _ _ _ _ H)
      as (new_block & objs & r & accts & objs' & Hc & _ & _ & -> & _).
    apply candidate_block_pending in Hc as (_ & _ & _ & tip' & Hl' & _ & _ & Hadj').
    rewrite Hl in Hl'. injection Hl' as <-. rewrite Hadj in Hadj'.
    injection Hadj' as ->. reflexivity.
  - apply Hs.
Qed.

(** After ten blocks mined 20 seconds apart the tip has index 10 and the
    eleventh block is one harder than the genesis block. *)
Example fast_chain_retargets :
  map index (blockchain fast_chain) = [0; 1; 2; 3; 4; 5; 6; 7; 8; 9; 10]
  /\ map difficulty (blockchain fast_chain) = [4; 4; 4; 4; 4; 4; 4; 4; 4; 4; 4]
  /\ option_map (_adjust_difficulty fast_chain) (last (blockchain fast_chain))
     = Some (inr 5).
Proof. evaluate. Qed.

Lemma difficulty_follows_dead_band_policy_witness :
  exists tip,
    last (blockchain fast_chain) = Some tip
    /\ _adjust_difficulty fast_chain tip = inr (next_difficulty (blockchain fast_chain) tip)
    /\ 1 <= next_difficulty (blockchain fast_chain) tip
    /\ (forall clock quantum miner b,
          snd (mine_block clock quantum miner fast_chain) = Mined b ->
          difficulty b = next_difficulty (blockchain fast_chain) tip)
    /\ (forall b, b ∈ blockchain fast_chain -> 1 <= difficulty b).
Proof.
  apply (difficulty_follows_dead_band_policy fast_chain).
  exists 1700000000, (flat_map fast_round [1; 2; 3; 4; 5; 6; 7; 8; 9; 10]). reflexivity.
Defined.

(** ** Block hashes *)

(** C4, as the code has it.  In every reachable ledger the genesis block
    keeps hash integrity: [_calculate_hash] of the stored block (hash field
    removed) is its stored hash.  A mined block stores the nonce and the hash
    the oracle reported; nothing recomputes them. *)
Theorem genesis_hash_recomputes_mined_hash_is_oracles (self : KontourCoin) :
  reachable self ->
  (exists b0 rest,
     blockchain self = b0 :: rest
     /\ index b0 = 0
     /\ _calculate_hash (document (objects self) b0) = hash b0)
  /\ forall clock quantum miner self' b,
       mine_block clock quantum miner self = (self', Mined b) ->
       exists new_block objs r,
         candidate_block clock miner self = inr (new_block, objs)
         /\ quantum (block_data_of objs new_block) (difficulty new_block) = inr (Success r)
         /\ hash b = mr_hash r /\ nonce b = mr_nonce r
         /\ last (blockchain self') = Some b.
Proof.
  intros Hr. apply reachable_consistent in Hr as [((b0 & rest & Hc & Htx & Hh) & Hi & _) _].
  split.
  - exists b0, rest. split; [exact Hc|]. split.
    + apply (Hi 0%nat). rewrite Hc. reflexivity.
    + unfold document. rewrite Htx. exact Hh.
  - intros clock quantum miner self' b Hm.
    destruct (mine_block_mined _ _ _ _ _ _ Hm)
      as (new_block & objs & r & accts & objs' & Hcb & Hq & _ & -> & ->).
    exists new_block, objs, r. simpl. rewrite last_snoc. auto.
Qed.

Lemma genesis_hash_recomputes_mined_hash_is_oracles_witness :
  (exists b0 rest,
     blockchain one_transfer = b0 :: rest
     /\ index b0 = 0
     /\ _calculate_hash (document (objects one_transfer) b0) = hash b0)
  /\ forall clock quantum miner self' b,
       mine_block clock quantum miner one_transfer = (self', Mined b) ->
       exists new_block objs r,
         candidate_block clock miner one_transfer = inr (new_block, objs)
         /\ quantum (block_data_of objs new_block) (difficulty new_block) = inr (Success r)
         /\ hash b = mr_hash r /\ nonce b = mr_nonce r
         /\ last (blockchain self') = Some b.
Proof.
  apply (genesis_hash_recomputes_mined_hash_is_oracles one_transfer).
  exists 1700000000, [CreateTransaction 1700000050 KTR1 KTR2 100 TRANSFER None].
  reflexivity.
Defined.

(** C4 as stated fails on the first mined block: the repository's oracle
    reports the 16-digit simulated hash, which is stored, while
    [_calculate_hash] of the stored block is a SHA-256 digest. *)
Lemma mined_block_hash_is_not_recomputed :
  let after := mine_block noon (repository_oracle (constant_simulator 0)) KTR3 one_transfer in
  exists b,
    snd after = Mined b
    /\ last (blockchain (fst after)) = Some b
    /\ hash b = "0000000000000000"
    /\ String.length (_calculate_hash (document (objects (fst after)) b)) = 64%nat
    /\ _calculate_hash (document (objects (fst after)) b) <> hash b.
Proof.
  cbv zeta. eexists. split; [vm_compute; reflexivity|].
  split; [vm_compute; reflexivity|]. split; [reflexivity|].
  split; [vm_compute; reflexivity|]. vm_compute. discriminate.
Qed.

(** ** The balance loop as a function of the transfers *)

Lemma transfers_cons (objs : list Transaction) (name : nat) (names : list nat) :
  transfers objs (name :: names)
  = match objs !! name with
    | Some t => transfer_of t :: transfers objs names
    | None => transfers objs names
    end.
Proof. unfold transfers, resolve. simpl. destruct (objs !! name); reflexivity. Qed.

Lemma transfers_app (objs : list Transaction) (names names' : list nat) :
  transfers objs (names ++ names') = transfers objs names ++ transfers objs names'.
Proof.
  induction names as [|r rest IH]; [reflexivity|].
  rewrite <- app_comm_cons, !transfers_cons, IH. destruct (objs !! r); reflexivity.
Qed.

Lemma transfers_set_status (objs : list Transaction) (name : nat) (t : Transaction)
    (s : TransactionStatus) (names : list nat) :
  objs !! name = Some t ->
  transfers (<[name := set_status s t]> objs) names = transfers objs names.
Proof.
  intros Ht. induction names as [|r rest IH]; [reflexivity|].
  rewrite !transfers_cons, IH.
  destruct (decide (r = name)) as [->|Hne].
  - rewrite list_lookup_insert_eq by (eapply lookup_lt_Some; exact Ht).
    rewrite Ht. reflexivity.
  - rewrite list_lookup_insert_ne by congruence. reflexivity.
Qed.

Lemma update_balances_settle (names : list nat) (accts : gmap string Z)
    (objs : list Transaction) :
  ((update_balances names accts objs).1.1, (update_balances names accts objs).2)
  = settle (transfers objs names) accts.
Proof.
  revert accts objs. induction names as [|name rest IH]; intros accts objs.
  - reflexivity.
  - rewrite transfers_cons. simpl.
    destruct (objs !! name) as [t|] eqn:Ht; simpl.
    + destruct (String.eqb (tx_sender t) NETWORK).
      * destruct (accts !! tx_recipient t) as [b|]; [|reflexivity].
        rewrite IH, (transfers_set_status _ _ _ _ _ Ht). reflexivity.
      * destruct (accts !! tx_sender t) as [b|]; [|reflexivity].
        destruct (<[tx_sender t:=b - tx_amount t]> accts !! tx_recipient t) as [b'|];
          [|reflexivity].
        rewrite IH, (transfers_set_status _ _ _ _ _ Ht). reflexivity.
    + apply IH.
Qed.

Lemma update_balances_length (names : list nat) (accts : gmap string Z)
    (objs : list Transaction) :
  length (update_balances names accts objs).1.2 = length objs.
Proof.
  revert accts objs. induction names as [|name rest IH]; intros accts objs; simpl.
  - reflexivity.
  - destruct (objs !! name) as [t|]; [|apply IH].
    destruct (String.eqb (tx_sender t) NETWORK).
    + destruct (accts !! tx_recipient t); [|reflexivity].
      rewrite IH. apply length_insert.
    + destruct (accts !! tx_sender t) as [b|]; [|reflexivity].
      destruct (<[tx_sender t:=b - tx_amount t]> accts !! tx_recipient t);
        [|reflexivity].
      rewrite IH. apply length_insert.
Qed.

(** ** The sum of the balances *)

Lemma total_insert (accts : gmap string Z) (key : string) (old new : Z) :
  accts !! key = Some old ->
  total (<[key := new]> accts) = total accts - old + new.
Proof.
  intros Hk. unfold total.
  rewrite <- (insert_delete_eq accts key new).
  rewrite map_fold_insert_L; [|intros; lia | apply lookup_delete_eq].
  rewrite (map_fold_delete_L _ _ key old accts); [lia | intros; lia | exact Hk].
Qed.

Lemma total_insert_fresh (accts : gmap string Z) (key : string) (new : Z) :
  accts !! key = None ->
  total (<[key := new]> accts) = total accts + new.
Proof.
  intros Hk. unfold total. rewrite map_fold_insert_L; [lia | intros; lia | exact Hk].
Qed.

(** A loop that ends without exception moves balances between accounts and
    adds what was issued in the name of NETWORK. *)
Lemma settle_total (l : list (string * string * Z)) (accts accts' : gmap string Z) :
  settle l accts = (accts', None) -> total accts' = total accts + minted l.
Proof.
  revert accts. induction l as [|[[sender recipient] amount] rest IH]; intros accts H;
    simpl in H.
  - injection H as <-. unfold minted. simpl. lia.
  - unfold minted in *. simpl. destruct (String.eqb sender NETWORK) eqn:Hn.
    + destruct (accts !! recipient) as [b|] eqn:Hr; [|discriminate].
      rewrite (IH _ H), (total_insert _ _ _ _ Hr). lia.
    + destruct (accts !! sender) as [b|] eqn:Hs; [|discriminate].
      destruct (<[sender:=b - amount]> accts !! recipient) as [b'|] eqn:Hr; [|discriminate].
      rewrite (IH _ H), (total_insert _ _ _ _ Hr), (total_insert _ _ _ _ Hs). lia.
Qed.

(** ** Conservation *)

Lemma owed_app (who : string) (l l' : list (string * string * Z)) :
  owed who (l ++ l') = owed who l + owed who l'.
Proof.
  induction l as [|[[s r] a] rest IH]; simpl; [lia|].
  destruct (String.eqb s who); lia.
Qed.

Lemma transfers_allocated (objs extra : list Transaction) (names : list nat) :
  (forall name, name ∈ names -> (name < length objs)%nat) ->
  transfers (objs ++ extra) names = transfers objs names.
Proof.
  induction names as [|r rest IH]; intros H; [reflexivity|].
  rewrite !transfers_cons, IH by (intros; apply H; right; assumption).
  rewrite lookup_app_l by (apply H; left). reflexivity.
Qed.

Lemma user_pool_spec (self : KontourCoin) :
  user_pool self = true <->
  forall name, name ∈ pending_transactions self ->
    exists t, objects self !! name = Some t /\ tx_sender t <> NETWORK.
Proof.
  unfold user_pool. rewrite forallb_forall. split.
  - intros H name Hin. apply list_elem_of_In in Hin. specialize (H name Hin).
    destruct (objects self !! name) as [t|]; [|discriminate].
    exists t. split; [reflexivity|]. intros Heq. rewrite Heq in H. discriminate.
  - intros H name Hin. apply list_elem_of_In in Hin.
    destruct (H name Hin) as (t & -> & Hne).
    apply negb_true_iff, String.eqb_neq, Hne.
Qed.

Lemma user_pool_allocated (self : KontourCoin) :
  user_pool self = true -> pool_allocated self.
Proof.
  intros H0 name Hin. pose proof (proj1 (user_pool_spec self) H0) as H.
  destruct (H name Hin) as (t & Ht & _). eapply lookup_lt_Some, Ht.
Qed.

Lemma user_pool_mints_nothing (self : KontourCoin) :
  user_pool self = true ->
  minted (transfers (objects self) (pending_transactions self)) = 0.
Proof.
  intros H0. pose proof (proj1 (user_pool_spec self) H0) as H. clear H0. unfold minted.
  induction (pending_transactions self) as [|r rest IH]; [reflexivity|].
  rewrite transfers_cons.
  destruct (H r) as (t & -> & Hne); [left|].
  simpl. apply String.eqb_neq in Hne. rewrite Hne.
  apply IH. intros name Hin. apply H. right. exact Hin.
Qed.

(** A mined block adds the reward, and nothing else, to the sum of balances
    when the pool holds no transaction in the name of NETWORK. *)
Lemma mined_block_adds_reward (clock : Clock) (quantum : string -> Z -> exn + MiningResult)
    (miner : string) (self self' : KontourCoin) (b : Block) :
  user_pool self = true ->
  mine_block clock quantum miner self = (self', Mined b) ->
  total (accounts self') = total (accounts self) + 50
  /\ pending_transactions self' = [].
Proof.
  intros Hpool Hm.
  destruct (mine_block_mined _ _ _ _ _ _ Hm)
    as (new_block & objs & r & accts & objs' & Hc & _ & Hu & _ & ->).
  split; [|reflexivity]. simpl.
  apply candidate_block_pending in Hc
    as (_ & Htx & (reward & -> & Hs & Hr & Ha) & _).
  pose proof (update_balances_settle (transactions new_block) (accounts self)
                (objects self ++ [reward])) as Hsettle.
  rewrite Hu, Htx, transfers_app in Hsettle. simpl in Hsettle.
  rewrite transfers_allocated in Hsettle by (apply user_pool_allocated, Hpool).
  rewrite transfers_cons, list_lookup_middle in Hsettle by reflexivity.
  symmetry in Hsettle. apply settle_total in Hsettle. rewrite Hsettle.
  unfold minted. rewrite owed_app. fold (minted (transfers (objects self)
                                                   (pending_transactions self))).
  rewrite (user_pool_mints_nothing self Hpool).
  unfold transfer_of. rewrite Hs, Ha. simpl. lia.
Qed.

Lemma create_account_total (choice : nat -> nat) (self : KontourCoin) :
  get_account_balance self (snd (create_account choice self)) = 0 ->
  total (accounts (fst (create_account choice self))) = total (accounts self).
Proof.
  unfold create_account, get_account_balance. simpl.
  set (address := "KTR" +:+ _). intros Hb.
  destruct (accounts self !! address) as [b|] eqn:Hk; simpl in Hb.
  - rewrite (total_insert _ _ _ _ Hk). lia.
  - rewrite (total_insert_fresh _ _ _ Hk). lia.
Qed.

Lemma create_transaction_user_pool now sender recipient amount ty data
    (self : KontourCoin) :
  String.eqb sender NETWORK = false -> user_pool self = true ->
  user_pool (fst (create_transaction now sender recipient amount ty data self)) = true
  /\ accounts (fst (create_transaction now sender recipient amount ty data self))
     = accounts self.
Proof.
  intros Hs Hp. unfold create_transaction.
  destruct (get_account_balance self sender <? amount); [auto|]. simpl.
  split; [|reflexivity]. apply (proj2 (user_pool_spec _)). simpl.
  pose proof (proj1 (user_pool_spec self) Hp) as Hp'. intros name Hin.
  apply elem_of_app in Hin as [Hin|Hin].
  - destruct (Hp' name Hin) as (t & Ht & Hne). exists t. split; [|exact Hne].
    rewrite lookup_app_l by (eapply lookup_lt_Some, Ht). exact Ht.
  - apply list_elem_of_singleton in Hin as ->. eexists. split.
    + apply list_lookup_middle. reflexivity.
    + simpl. apply String.eqb_neq, Hs.
Qed.

Lemma mining_error_changes_nothing (clock : Clock)
    (quantum : string -> Z -> exn + MiningResult) (miner : string)
    (self self' : KontourCoin) (error : string) (details : option MiningResult) :
  mine_block clock quantum miner self = (self', MiningError error details) ->
  self' = self.
Proof.
  intros H.
  destruct (mine_block_cases clock quantum miner self)
    as [[Hsame _]|(new_block & objs & r & Hc & Hq)].
  - rewrite H in Hsame. exact Hsame.
  - pose proof (mine_block_success clock quantum miner self new_block objs r Hc Hq) as Hs.
    destruct (update_balances (transactions new_block) (accounts self) objs)
      as [[accts objs'] [e|]]; rewrite Hs in H; discriminate.
Qed.

(** C5, as the code has it, on int amounts.  Over a run in which every
    mining call returns, accounts are created at addresses without funds and
    neither the pool at the start nor any submission names NETWORK as sender,
    the sum of all balances grows by exactly 50 per mined block: submissions,
    account creations and refused mining calls leave it unchanged.  (On floats
    the sum is not kept: [float_transfers_do_not_conserve].) *)
Theorem balances_grow_by_reward_per_mined_block (self self' : KontourCoin) (n : nat) :
  user_pool self = true ->
  mines self n self' ->
  total (accounts self') = total (accounts self) + 50 * Z.of_nat n.
Proof.
  intros Hpool Hrun. induction Hrun as
    [self
    |self choice n self' Hfree _ IH
    |self now sender recipient amount ty data n self' Hs _ IH
    |self clock quantum miner self1 b n self' Hm _ IH
    |self clock quantum miner self1 error details n self' Hm _ IH].
  - lia.
  - rewrite IH by exact Hpool. rewrite (create_account_total _ _ Hfree). lia.
  - destruct (create_transaction_user_pool now sender recipient amount ty data self Hs Hpool)
      as [Hp' Ha]. rewrite (IH Hp'), Ha. lia.
  - destruct (mined_block_adds_reward _ _ _ _ _ _ Hpool Hm) as [Ht Hp].
    rewrite IH; [lia|]. unfold user_pool. rewrite Hp. reflexivity.
  - apply mining_error_changes_nothing in Hm as ->. apply IH, Hpool.
Qed.

Lemma balances_grow_by_reward_per_mined_block_witness :
  total (accounts one_block) = total (accounts genesis) + 50 * Z.of_nat 1.
Proof.
  apply (balances_grow_by_reward_per_mined_block genesis one_block 1).
  - vm_compute. reflexivity.
  - eapply (mines_submit genesis 1700000050 KTR1 KTR2 100 TRANSFER None);
      [vm_compute; reflexivity|].
    eapply (mines_mined _ noon (repository_oracle (constant_simulator 0)) KTR3);
      [vm_compute; reflexivity|].
    apply mines_done.
Defined.

(** C5 as stated fails: a transfer of -100 in the name of NETWORK is admitted
    (the balance 0 of NETWORK is not below -100) and mined without a debit,
    so one mined block changes the sum by 50 - 100. *)
Lemma network_sender_breaks_conservation :
  let submitted := create_transaction 1700000050 NETWORK KTR2 (-100) TRANSFER None genesis in
  let after := mine_block noon (repository_oracle (constant_simulator 0)) KTR3 (fst submitted) in
  snd submitted = Value 0%nat
  /\ (exists b, snd after = Mined b)
  /\ total (accounts genesis) = 1750000
  /\ total (accounts (fst after)) = 1749950
  /\ total (accounts (fst after)) <> total (accounts genesis) + 50.
Proof.
  cbv zeta. split; [vm_compute; reflexivity|].
  split; [eexists; vm_compute; reflexivity|].
  split; [vm_compute; reflexivity|]. split; [vm_compute; reflexivity|].
  vm_compute. discriminate.
Qed.

(** On floats the sum of the balances is not kept.  Three transfers of 0.3 between the
    int balances of genesis and the reward of 50: the balance loop returns, and
    the values of the balances afterwards sum to less than 1750050. *)
Lemma float_transfers_do_not_conserve :
  let before := Numbers.Int <$> accounts genesis in
  exists after total,
    Numbers.settle three_tenths_thrice before = (after, None)
    /\ exact_total before = Some 1750000%Q
    /\ exact_total after = Some total
    /\ (total < 1750050)%Q.
Proof.
  cbv zeta. eexists _, _. split; [vm_compute; reflexivity|].
  split; [vm_compute; reflexivity|]. split; [vm_compute; reflexivity|].
  reflexivity.
Qed.

(** ** The whole pool is mined *)

Lemma update_balances_only_status (names : list nat) (accts : gmap string Z)
    (objs : list Transaction) (name : nat) (t : Transaction) :
  objs !! name = Some t ->
  exists s, (update_balances names accts objs).1.2 !! name = Some (set_status s t).
Proof.
  revert accts objs t. induction names as [|n rest IH]; intros accts objs t Ht; simpl.
  - exists (tx_status t). rewrite Ht. destruct t. reflexivity.
  - assert (exists s, objs !! name = Some (set_status s t)) as Hkeep
      by (exists (tx_status t); rewrite Ht; destruct t; reflexivity).
    destruct (objs !! n) as [t0|] eqn:Ht0; [|eauto].
    assert (forall accts1, exists s,
              (update_balances rest accts1 (<[n:=set_status CONFIRMED t0]> objs)).1.2
                !! name = Some (set_status s t)) as Hstep.
    { intros accts1. destruct (decide (name = n)) as [->|Hne].
      - rewrite Ht in Ht0. injection Ht0 as <-.
        destruct (IH accts1 (<[n:=set_status CONFIRMED t]> objs) (set_status CONFIRMED t))
          as [s Hs].
        + apply list_lookup_insert_eq. eapply lookup_lt_Some, Ht.
        + exists s. rewrite Hs. destruct t. reflexivity.
      - apply IH. rewrite list_lookup_insert_ne by congruence. exact Ht. }
    destruct (String.eqb (tx_sender t0) NETWORK).
    + destruct (accts !! tx_recipient t0); [apply Hstep | simpl; exact Hkeep].
    + destruct (accts !! tx_sender t0) as [b|]; [|simpl; exact Hkeep].
      destruct (<[tx_sender t0:=b - tx_amount t0]> accts !! tx_recipient t0);
        [apply Hstep | simpl; exact Hkeep].
Qed.


Lemma arithmetic_raises (on_ints : Z -> Z -> Z)
    (on_floats : PrimFloat.float -> PrimFloat.float -> PrimFloat.float)
    (a b : Numbers.number) (e : Numbers.error) :
  Numbers.arithmetic on_ints on_floats a b = inl e -> e = Numbers.OverflowError.
Proof.
  unfold Numbers.arithmetic.
  destruct a, b; try discriminate; destruct (Numbers.float_of_int _); try discriminate;
    intros [= <-]; reflexivity.
Qed.

(** On numbers too the balance loop never fails on a balance: when every
    address it indexes has an account, all it can raise is OverflowError, for
    an int balance too large to be added to a float. *)
Lemma settle_known_on_numbers (l : list (string * string * Numbers.number))
    (accts : gmap string Numbers.number) :
  forallb (fun '(sender, recipient, _) =>
             (String.eqb sender NETWORK || known accts sender) && known accts recipient) l
  = true ->
  match (Numbers.settle l accts).2 with
  | Some (Numbers.Ledger _) => False
  | _ => True
  end.
Proof.
  assert (forall (m : gmap string Numbers.number) k v a, known m k = true ->
            known (<[k:=v]> m) a = known m a) as Hins.
  { intros m k v a Hk. unfold known in *. rewrite lookup_insert. case_decide; [|reflexivity].
    subst. destruct (m !! a); [reflexivity | discriminate]. }
  revert accts. induction l as [|[[s r] a] rest IH]; intros accts H; [exact I|].
  simpl in H. apply andb_true_iff in H as [H Hrest].
  apply andb_true_iff in H as [Hs Hr]. cbn [Numbers.settle].
  assert (forall accts1, (forall x, known accts1 x = known accts x) ->
            match
              (match accts1 !! r with
               | None => (accts1, Some (Numbers.Ledger (KeyError r)))
               | Some b =>
                   match Numbers.plus b a with
                   | inr b' => Numbers.settle rest (<[r:=b']> accts1)
                   | inl e => (accts1, Some e)
                   end
               end).2
            with
            | Some (Numbers.Ledger _) => False
            | _ => True
            end) as Hcredit.
  { intros accts1 Hsame. pose proof (Hsame r) as Hr1. rewrite Hr in Hr1.
    unfold known in Hr1. destruct (accts1 !! r) as [b|] eqn:Hb; [|discriminate].
    destruct (Numbers.plus b a) as [e|b'] eqn:Hp.
    - apply arithmetic_raises in Hp as ->. exact I.
    - apply IH. apply forallb_forall. intros [[s' r'] a'] Hin.
      pose proof (proj1 (forallb_forall _ _) Hrest _ Hin) as Hx. simpl in Hx.
      rewrite !Hins by (unfold known; rewrite Hb; reflexivity).
      rewrite !Hsame. exact Hx. }
  destruct (String.eqb s NETWORK) eqn:Hn.
  - apply Hcredit. reflexivity.
  - simpl in Hs. unfold known in Hs. destruct (accts !! s) as [b|] eqn:Hb; [|discriminate].
    destruct (Numbers.minus b a) as [e|b'] eqn:Hm.
    + apply arithmetic_raises in Hm as ->. exact I.
    + apply Hcredit. intros x. apply Hins. unfold known. rewrite Hb. reflexivity.
Qed.




(** ** Non-negative balances *)

Lemma nonnegative_insert (accts : gmap string Z) (key : string) (v : Z) :
  nonnegative accts -> 0 <= v -> nonnegative (<[key := v]> accts).
Proof.
  intros Hn Hv address balance. rewrite lookup_insert. case_decide.
  - intros [= <-]. exact Hv.
  - apply Hn.
Qed.

Lemma owed_nonnegative (who : string) (l : list (string * string * Z)) :
  Forall (fun '(_, _, amount) => 0 <= amount) l -> 0 <= owed who l.
Proof.
  induction 1 as [|[[s r] a] rest Ha _ IH]; simpl; [lia|].
  destruct (String.eqb s who); lia.
Qed.

(** The loop keeps balances non-negative when no amount is negative and every
    sender other than NETWORK holds what the transfers take from it. *)
Lemma settle_nonnegative (l : list (string * string * Z)) (accts : gmap string Z) :
  nonnegative accts ->
  Forall (fun '(_, _, amount) => 0 <= amount) l ->
  (forall who, who <> NETWORK -> owed who l <= default 0 (accts !! who)) ->
  nonnegative (settle l accts).1.
Proof.
  revert accts. induction l as [|[[s r] a] rest IH]; intros accts Hn Hl Ho; simpl.
  - exact Hn.
  - inversion Hl as [|? ? Ha Hrest]; subst.
    pose proof (fun who => owed_nonnegative who rest Hrest) as Hpos.
    assert (forall accts1,
              nonnegative accts1 ->
              (forall who, who <> NETWORK -> owed who rest <= default 0 (accts1 !! who)) ->
              nonnegative
                (match accts1 !! r with
                 | Some b => settle rest (<[r:=b + a]> accts1)
                 | None => (accts1, Some (KeyError r))
                 end).1) as Hcredit.
    { intros accts1 Hn1 Ho1. destruct (accts1 !! r) as [b|] eqn:Hr; [|exact Hn1].
      pose proof (Hn1 _ _ Hr) as Hb. apply IH; [|exact Hrest|].
      - apply nonnegative_insert; [exact Hn1 | lia].
      - intros who Hw. specialize (Ho1 who Hw). rewrite lookup_insert.
        case_decide; [subst who; rewrite Hr in Ho1; simpl in *; lia | exact Ho1]. }
    destruct (String.eqb s NETWORK) eqn:Hs.
    + apply Hcredit; [exact Hn|]. intros who Hw. specialize (Ho who Hw). simpl in Ho.
      apply String.eqb_eq in Hs. subst s.
      assert (String.eqb NETWORK who = false) as Hf by (apply String.eqb_neq; congruence).
      rewrite Hf in Ho. exact Ho.
    + apply String.eqb_neq in Hs. destruct (accts !! s) as [b|] eqn:Hb; [|exact Hn].
      pose proof (Ho s Hs) as Hos. simpl in Hos. rewrite String.eqb_refl, Hb in Hos.
      simpl in Hos. pose proof (Hpos s).
      apply Hcredit.
      * apply nonnegative_insert; [exact Hn | lia].
      * intros who Hw. rewrite lookup_insert. case_decide.
        -- subst who. simpl. lia.
        -- specialize (Ho who Hw). simpl in Ho.
           assert (String.eqb s who = false) as Hf by (apply String.eqb_neq; congruence).
           rewrite Hf in Ho. exact Ho.
Qed.

Lemma covered_spec (self : KontourCoin) :
  covered self = true -> nonnegative (accounts self) ->
  let pool := transfers (objects self) (pending_transactions self) in
  Forall (fun '(_, _, amount) => 0 <= amount) pool
  /\ forall who, who <> NETWORK -> owed who pool <= default 0 (accounts self !! who).
Proof.
  unfold covered. intros Hc Hn. cbv zeta.
  set (pool := transfers (objects self) (pending_transactions self)) in *.
  rewrite forallb_forall in Hc. split.
  - apply Forall_forall. intros [[s r] a] Hin. apply list_elem_of_In in Hin.
    specialize (Hc _ Hin). simpl in Hc. apply andb_true_iff in Hc as [Ha _]. lia.
  - intros who Hw.
    assert (forall l, (forall x, In x l -> In x pool) ->
                      owed who l = 0 \/ owed who pool <= default 0 (accounts self !! who)) as H.
    { induction l as [|[[s r] a] rest IH]; intros Hsub; [left; reflexivity|].
      simpl. destruct (String.eqb s who) eqn:Hs.
      - right. apply String.eqb_eq in Hs. subst s.
        specialize (Hc _ (Hsub _ (or_introl eq_refl))). simpl in Hc.
        apply andb_true_iff in Hc as [_ Hc]. apply orb_true_iff in Hc as [Hc|Hc].
        + apply String.eqb_eq in Hc. congruence.
        + unfold get_account_balance in Hc. lia.
      - apply IH. intros x Hx. apply Hsub. right. exact Hx. }
    destruct (H pool (fun x Hx => Hx)) as [H0|H0]; [|exact H0].
    rewrite H0. destruct (accounts self !! who) as [b|] eqn:Hb; simpl; [|lia].
    exact (Hn _ _ Hb).
Qed.

(** Mining a pool that can be paid keeps every balance non-negative, whether
    the call returns or raises. *)
Lemma mine_block_nonnegative (clock : Clock) (quantum : string -> Z -> exn + MiningResult)
    (miner : string) (self : KontourCoin) :
  pool_allocated self -> nonnegative (accounts self) -> covered self = true ->
  nonnegative (accounts (fst (mine_block clock quantum miner self))).
Proof.
  intros Halloc Hn Hc.
  destruct (mine_block_cases clock quantum miner self)
    as [[-> _]|(new_block & objs & r & Hcb & Hq)]; [exact Hn|].
  pose proof (mine_block_success clock quantum miner self new_block objs r Hcb Hq) as Hm.
  apply candidate_block_pending in Hcb
    as (_ & Htx & (reward & -> & Hs & Hr & Ha) & _).
  pose proof (update_balances_settle (transactions new_block) (accounts self)
                (objects self ++ [reward])) as Hsettle.
  assert (nonnegative (update_balances (transactions new_block) (accounts self)
                         (objects self ++ [reward])).1.1) as Hafter.
  { change (nonnegative ((update_balances (transactions new_block) (accounts self)
                         (objects self ++ [reward])).1.1,
                         (update_balances (transactions new_block) (accounts self)
                         (objects self ++ [reward])).2).1).
    rewrite Hsettle, Htx, transfers_app, transfers_allocated by exact Halloc.
    rewrite transfers_cons, list_lookup_middle by reflexivity.
    destruct (covered_spec self Hc Hn) as [Hamounts Howed].
    apply settle_nonnegative; [exact Hn| |].
    - apply Forall_app. split; [exact Hamounts|].
      constructor; [|constructor]. unfold transfer_of. rewrite Ha. lia.
    - intros who Hw. rewrite owed_app. unfold transfer_of. simpl. rewrite Hs.
      assert (String.eqb NETWORK who = false) as Hf by (apply String.eqb_neq; congruence).
      rewrite Hf. specialize (Howed who Hw). lia. }
  destruct (update_balances (transactions new_block) (accounts self)
              (objects self ++ [reward])) as [[accts objs'] [e|]];
    rewrite Hm; exact Hafter.
Qed.

Lemma pool_allocated_step (self : KontourCoin) (c : call) :
  pool_allocated self -> pool_allocated (step self c).
Proof.
  intros H. destruct c as [choice|now sender recipient amount ty data|clock quantum miner|now];
    simpl.
  - exact H.
  - unfold create_transaction. destruct (_ <? _); [exact H|].
    intros name Hin. simpl in *. rewrite length_app. simpl.
    apply elem_of_app in Hin as [Hin|Hin].
    + specialize (H name Hin). lia.
    + apply list_elem_of_singleton in Hin as ->. lia.
  - destruct (mine_block_cases clock quantum miner self)
      as [[-> _]|(new_block & objs & r & Hcb & Hq)]; [exact H|].
    pose proof (mine_block_success clock quantum miner self new_block objs r Hcb Hq) as Hm.
    apply candidate_block_pending in Hcb as (_ & _ & (reward & -> & _) & _).
    pose proof (update_balances_length (transactions new_block) (accounts self)
                  (objects self ++ [reward])) as Hlen.
    destruct (update_balances (transactions new_block) (accounts self)
                (objects self ++ [reward])) as [[accts objs'] [e|]]; rewrite Hm.
    + intros name Hin. simpl in *. rewrite Hlen, length_app. specialize (H name Hin). lia.
    + intros name Hin. simpl in Hin. apply elem_of_nil in Hin. destruct Hin.
  - unfold __init__, _load_blockchain. cbn [files objects].
    destruct (blockchain_json (files self)) as [docs|].
    + destruct (load_blocks docs []) as [bs objs]. cbn [blockchain].
      destruct bs; intros name Hin; simpl in Hin; apply elem_of_nil in Hin; destruct Hin.
    + intros name Hin. simpl in Hin. apply elem_of_nil in Hin. destruct Hin.
Qed.

Lemma solvent_reachable (self : KontourCoin) : solvent self -> reachable self.
Proof.
  induction 1 as [now|self c _ (now & calls & ->) _].
  - exists now, []. reflexivity.
  - exists now, (calls ++ [c]). unfold run. rewrite fold_left_app. reflexivity.
Qed.

Lemma solvent_pool_allocated (self : KontourCoin) : solvent self -> pool_allocated self.
Proof.
  induction 1 as [now|self c _ IH _].
  - intros name Hin. simpl in Hin. apply elem_of_nil in Hin. destruct Hin.
  - apply pool_allocated_step, IH.
Qed.

Lemma initial_accounts_nonnegative (now : Z) :
  nonnegative (accounts (__init__ now no_files)).
Proof.
  intros address balance. unfold __init__, _load_blockchain.
  cbn [files blockchain_json no_files blockchain].
  unfold _create_genesis_block, _create_initial_accounts, _save_accounts, _save_blockchain,
    set_accounts, set_files, append_block.
  cbn [accounts fold_left fst snd].
  rewrite !lookup_insert. repeat case_decide; intros [= <-]; lia.
Qed.

(** C3, as the code has it, on int amounts.  Starting from genesis, account
    creation and submission never make a balance negative, and mining keeps
    every balance at 0 or above provided the pool it mines can be paid: no
    pending amount is negative and each sender's pending amounts sum to at most
    its balance.  (Nothing in the code enforces that proviso, and on floats it
    is not enough: [float_debits_leave_negative_balance].) *)
Theorem balances_nonnegative_while_pool_is_covered (self : KontourCoin) :
  solvent self ->
  forall address balance, accounts self !! address = Some balance -> 0 <= balance.
Proof.
  induction 1 as [now|self c Hs IH Hc].
  - apply initial_accounts_nonnegative.
  - destruct c as [choice|now sender recipient amount ty data|clock quantum miner|now];
      simpl.
    + apply nonnegative_insert; [exact IH | lia].
    + unfold create_transaction. destruct (_ <? _); exact IH.
    + apply mine_block_nonnegative;
        [apply solvent_pool_allocated, Hs | exact IH | apply Hc; reflexivity].
    + pose proof (reachable_consistent _ (solvent_reachable _ Hs))
        as [_ (docs & Hf & ((d & rest & -> & _) & _))].
      destruct (restart_reads_chain_only now (files self) d rest Hf) as [-> _].
      intros address balance. rewrite lookup_empty. discriminate.
Qed.

Lemma balances_nonnegative_while_pool_is_covered_witness :
  solvent one_block
  /\ accounts one_block !! KTR1 = Some 999900
  /\ 0 <= 999900.
Proof.
  assert (solvent one_block) as Hs.
  { apply (solvent_call one_transfer
             (MineBlock noon (repository_oracle (constant_simulator 0)) KTR3)).
    - apply (solvent_call genesis
               (CreateTransaction 1700000050 KTR1 KTR2 100 TRANSFER None)).
      + apply solvent_start.
      + intros H. discriminate H.
    - intros _. vm_compute. reflexivity. }
  split; [exact Hs|]. split; [vm_compute; reflexivity|].
  apply (balances_nonnegative_while_pool_is_covered one_block Hs KTR1 999900).
  vm_compute. reflexivity.
Defined.

(** C3 as stated fails: both transfers of 600000 are admitted against the
    balance 1000000 of KTR1 (nothing is reserved at submission), the pool
    cannot be paid, and once it is mined KTR1 holds -200000. *)
Lemma double_spend_leaves_negative_balance :
  reachable overdrawn
  /\ covered (run two_transfers genesis) = false
  /\ accounts overdrawn !! KTR1 = Some (-200000).
Proof.
  split; [|split].
  - exists 1700000000,
      (two_transfers ++ [MineBlock noon (repository_oracle (constant_simulator 0)) KTR3]).
    reflexivity.
  - vm_compute. reflexivity.
  - vm_compute. reflexivity.
Qed.

(** On floats a pool that can be paid is not enough.  Four transfers of 0.2, 1.1,
    0.3 and 1.1 from an account of 2.7: each is admitted at submission, their
    sum (as Python adds them) is 2.7, and the four subtractions of the balance
    loop leave the sender at minus 2 to the power -52. *)
Lemma float_debits_leave_negative_balance :
  let balance := Numbers.Float Numbers.twenty_seven_tenths in
  Forall (fun t => Numbers.lt balance t.2 = false /\ Numbers.le (Numbers.Int 0) t.2 = true)
         fractional_transfers
  /\ (exists a b,
        Numbers.plus (Numbers.Float Numbers.two_tenths) (Numbers.Float Numbers.eleven_tenths)
        = inr a
        /\ Numbers.plus a (Numbers.Float Numbers.three_tenths) = inr b
        /\ Numbers.plus b (Numbers.Float Numbers.eleven_tenths) = inr balance)
  /\ exists after,
       Numbers.settle fractional_transfers fractional_accounts = (after, None)
       /\ after !! KTR1 = Some (Numbers.Float Numbers.minus_epsilon)
       /\ Numbers.lt (Numbers.Float Numbers.minus_epsilon) (Numbers.Int 0) = true.
Proof.
  cbv zeta. split; [|split].
  - repeat constructor.
  - eexists _, _. split; [vm_compute; reflexivity|]. split; vm_compute; reflexivity.
  - eexists. split; [vm_compute; reflexivity|]. split; vm_compute; reflexivity.
Qed.

(** ** Names and allocation *)

Lemma load_blocks_allocated (docs : list BlockDoc) (objs : list Transaction) :
  (length objs <= length (load_blocks docs objs).2)%nat
  /\ blocks_allocated (load_blocks docs objs).1 (load_blocks docs objs).2.
Proof.
  revert objs. induction docs as [|d docs IH]; intros objs; simpl.
  - split; [lia|]. intros b name Hb. apply elem_of_nil in Hb. destruct Hb.
  - specialize (IH (objs ++ transactions d)). rewrite length_app in IH.
    destruct (load_blocks docs (objs ++ transactions d)) as [bs objs']. simpl in *.
    destruct IH as [Hlen Hbs]. split; [lia|].
    intros b name Hb Hn. apply elem_of_cons in Hb as [->|Hb]; [|eauto].
    destruct d. simpl in *. apply elem_of_seq in Hn. lia.
Qed.

Lemma allocated_step (self : KontourCoin) (c : call) :
  allocated self -> allocated (step self c).
Proof.
  intros [Hp Hb]. split; [apply pool_allocated_step, Hp|].
  destruct c as [choice|now sender recipient amount ty data|clock quantum miner|now];
    simpl.
  - exact Hb.
  - unfold create_transaction. destruct (_ <? _); [exact Hb|]. simpl.
    intros b name Hin Hn. rewrite length_app. specialize (Hb b name Hin Hn). lia.
  - destruct (mine_block_cases clock quantum miner self)
      as [[-> _]|(new_block & objs & r & Hcb & Hq)]; [exact Hb|].
    pose proof (mine_block_success clock quantum miner self new_block objs r Hcb Hq) as Hm.
    apply candidate_block_pending in Hcb as (_ & Htx & (reward & -> & _) & _).
    pose proof (update_balances_length (transactions new_block) (accounts self)
                  (objects self ++ [reward])) as Hlen.
    rewrite length_app in Hlen. simpl in Hlen.
    assert (forall objs', length objs' = (length (objects self) + 1)%nat ->
              blocks_allocated (blockchain self ++ [sealed new_block r]) objs') as Hnew.
    { intros objs' Hl b name Hin Hn. rewrite Hl.
      apply elem_of_app in Hin as [Hin|Hin].
      - specialize (Hb b name Hin Hn). lia.
      - apply list_elem_of_singleton in Hin as ->. simpl in Hn. rewrite Htx in Hn.
        apply elem_of_app in Hn as [Hn|Hn].
        + specialize (Hp name Hn). lia.
        + apply list_elem_of_singleton in Hn as ->. lia. }
    destruct (update_balances (transactions new_block) (accounts self)
                (objects self ++ [reward])) as [[accts objs'] [e|]];
      rewrite Hm; apply Hnew, Hlen.
  - unfold __init__, _load_blockchain. cbn [files objects].
    destruct (blockchain_json (files self)) as [docs|].
    + pose proof (load_blocks_allocated docs []) as [_ Hl].
      destruct (load_blocks docs []) as [bs objs]. cbn [blockchain].
      destruct bs as [|b bs]; [|exact Hl].
      intros b name Hin Hn. simpl in Hin. apply list_elem_of_singleton in Hin as ->.
      simpl in Hn. apply elem_of_nil in Hn. destruct Hn.
    + intros b name Hin Hn. simpl in Hin. apply list_elem_of_singleton in Hin as ->.
      simpl in Hn. apply elem_of_nil in Hn. destruct Hn.
Qed.

(** In every reachable ledger the names in the pool and in the blocks denote
    allocated transaction dicts: [resolve] drops nothing. *)
Lemma reachable_allocated (self : KontourCoin) : reachable self -> allocated self.
Proof.
  intros (now & calls & ->).
  assert (allocated (__init__ now no_files)) as H0.
  { split.
    - intros name Hin. simpl in Hin. apply elem_of_nil in Hin. destruct Hin.
    - intros b name Hin Hn. simpl in Hin. apply list_elem_of_singleton in Hin as ->.
      simpl in Hn. apply elem_of_nil in Hn. destruct Hn. }
  revert H0. generalize (__init__ now no_files).
  induction calls as [|c calls IH]; intros self H; simpl; [exact H|].
  apply IH, allocated_step, H.
Qed.

(** ** The oracle of the repository *)

(** A result of the search carries the simulated hash of its nonce, and that
    hash passed the oracle's own difficulty test. *)
Lemma search_success_checked (sim : Simulator) (block_data : string)
    (difficulty num_qubits : Z) (iteration remaining : nat) (r : MiningSuccess) :
  search sim block_data difficulty num_qubits iteration remaining = inr (Success r) ->
  mr_hash r = _simulate_hash sim block_data (mr_nonce r) difficulty
  /\ _check_hash_difficulty (mr_hash r) difficulty = inr true.
Proof.
  revert iteration. induction remaining as [|remaining IH]; intros iteration H; simpl in H.
  - discriminate.
  - destruct (_check_hash_difficulty
                (_simulate_hash sim block_data
                   (measured sim iteration mod 2 ^ num_qubits) difficulty) difficulty)
      as [e|[|]] eqn:Hc.
    + discriminate.
    + injection H as <-. simpl. auto.
    + eauto.
Qed.

Lemma string_length_app (s1 s2 : string) :
  String.length (s1 +:+ s2) = (String.length s1 + String.length s2)%nat.
Proof. induction s1 as [|c s1 IH]; simpl; [reflexivity | rewrite IH; reflexivity]. Qed.

Lemma string_of_list_length (l : list ascii) :
  String.length (string_of_list_ascii l) = length l.
Proof. induction l as [|c l IH]; simpl; [reflexivity | rewrite IH; reflexivity]. Qed.

Lemma hex_from_length (fuel : nat) (n : Z) (acc : string) (k : nat) :
  0 <= n < 16 ^ Z.of_nat k -> (1 <= k)%nat ->
  (String.length (hex_from fuel n acc) <= k + String.length acc)%nat.
Proof.
  revert n acc k. induction fuel as [|fuel IH]; intros n acc k Hn Hk; simpl; [lia|].
  destruct (n <? 16) eqn:Hlt; simpl; [lia|].
  apply Z.ltb_ge in Hlt. destruct k as [|k]; [lia|].
  destruct k as [|k]; [simpl in Hn; lia|].
  specialize (IH (n / 16) (String (SHA256.hex_digit (n mod 16)) acc) (S k)).
  simpl String.length in IH. etransitivity; [apply IH; [|lia]|lia].
  replace (Z.of_nat (S (S k))) with (Z.of_nat (S k) + 1) in Hn by lia.
  rewrite Z.pow_add_r, Z.pow_1_r in Hn by lia.
  split; [apply Z.div_pos; lia|]. apply Z.div_lt_upper_bound; lia.
Qed.

(** The simulated hash has exactly 16 characters. *)
Lemma simulate_hash_length (sim : Simulator) (data : string) (nonce difficulty : Z) :
  String.length (_simulate_hash sim data nonce difficulty) = 16%nat.
Proof.
  unfold _simulate_hash, zfill, hex.
  set (n := py_hash sim _ mod 2 ^ 64).
  assert (0 <= n < 16 ^ Z.of_nat 16) as Hn.
  { subst n. change (16 ^ Z.of_nat 16) with (2 ^ 64). apply Z.mod_pos_bound. lia. }
  pose proof (hex_from_length (S (Z.to_nat (Z.log2 n))) n "" 16 Hn ltac:(lia)) as Hlen.
  change (String.length "") with 0%nat in Hlen.
  rewrite string_length_app, string_of_list_length, repeat_length. lia.
Qed.

(** A SHA-256 digest in hexadecimal has 64 characters. *)
Lemma sha256_hex_length (s : string) : String.length (sha256_hex s) = 64%nat.
Proof.
  unfold sha256_hex, SHA256.hexdigest_of.
  rewrite !string_length_app. reflexivity.
Qed.

(** So no block mined with the repository's oracle keeps hash integrity:
    what [mine_block] stores is never what [_calculate_hash] computes. *)
Lemma repository_oracle_breaks_hash_integrity (clock : Clock) (sim : Simulator)
    (miner : string) (self self' : KontourCoin) (b : Block) (objs : list Transaction) :
  mine_block clock (repository_oracle sim) miner self = (self', Mined b) ->
  _calculate_hash (document objs b) <> hash b.
Proof.
  intros Hm.
  destruct (mine_block_mined _ _ _ _ _ _ Hm)
    as (new_block & objs0 & r & accts & objs' & _ & Hq & _ & -> & _).
  unfold repository_oracle, quantum_enhanced_mining in Hq.
  apply search_success_checked in Hq as [Hh _]. simpl. intros Heq.
  pose proof (sha256_hex_length
                (dumps (JDict (del_key "hash"
                   (block_items (document objs (sealed new_block r))))))) as H64.
  unfold _calculate_hash in Heq. rewrite Heq, Hh, simulate_hash_length in H64.
  discriminate.
Qed.

(** The two thresholds on the average, on the integers: with timestamps
    [d] seconds apart over nine intervals, the average is below 30 when
    [d < 270] and above 90 when [d > 810]. *)
Lemma average_thresholds (d : Z) :
  Qltb (inject_Z d / 9) 30 = (d <? 270) /\ Qltb 90 (inject_Z d / 9) = (810 <? d).
Proof.
  unfold Qltb, Qle_bool, Qdiv, Qmult, Qinv, inject_Z. simpl.
  split.
  - destruct (d <? 270) eqn:H; [apply Z.ltb_lt in H | apply Z.ltb_ge in H].
    + apply negb_true_iff, Z.leb_gt. lia.
    + apply negb_false_iff, Z.leb_le. lia.
  - destruct (810 <? d) eqn:H; [apply Z.ltb_lt in H | apply Z.ltb_ge in H].
    + apply negb_true_iff, Z.leb_gt. lia.
    + apply negb_false_iff, Z.leb_le. lia.
Qed.

(** ** Restoring the chain *)

Lemma load_blocks_extends (docs : list BlockDoc) (objs : list Transaction) :
  exists extra, (load_blocks docs objs).2 = objs ++ extra.
Proof.
  revert objs. induction docs as [|d docs IH]; intros objs; simpl.
  - exists []. rewrite app_nil_r. reflexivity.
  - destruct (IH (objs ++ transactions d)) as [extra He].
    destruct (load_blocks docs (objs ++ transactions d)) as [bs objs']. simpl in *.
    exists (transactions d ++ extra). rewrite He, app_assoc. reflexivity.
Qed.

Lemma resolve_fresh (objs txs extra : list Transaction) :
  resolve (objs ++ txs ++ extra) (seq (length objs) (length txs)) = txs.
Proof.
  revert objs. induction txs as [|t txs IH]; intros objs; [reflexivity|].
  simpl. unfold resolve. simpl.
  rewrite (list_lookup_middle objs (txs ++ extra) t (length objs) eq_refl). simpl.
  f_equal. specialize (IH (objs ++ [t])).
  rewrite length_app, <- app_assoc in IH. simpl in IH.
  rewrite Nat.add_1_r in IH. exact IH.
Qed.

(** The chain [json.load] builds denotes the documents it was read from. *)
Lemma load_blocks_documents (docs : list BlockDoc) (objs : list Transaction) :
  map (document (load_blocks docs objs).2) (load_blocks docs objs).1 = docs.
Proof.
  revert objs. induction docs as [|d docs IH]; intros objs; simpl; [reflexivity|].
  specialize (IH (objs ++ transactions d)).
  destruct (load_blocks_extends docs (objs ++ transactions d)) as [extra He].
  destruct (load_blocks docs (objs ++ transactions d)) as [bs objs']. simpl in *.
  rewrite IH. f_equal. subst objs'. unfold document. simpl.
  rewrite <- app_assoc, resolve_fresh. destruct d. reflexivity.
Qed.

(** A restart over a directory that holds a chain restores that chain, and
    only that: the accounts it saved are not read. *)
Lemma restart_restores_saved_chain (now : Z) (self : KontourCoin)
    (d : BlockDoc) (docs : list BlockDoc) :
  blockchain_json (files self) = Some (d :: docs) ->
  let restarted := __init__ now (files self) in
  map (document (objects restarted)) (blockchain restarted) = d :: docs
  /\ accounts restarted = ∅.
Proof.
  intros Hf. cbv zeta. split; [|apply (restart_reads_chain_only now _ d docs Hf)].
  unfold __init__, _load_blockchain. cbn [files objects]. rewrite Hf.
  pose proof (load_blocks_documents (d :: docs) []) as Hd.
  destruct (load_blocks (d :: docs) []) as [bs objs]. cbn [blockchain].
  destruct bs as [|b bs]; [discriminate Hd|]. exact Hd.
Qed.

(** * Further properties of the ledger *)

(** ** The chain *)

Lemma alike_previous_hash {T U : Type} (b : Block_ T) (d : Block_ U) :
  alike b d -> previous_hash d = previous_hash b /\ hash d = hash b.
Proof.
  intros [H _]. destruct b, d. simpl in *. injection H as -> -> -> -> -> -> -> ->. auto.
Qed.

Lemma linked_alike {T U : Type} (c : list (Block_ T)) (c' : list (Block_ U)) :
  Forall2 alike c c' -> linked c -> linked c'.
Proof.
  intros HF Hl i d d' Hd Hd'.
  destruct (Forall2_lookup_r _ _ _ _ _ HF Hd) as (b & Hb & Hal).
  destruct (Forall2_lookup_r _ _ _ _ _ HF Hd') as (b' & Hb' & Hal').
  destruct (alike_previous_hash _ _ Hal) as [_ ->].
  destruct (alike_previous_hash _ _ Hal') as [-> _]. eauto.
Qed.

Lemma linked_document (objs : list Transaction) (c : list Block) :
  linked c -> linked (map (document objs) c).
Proof.
  apply linked_alike. apply Forall2_fmap_r, Forall_Forall2_diag, Forall_forall.
  intros b _. apply alike_with_transactions. intros ->. reflexivity.
Qed.

Lemma linked_singleton {T : Type} (b : Block_ T) : linked [b].
Proof. intros i x x' Hx Hx'. destruct i; discriminate. Qed.

Lemma linked_snoc {T : Type} (c : list (Block_ T)) (tip b : Block_ T) :
  linked c -> last c = Some tip -> previous_hash b = hash tip -> linked (c ++ [b]).
Proof.
  intros Hl Htip Hp i x x' Hx Hx'. rewrite last_lookup in Htip.
  apply lookup_snoc_Some in Hx' as [[Hlt Hx']|[Hi <-]].
  - rewrite lookup_app_l in Hx by lia. eauto.
  - rewrite lookup_app_l in Hx by lia.
    replace (pred (length c)) with i in Htip by lia. congruence.
Qed.

Lemma chained_init (now : Z) (dir : Files) :
  (forall docs, blockchain_json dir = Some docs -> linked docs) ->
  chained (__init__ now dir).
Proof.
  intros Hdir. unfold __init__, _load_blockchain. cbn [files objects].
  destruct (blockchain_json dir) as [docs|] eqn:Hf.
  - pose proof (linked_alike _ _ (load_blocks_alike docs []) (Hdir docs eq_refl)) as Hl.
    destruct (load_blocks docs []) as [bs objs]. cbn [blockchain fst] in *.
    destruct bs as [|b bs].
    + split; [apply linked_singleton|].
      intros docs' [= <-]. apply linked_singleton.
    + split; [exact Hl|]. cbn [files]. intros docs' Hd. rewrite Hf in Hd.
      injection Hd as <-. apply Hdir. reflexivity.
  - cbn [blockchain]. split; [apply linked_singleton|].
    intros docs' [= <-]. apply linked_singleton.
Qed.

Lemma chained_step (self : KontourCoin) (c : call) :
  chained self -> chained (step self c).
Proof.
  intros [Hm Hd].
  destruct c as [choice|now sender recipient amount ty data|clock quantum miner|now];
    simpl.
  - split; assumption.
  - unfold create_transaction. destruct (_ <? _); split; assumption.
  - destruct (mine_block_cases clock quantum miner self)
      as [[-> _]|(new_block & objs & r & Hc & Hq)]; [split; assumption|].
    pose proof (mine_block_success clock quantum miner self new_block objs r Hc Hq) as Hs.
    apply candidate_block_pending in Hc as (_ & _ & _ & tip & Hl & _ & Hp & _).
    assert (linked (blockchain self ++ [sealed new_block r])) as Hm'
      by (apply (linked_snoc _ tip); assumption).
    destruct (update_balances (transactions new_block) (accounts self) objs)
      as [[accts objs'] [e|]]; rewrite Hs; simpl.
    + split; assumption.
    + split; [exact Hm'|]. intros docs [= <-]. apply linked_document, Hm'.
  - apply chained_init, Hd.
Qed.

(** X1.  In every reachable ledger each block after the first carries, as
    its previous hash, the stored hash of the block before it. *)
Theorem reachable_chain_is_linked (self : KontourCoin) :
  reachable self ->
  forall i b b', blockchain self !! i = Some b -> blockchain self !! S i = Some b' ->
    previous_hash b' = hash b.
Proof.
  intros (now & calls & ->).
  assert (chained (__init__ now no_files)) as H0
    by (apply chained_init; intros docs H; discriminate H).
  revert H0. generalize (__init__ now no_files).
  induction calls as [|c calls IH]; intros self H; simpl.
  - apply H.
  - apply IH, chained_step, H.
Qed.

Lemma reachable_chain_is_linked_witness :
  reachable fast_chain
  /\ forall i b b', blockchain fast_chain !! i = Some b ->
       blockchain fast_chain !! S i = Some b' -> previous_hash b' = hash b.
Proof.
  assert (reachable fast_chain) as H
    by (exists 1700000000, (flat_map fast_round [1; 2; 3; 4; 5; 6; 7; 8; 9; 10]);
        reflexivity).
  split; [exact H|]. exact (reachable_chain_is_linked fast_chain H).
Defined.

(** X2.  In every reachable ledger the chain is not empty, its first block
    has index 0 and no transactions, and the block at position [i] has index
    [i]. *)
Theorem reachable_chain_is_indexed (self : KontourCoin) :
  reachable self ->
  (exists b0 rest, blockchain self = b0 :: rest /\ transactions b0 = [])
  /\ forall i b, blockchain self !! i = Some b -> index b = Z.of_nat i.
Proof.
  intros Hr. apply reachable_consistent in Hr as [((b0 & rest & Hc & Htx & _) & Hi & _) _].
  split; [eauto | exact Hi].
Qed.

Lemma reachable_chain_is_indexed_witness :
  reachable fast_chain
  /\ (exists b0 rest, blockchain fast_chain = b0 :: rest /\ transactions b0 = [])
  /\ forall i b, blockchain fast_chain !! i = Some b -> index b = Z.of_nat i.
Proof.
  assert (reachable fast_chain) as H
    by (exists 1700000000, (flat_map fast_round [1; 2; 3; 4; 5; 6; 7; 8; 9; 10]);
        reflexivity).
  split; [exact H|]. exact (reachable_chain_is_indexed fast_chain H).
Defined.



(** ** What a mining call writes *)

Lemma settle_dom (l : list (string * string * Z)) (accts : gmap string Z) :
  dom (settle l accts).1 = dom accts.
Proof.
  revert accts. induction l as [|[[s r] a] rest IH]; intros accts; simpl; [reflexivity|].
  assert (forall (m : gmap string Z) k v b, m !! k = Some b -> dom (<[k:=v]> m) = dom m)
    as Hins.
  { intros m k v b Hk. rewrite dom_insert_L.
    apply subseteq_union_1_L, singleton_subseteq_l.
    apply elem_of_dom. eauto. }
  destruct (String.eqb s NETWORK).
  - destruct (accts !! r) as [b|] eqn:Hr; [|reflexivity].
    rewrite IH. eapply Hins, Hr.
  - destruct (accts !! s) as [b|] eqn:Hs; [|reflexivity].
    destruct (<[s:=b - a]> accts !! r) as [b'|] eqn:Hr; simpl.
    + rewrite IH, (Hins _ _ _ _ Hr). eapply Hins, Hs.
    + eapply Hins, Hs.
Qed.



Lemma mine_block_dom (clock : Clock)
    (quantum : string -> Z -> exn + MiningResult) (miner : string) (self : KontourCoin) :
  dom (accounts (fst (mine_block clock quantum miner self))) = dom (accounts self).
Proof.
  destruct (mine_block_cases clock quantum miner self)
    as [[-> _]|(new_block & objs & r & Hc & Hq)]; [reflexivity|].
  pose proof (mine_block_success clock quantum miner self new_block objs r Hc Hq) as Hs.
  pose proof (update_balances_settle (transactions new_block) (accounts self) objs) as Hu.
  pose proof (settle_dom (transfers objs (transactions new_block)) (accounts self)) as Hd.
  rewrite <- Hu in Hd. simpl in Hd.
  destruct (update_balances (transactions new_block) (accounts self) objs)
    as [[accts objs'] [e|]]; rewrite Hs; exact Hd.
Qed.

(** X5.  A mining call never adds or removes an account, however it ends
    (block, error value or exception): an address has a balance afterwards
    exactly when it had one before. *)
Theorem mine_block_keeps_account_set (clock : Clock)
    (quantum : string -> Z -> exn + MiningResult) (miner : string) (self : KontourCoin)
    (address : string) :
  accounts (fst (mine_block clock quantum miner self)) !! address = None
  <-> accounts self !! address = None.
Proof.
  rewrite <- !not_elem_of_dom, mine_block_dom. reflexivity.
Qed.


Lemma update_balances_confirmed (names : list nat) (accts : gmap string Z)
    (objs : list Transaction) :
  (forall name t, objs !! name = Some t -> tx_status t = CONFIRMED ->
     exists t', (update_balances names accts objs).1.2 !! name = Some t'
                /\ tx_status t' = CONFIRMED)
  /\ ((update_balances names accts objs).2 = None ->
      forall name t, name ∈ names ->
        (update_balances names accts objs).1.2 !! name = Some t ->
        tx_status t = CONFIRMED).
Proof.
  revert accts objs. induction names as [|name rest IH]; intros accts objs.
  { split; [eauto|]. intros _ name t Hin. apply elem_of_nil in Hin. destruct Hin. }
  assert (forall accts1 t0, objs !! name = Some t0 ->
            let res := update_balances rest accts1 (<[name:=set_status CONFIRMED t0]> objs) in
            (forall n t, objs !! n = Some t -> tx_status t = CONFIRMED ->
               exists t', res.1.2 !! n = Some t' /\ tx_status t' = CONFIRMED)
            /\ (res.2 = None -> forall n t, n ∈ name :: rest ->
                  res.1.2 !! n = Some t -> tx_status t = CONFIRMED)) as Hstep.
  { intros accts1 t0 Ht0. cbv zeta.
    destruct (IH accts1 (<[name:=set_status CONFIRMED t0]> objs)) as [IH1 IH2].
    assert (name < length objs)%nat as Hlt by (eapply lookup_lt_Some, Ht0).
    split.
    - intros n t Hn Hst. destruct (decide (n = name)) as [->|Hne].
      + apply (IH1 name (set_status CONFIRMED t0)); [|reflexivity].
        apply list_lookup_insert_eq, Hlt.
      + apply (IH1 n t); [|exact Hst]. rewrite list_lookup_insert_ne by congruence.
        exact Hn.
    - intros Hnone n t Hin Hn. apply elem_of_cons in Hin as [->|Hin]; [|eauto].
      destruct (IH1 name (set_status CONFIRMED t0)) as (t' & Ht' & Hst);
        [apply list_lookup_insert_eq, Hlt | reflexivity|].
      congruence. }
  simpl. destruct (objs !! name) as [t0|] eqn:Ht0.
  - destruct (String.eqb (tx_sender t0) NETWORK).
    + destruct (accts !! tx_recipient t0); [apply (Hstep _ t0 eq_refl)|].
      simpl. split; [eauto | discriminate].
    + destruct (accts !! tx_sender t0) as [b|]; [|simpl; split; [eauto | discriminate]].
      destruct (<[tx_sender t0:=b - tx_amount t0]> accts !! tx_recipient t0);
        [apply (Hstep _ t0 eq_refl)|].
      simpl. split; [eauto | discriminate].
  - destruct (IH accts objs) as [IH1 IH2]. split; [exact IH1|].
    intros Hnone n t Hin Hn. apply elem_of_cons in Hin as [->|Hin]; [|eauto].
    pose proof (update_balances_length rest accts objs) as Hlen.
    apply lookup_lt_Some in Hn. apply lookup_ge_None in Ht0. lia.
Qed.

(** X6.  When a block is mined, every transaction named in it (the pool and
    the reward) has status CONFIRMED in the store afterwards; the pool and the
    block share those dicts. *)
Theorem mined_transactions_are_confirmed (clock : Clock)
    (quantum : string -> Z -> exn + MiningResult) (miner : string)
    (self self' : KontourCoin) (b : Block) :
  mine_block clock quantum miner self = (self', Mined b) ->
  forall t, t ∈ resolve (objects self') (transactions b) -> tx_status t = CONFIRMED.
Proof.
  intros Hm t Hin.
  destruct (mine_block_mined _ _ _ _ _ _ Hm)
    as (new_block & objs & r & accts & objs' & _ & _ & Hu & -> & ->).
  simpl in Hin. unfold resolve in Hin. apply list_elem_of_omap in Hin as (name & Hname & Ht).
  destruct (update_balances_confirmed (transactions new_block) (accounts self) objs)
    as [_ H]. rewrite Hu in H. simpl in H. eapply H; eauto.
Qed.

Lemma mined_transactions_are_confirmed_witness :
  mine_block noon (repository_oracle (constant_simulator 0)) KTR3 (run two_transfers genesis)
  = (overdrawn, Mined overdrawn_block)
  /\ forall t, t ∈ resolve (objects overdrawn) (transactions overdrawn_block) ->
       tx_status t = CONFIRMED.
Proof.
  assert (mine_block noon (repository_oracle (constant_simulator 0)) KTR3
            (run two_transfers genesis) = (overdrawn, Mined overdrawn_block)) as H
    by (vm_compute; reflexivity).
  split; [exact H|].
  exact (mined_transactions_are_confirmed _ _ _ _ _ _ H).
Defined.

(** ** Mining calls that raise *)

Lemma update_balances_store (names : list nat) (accts : gmap string Z)
    (objs : list Transaction) (name : nat) (t : Transaction) :
  objs !! name = Some t ->
  exists t', (update_balances names accts objs).1.2 !! name = Some t'
             /\ transfer_of t' = transfer_of t.
Proof.
  revert accts objs t. induction names as [|n rest IH]; intros accts objs t Ht; simpl.
  - eauto.
  - destruct (objs !! n) as [t0|] eqn:Ht0; [|eauto].
    assert (forall accts1, exists t',
              (update_balances rest accts1 (<[n:=set_status CONFIRMED t0]> objs)).1.2
                !! name = Some t' /\ transfer_of t' = transfer_of t) as Hstep.
    { intros accts1. destruct (decide (name = n)) as [->|Hne].
      - destruct (IH accts1 (<[n:=set_status CONFIRMED t0]> objs) (set_status CONFIRMED t0))
          as (t' & Ht' & Heq).
        + apply list_lookup_insert_eq. eapply lookup_lt_Some, Ht0.
        + exists t'. split; [exact Ht'|]. rewrite Heq.
          rewrite Ht in Ht0. injection Ht0 as <-. reflexivity.
      - apply IH. rewrite list_lookup_insert_ne by congruence. exact Ht. }
    destruct (String.eqb (tx_sender t0) NETWORK).
    + destruct (accts !! tx_recipient t0); [apply Hstep | simpl; eauto].
    + destruct (accts !! tx_sender t0) as [b|]; [|simpl; eauto].
      destruct (<[tx_sender t0:=b - tx_amount t0]> accts !! tx_recipient t0);
        [apply Hstep | simpl; eauto].
Qed.



Lemma mine_block_past_unknown_recipient (clock : Clock)
    (quantum : string -> Z -> exn + MiningResult) (miner : string) (self : KontourCoin)
    (name : nat) (t : Transaction) :
  name ∈ pending_transactions self -> objects self !! name = Some t ->
  accounts self !! tx_recipient t = None ->
  let after := fst (mine_block clock quantum miner self) in
  is_mined (snd (mine_block clock quantum miner self)) = false
  /\ pending_transactions after = pending_transactions self
  /\ files after = files self
  /\ accounts after !! tx_recipient t = None
  /\ exists t', objects after !! name = Some t' /\ transfer_of t' = transfer_of t.
Proof.
  intros Hin Ht Hnone. cbv zeta.
  destruct (mine_block_cases clock quantum miner self)
    as [[Hsame Hno]|(new_block & objs & r & Hc & Hq)].
  - rewrite Hsame. split; [|eauto 10].
    destruct (snd (mine_block clock quantum miner self)) as [b| |] eqn:Hr; try reflexivity.
    exfalso. exact (Hno b eq_refl).
  - pose proof (mine_block_success clock quantum miner self new_block objs r Hc Hq) as Hs.
    apply candidate_block_pending in Hc as (_ & Htx & (reward & -> & _) & _).
    assert ((objects self ++ [reward]) !! name = Some t) as Ht'.
    { rewrite lookup_app_l by (eapply lookup_lt_Some, Ht). exact Ht. }
    destruct (update_balances_unknown_recipient (transactions new_block) (accounts self)
                (objects self ++ [reward]) (tx_recipient t) Hnone) as [e He].
    { exists name, t. rewrite Htx. split; [|auto]. apply elem_of_app. left. exact Hin. }
    pose proof (update_balances_keys (transactions new_block) (accounts self)
                  (objects self ++ [reward]) (tx_recipient t) Hnone) as Hk.
    destruct (update_balances_store (transactions new_block) (accounts self)
                (objects self ++ [reward]) name t Ht') as (t' & Hst & Heq).
    destruct (update_balances (transactions new_block) (accounts self)
                (objects self ++ [reward])) as [[accts objs'] raised].
    simpl in *. subst raised. rewrite Hs. simpl. eauto 10.
Qed.

(** X8.  While some pending transaction credits an address that has no
    account, no mining call returns a block, and the call leaves that
    transaction pending and its recipient without an account: mining alone
    never gets past it. *)
Theorem unknown_recipient_blocks_mining (clock : Clock)
    (quantum : string -> Z -> exn + MiningResult) (miner : string) (self : KontourCoin) :
  credits_unknown self ->
  is_mined (snd (mine_block clock quantum miner self)) = false
  /\ credits_unknown (fst (mine_block clock quantum miner self)).
Proof.
  intros (name & t & Hin & Ht & Hnone).
  destruct (mine_block_past_unknown_recipient clock quantum miner self name t Hin Ht Hnone)
    as (Hm & Hp & _ & Hk & t' & Ht' & Heq).
  split; [exact Hm|]. exists name, t'. rewrite Hp. split; [exact Hin|]. split; [exact Ht'|].
  injection Heq as _ -> _. exact Hk.
Qed.

Lemma unknown_recipient_blocks_mining_witness :
  credits_unknown fee_pending
  /\ is_mined (snd (mine_block noon (repository_oracle (constant_simulator 0)) KTR3
                      fee_pending)) = false
  /\ credits_unknown (fst (mine_block noon (repository_oracle (constant_simulator 0)) KTR3
                             fee_pending)).
Proof.
  assert (credits_unknown fee_pending) as H.
  { exists 0%nat. eexists. split; [|split].
    - vm_compute. left.
    - vm_compute. reflexivity.
    - vm_compute. reflexivity. }
  split; [exact H|].
  exact (unknown_recipient_blocks_mining noon (repository_oracle (constant_simulator 0))
           KTR3 fee_pending H).
Defined.

(** ** Addresses *)

Lemma random_choice_hex (pick : nat) :
  exists c, random_choice "0123456789ABCDEF" pick = String c ""
            /\ In c (list_ascii_of_string "0123456789ABCDEF").
Proof.
  unfold random_choice. change (String.length "0123456789ABCDEF") with 16%nat.
  pose proof (Nat.mod_upper_bound pick 16 ltac:(lia)) as Hlt.
  destruct (pick mod 16)%nat as [|n]; [eexists; split; [reflexivity | simpl; auto 20]|].
  do 15 (destruct n as [|n]; [eexists; split; [reflexivity | simpl; auto 20]|]).
  lia.
Qed.

Lemma join_singletons (parts : list string) :
  Forall (fun p => String.length p = 1%nat) parts ->
  String.length (join "" parts) = length parts.
Proof.
  induction 1 as [|p rest Hp _ IH]; [reflexivity|].
  destruct rest as [|q rest].
  - simpl. exact Hp.
  - change (join "" (p :: q :: rest)) with (p +:+ "" +:+ join "" (q :: rest)).
    rewrite !string_length_app, Hp, IH. reflexivity.
Qed.

Lemma join_characters (parts : list string) (chars : list ascii) :
  Forall2 (fun p c => p = String c "") parts chars ->
  join "" parts = string_of_list_ascii chars.
Proof.
  induction 1 as [|p c rest chars' Hp Hrest IH]; [reflexivity|]. subst p.
  destruct rest as [|q rest']; [inversion Hrest; reflexivity|].
  change (join "" (String c "" :: q :: rest'))
    with (String c "" +:+ "" +:+ join "" (q :: rest')).
  rewrite IH. reflexivity.
Qed.

Lemma hex_characters (picks : list nat) :
  exists chars,
    Forall2 (fun p c => p = String c "")
            (map (random_choice "0123456789ABCDEF") picks) chars
    /\ Forall (fun c => In c (list_ascii_of_string "0123456789ABCDEF")) chars.
Proof.
  induction picks as [|pick picks (chars & H2 & Hall)]; [exists []; split; constructor|].
  destruct (random_choice_hex pick) as (c & Hc & Hin).
  exists (c :: chars). split; constructor; assumption.
Qed.

Lemma create_account_address (choice : nat -> nat) (self : KontourCoin) :
  account_address (snd (create_account choice self)).
Proof.
  unfold create_account. cbn [snd].
  change (seq 0 31) with (0%nat :: 1%nat :: seq 2 29). rewrite !map_cons.
  destruct (random_choice_hex (choice 0%nat)) as (c & Hc & Hin).
  exists c. eexists. split; [|exact Hin].
  change (join "" (?p :: ?q :: ?l)) with (p +:+ "" +:+ join "" (q :: l)).
  rewrite Hc. reflexivity.
Qed.

(** X9.  [create_account] returns ["KTR"] followed by 31 characters, each
    one of ["0123456789ABCDEF"] (34 characters in all); afterwards that address has
    balance 0, whatever it held before, every other balance is unchanged, the
    chain and the pool are untouched and the accounts file holds the accounts
    in memory. *)
Theorem create_account_effect (choice : nat -> nat) (self : KontourCoin) :
  let after := fst (create_account choice self) in
  let address := snd (create_account choice self) in
  account_address address
  /\ (exists chars,
        address = "KTR" +:+ string_of_list_ascii chars
        /\ length chars = 31%nat
        /\ Forall (fun c => In c (list_ascii_of_string "0123456789ABCDEF")) chars)
  /\ String.length address = 34%nat
  /\ accounts after !! address = Some 0
  /\ (forall other, other <> address -> accounts after !! other = accounts self !! other)
  /\ blockchain after = blockchain self
  /\ pending_transactions after = pending_transactions self
  /\ accounts_json (files after) = Some (accounts after).
Proof.
  cbv zeta. unfold create_account. cbn [fst snd].
  set (parts := map (fun i => random_choice "0123456789ABCDEF" (choice i)) (seq 0 31)).
  assert (Forall (fun p => exists c, p = String c ""
                    /\ In c (list_ascii_of_string "0123456789ABCDEF")) parts) as Hparts.
  { subst parts. apply Forall_forall. intros p Hp. apply list_elem_of_In in Hp.
    apply in_map_iff in Hp as (i & <- & _). apply random_choice_hex. }
  split; [|split; [|split; [|split; [|split]]]].
  - apply (create_account_address choice self).
  - destruct (hex_characters (map choice (seq 0 31))) as (chars & H2 & Hall).
    rewrite map_map in H2. fold parts in H2. exists chars.
    split; [rewrite (join_characters parts chars H2); reflexivity|].
    split; [|exact Hall].
    apply Forall2_length in H2. rewrite <- H2. subst parts.
    rewrite length_map, length_seq. reflexivity.
  - rewrite string_length_app, join_singletons.
    + subst parts. rewrite length_map, length_seq. reflexivity.
    + eapply Forall_impl; [exact Hparts|]. intros p (c & -> & _). reflexivity.
  - unfold _save_accounts, set_files, set_accounts. cbn [accounts].
    apply lookup_insert_eq.
  - intros other Hne. unfold _save_accounts, set_files, set_accounts. cbn [accounts].
    apply lookup_insert_ne. intros E. apply Hne. symmetry. exact E.
  - unfold _save_accounts, set_files, set_accounts.
    cbn [accounts blockchain pending_transactions files accounts_json]. auto.
Qed.

Lemma reachable_account_address (self : KontourCoin) (a : string) (b : Z) :
  reachable self -> accounts self !! a = Some b -> account_address a.
Proof.
  intros Hr. revert a b.
  destruct Hr as (now & calls & ->).
  assert (forall now dir a b, accounts (__init__ now dir) !! a = Some b ->
            account_address a) as Hinit.
  { intros now' dir a b. unfold __init__, _load_blockchain. cbn [files objects].
    assert (forall s0 a b,
              accounts s0 = ∅ ->
              accounts (_create_genesis_block now' s0) !! a = Some b ->
              account_address a) as Hgen.
    { intros s0 a0 b0 He. unfold _create_genesis_block, _create_initial_accounts,
        _save_accounts, _save_blockchain, set_accounts, set_files, append_block.
      cbn [accounts fold_left fst snd]. rewrite He, !lookup_insert.
      repeat case_decide; subst; intros [= <-];
        (eexists _, _; split; [reflexivity | simpl; auto 20]). }
    destruct (blockchain_json dir) as [docs|].
    - destruct (load_blocks docs []) as [bs objs]. cbn [blockchain].
      destruct bs; [apply Hgen; reflexivity|]. simpl. rewrite lookup_empty. discriminate.
    - apply Hgen. reflexivity. }
  generalize (Hinit now no_files). generalize (__init__ now no_files).
  induction calls as [|c calls IH]; intros s Hs; simpl; [exact Hs|].
  apply IH.
  destruct c as [choice|now' sender recipient amount ty data|clock quantum miner|now'];
    cbn [step].
  - intros a b. pose proof (create_account_address choice s) as Haddr.
    destruct (decide (a = (create_account choice s).2)) as [->|Hne].
    + intros _. exact Haddr.
    + unfold create_account in *. cbn [fst snd] in *.
      unfold _save_accounts, set_files, set_accounts. cbn [accounts].
      rewrite lookup_insert_ne by (intros E; apply Hne; symmetry; exact E). apply Hs.
  - unfold create_transaction. destruct (_ <? _); exact Hs.
  - intros a b Ha.
    assert (a ∈ dom (accounts (mine_block clock quantum miner s).1)) as Hd
      by (apply elem_of_dom; eauto).
    rewrite mine_block_dom in Hd. apply elem_of_dom in Hd as [b' Hb'].
    eapply Hs, Hb'.
  - apply Hinit.
Qed.

Lemma account_address_is_not_foreign (a : string) :
  account_address a -> foreign a -> False.
Proof.
  intros (c & rest & Heq & Hin) [->|[rest' ->]]; [discriminate Heq|].
  simpl in Heq. injection Heq as <- _. simpl in Hin.
  repeat (destruct Hin as [Hin|Hin]; [discriminate Hin|]). destruct Hin.
Qed.

(** X10.  In every reachable ledger each address with a balance is ["KTR"]
    followed by a character of ["0123456789ABCDEF"]: neither NETWORK nor any
    address beginning with ["KTR_"] (the contract addresses) ever has an
    account. *)
Theorem reachable_accounts_are_addresses (self : KontourCoin) :
  reachable self ->
  (forall a b, accounts self !! a = Some b -> account_address a)
  /\ accounts self !! NETWORK = None
  /\ forall rest, accounts self !! ("KTR_" +:+ rest) = None.
Proof.
  intros Hr.
  assert (forall a b, accounts self !! a = Some b -> account_address a) as Hall
    by (intros a b; apply reachable_account_address, Hr).
  split; [exact Hall|]. split.
  - destruct (accounts self !! NETWORK) as [b|] eqn:Hn; [|reflexivity].
    destruct (Hall _ _ Hn) as (c & rest & Heq & _). discriminate Heq.
  - intros rest. destruct (accounts self !! ("KTR_" +:+ rest)) as [b|] eqn:Hn; [|reflexivity].
    destruct (Hall _ _ Hn) as (c & rest' & Heq & Hin). simpl in Heq.
    injection Heq as <- _. simpl in Hin.
    repeat (destruct Hin as [Hin|Hin]; [discriminate Hin|]). destruct Hin.
Qed.

Lemma reachable_accounts_are_addresses_witness :
  reachable overdrawn
  /\ (forall a b, accounts overdrawn !! a = Some b -> account_address a)
  /\ accounts overdrawn !! NETWORK = None
  /\ forall rest, accounts overdrawn !! ("KTR_" +:+ rest) = None.
Proof.
  assert (reachable overdrawn) as H.
  { exists 1700000000,
      (two_transfers ++ [MineBlock noon (repository_oracle (constant_simulator 0)) KTR3]).
    reflexivity. }
  split; [exact H|]. exact (reachable_accounts_are_addresses overdrawn H).
Defined.

(** ** Restart *)

(** X11.  A fresh instance over the data directory of a reachable ledger
    restores exactly the chain that was last saved and nothing else: it has no
    accounts and an empty pool, and it leaves the files as they are. *)
Theorem restart_restores_chain_only (now : Z) (self : KontourCoin) :
  reachable self ->
  let restarted := __init__ now (files self) in
  blockchain_json (files self)
  = Some (map (document (objects restarted)) (blockchain restarted))
  /\ accounts restarted = ∅
  /\ pending_transactions restarted = []
  /\ files restarted = files self.
Proof.
  intros Hr. cbv zeta.
  apply reachable_consistent in Hr as [_ (docs & Hf & ((d & rest & -> & _) & _))].
  destruct (restart_restores_saved_chain now self d rest Hf) as [Hdocs Hacc].
  destruct (restart_reads_chain_only now (files self) d rest Hf) as [_ Hpool].
  cbv zeta in Hdocs. rewrite Hdocs, Hf. split; [reflexivity|].
  split; [exact Hacc|]. split; [exact Hpool|].
  unfold __init__, _load_blockchain. cbn [files objects]. rewrite Hf.
  destruct (load_blocks (d :: rest) []) as [bs objs] eqn:Hl. cbn [blockchain].
  destruct bs as [|b bs]; [|reflexivity].
  pose proof (load_blocks_alike (d :: rest) []) as Hal. rewrite Hl in Hal.
  inversion Hal.
Qed.

Lemma restart_restores_chain_only_witness :
  reachable one_block
  /\ blockchain_json (files one_block)
     = Some (map (document (objects (__init__ 1700000200 (files one_block))))
               (blockchain (__init__ 1700000200 (files one_block))))
  /\ accounts (__init__ 1700000200 (files one_block)) = ∅
  /\ pending_transactions (__init__ 1700000200 (files one_block)) = []
  /\ files (__init__ 1700000200 (files one_block)) = files one_block.
Proof.
  assert (reachable one_block) as H.
  { exists 1700000000,
      [CreateTransaction 1700000050 KTR1 KTR2 100 TRANSFER None;
       MineBlock noon (repository_oracle (constant_simulator 0)) KTR3].
    reflexivity. }
  split; [exact H|]. exact (restart_restores_chain_only 1700000200 one_block H).
Defined.

(** * Further properties of the oracle *)

(** ** The simulated hash and the difficulty test *)

Lemma hex_value_digit (x : Z) :
  0 <= x < 16 -> hex_value (SHA256.hex_digit x) = Some x.
Proof.
  intros Hx. replace x with (Z.of_nat (Z.to_nat x)) by lia.
  assert (Z.to_nat x < 16)%nat as Hlt by lia.
  destruct (Z.to_nat x) as [|n]; [reflexivity|].
  do 15 (destruct n as [|n]; [reflexivity|]). lia.
Qed.

Lemma string_app_cons (c : ascii) (s t : string) :
  String c s +:+ t = String c (s +:+ t).
Proof. reflexivity. Qed.

Lemma zeros_shift (k : nat) (acc : string) :
  string_of_list_ascii (repeat "0"%char (S k)) +:+ acc
  = string_of_list_ascii (repeat "0"%char k) +:+ String "0" acc.
Proof.
  induction k as [|k IH]; [reflexivity|].
  change (repeat "0"%char (S (S k))) with ("0"%char :: repeat "0"%char (S k)).
  change (string_of_list_ascii ("0"%char :: repeat "0"%char (S k)))
    with (String "0" (string_of_list_ascii (repeat "0"%char (S k)))).
  rewrite string_app_cons, IH. reflexivity.
Qed.

Lemma fixed_hex_zero (k : nat) (acc : string) :
  fixed_hex k 0 acc = string_of_list_ascii (repeat "0"%char k) +:+ acc.
Proof.
  revert acc. induction k as [|k IH]; intros acc; [reflexivity|].
  change (fixed_hex (S k) 0 acc) with (fixed_hex k 0 (String "0" acc)).
  rewrite IH, zeros_shift. reflexivity.
Qed.

Lemma hex_from_fixed (fuel k : nat) (n : Z) (acc : string) :
  0 <= n < 16 ^ Z.of_nat fuel -> n < 16 ^ Z.of_nat k -> (1 <= k)%nat ->
  exists pad,
    (pad + String.length (hex_from fuel n acc) = k + String.length acc)%nat
    /\ string_of_list_ascii (repeat "0"%char pad) +:+ hex_from fuel n acc
       = fixed_hex k n acc.
Proof.
  revert k n acc. induction fuel as [|fuel IH]; intros k n acc Hf Hk Hk1.
  - simpl in Hf. assert (n = 0) as -> by lia. exists k. split; [reflexivity|].
    symmetry. apply fixed_hex_zero.
  - destruct k as [|k]; [lia|].
    change (fixed_hex (S k) n acc)
      with (fixed_hex k (n / 16) (String (SHA256.hex_digit (n mod 16)) acc)).
    simpl hex_from. destruct (n <? 16) eqn:Hlt.
    + apply Z.ltb_lt in Hlt. exists k. split; [simpl; lia|].
      rewrite Z.div_small by lia. symmetry. apply fixed_hex_zero.
    + apply Z.ltb_ge in Hlt.
      assert (forall j : nat, n < 16 ^ Z.of_nat (S j) -> n / 16 < 16 ^ Z.of_nat j) as Hdiv.
      { intros j Hj. replace (Z.of_nat (S j)) with (Z.of_nat j + 1) in Hj by lia.
        rewrite Z.pow_add_r, Z.pow_1_r in Hj by lia.
        apply Z.div_lt_upper_bound; lia. }
      destruct k as [|k]; [simpl in Hk; lia|].
      destruct (IH (S k) (n / 16) (String (SHA256.hex_digit (n mod 16)) acc))
        as (pad & Hlen & Heq).
      * split; [apply Z.div_pos; lia | apply Hdiv; lia].
      * apply Hdiv, Hk.
      * lia.
      * exists pad. split; [simpl in *; lia | exact Heq].
Qed.

Lemma zfill_hex_fixed (n : Z) :
  0 <= n < 2 ^ 64 -> zfill 16 (hex n) = fixed_hex 16 n "".
Proof.
  intros Hn. unfold zfill, hex.
  destruct (hex_from_fixed (S (Z.to_nat (Z.log2 n))) 16 n "") as (pad & Hlen & Heq).
  - split; [lia|]. destruct (Z.eq_dec n 0) as [->|Hne]; [reflexivity|].
    pose proof (Z.log2_spec n ltac:(lia)) as [_ Hup].
    pose proof (Z.log2_nonneg n) as Hlog.
    eapply Z.lt_le_trans; [exact Hup|].
    replace (Z.of_nat (S (Z.to_nat (Z.log2 n)))) with (Z.succ (Z.log2 n)) by lia.
    apply Z.pow_le_mono_l. lia.
  - exact (proj2 Hn).
  - lia.
  - change (String.length "") with 0%nat in Hlen.
    replace (16 - String.length (hex_from (S (Z.to_nat (Z.log2 n))) n ""))%nat
      with pad by lia.
    exact Heq.
Qed.

Lemma int16_fixed_hex_4 (m : Z) :
  0 <= m < 2 ^ 16 -> int16 (fixed_hex 4 m "") = inr m.
Proof.
  intros Hm. unfold fixed_hex, int16, int16_from.
  rewrite !hex_value_digit by (apply Z.mod_pos_bound; lia).
  f_equal. change (2 ^ 16) with 65536 in Hm.
  pose proof (Z.div_mod m 16 ltac:(lia)).
  pose proof (Z.div_mod (m / 16) 16 ltac:(lia)).
  pose proof (Z.div_mod (m / 16 / 16) 16 ltac:(lia)).
  pose proof (Z.div_mod (m / 16 / 16 / 16) 16 ltac:(lia)).
  pose proof (Z.mod_pos_bound m 16 ltac:(lia)).
  pose proof (Z.mod_pos_bound (m / 16) 16 ltac:(lia)).
  pose proof (Z.mod_pos_bound (m / 16 / 16) 16 ltac:(lia)).
  pose proof (Z.mod_pos_bound (m / 16 / 16 / 16) 16 ltac:(lia)).
  assert (m / 16 / 16 / 16 / 16 = 0) as Hzero.
  { rewrite !Z.div_div by lia. apply Z.div_small. lia. }
  lia.
Qed.

Lemma fixed_hex_top_4 (n : Z) :
  prefix 4 (fixed_hex 16 n "") = fixed_hex 4 (n / 2 ^ 48) "".
Proof.
  change 16%nat with (12 + 4)%nat.
  assert (forall b a m acc,
            fixed_hex (b + a) m acc = fixed_hex a (m / 16 ^ Z.of_nat b) (fixed_hex b m acc))
    as Hsplit.
  { induction b as [|b IH]; intros a m acc.
    - simpl. rewrite Z.div_1_r. reflexivity.
    - change (fixed_hex (S b + a) m acc)
        with (fixed_hex (b + a) (m / 16) (String (SHA256.hex_digit (m mod 16)) acc)).
      rewrite IH. rewrite Z.div_div by lia.
      replace (16 * 16 ^ Z.of_nat b) with (16 ^ Z.of_nat (S b)).
      + reflexivity.
      + replace (Z.of_nat (S b)) with (1 + Z.of_nat b) by lia.
        rewrite Z.pow_add_r by lia. reflexivity. }
  rewrite Hsplit. change (16 ^ Z.of_nat 12) with (2 ^ 48).
  generalize (fixed_hex 12 n ""). generalize (n / 2 ^ 48). intros m rest.
  reflexivity.
Qed.

Lemma check_simulated_hash (sim : Simulator) (data : string) (nonce d d' : Z) :
  d' + 1 <> 0 ->
  _check_hash_difficulty (_simulate_hash sim data nonce d) d'
  = inr (py_hash sim (data +:+ str_int nonce) mod 2 ^ 64 / 2 ^ 48 <? 2 ^ 16 / (d' + 1)).
Proof.
  intros Hd. unfold _check_hash_difficulty, _simulate_hash.
  set (n := py_hash sim (data +:+ str_int nonce) mod 2 ^ 64).
  assert (0 <= n < 2 ^ 64) as Hn by (apply Z.mod_pos_bound; lia).
  rewrite zfill_hex_fixed, fixed_hex_top_4 by exact Hn.
  rewrite int16_fixed_hex_4.
  - apply Z.eqb_neq in Hd. rewrite Hd. reflexivity.
  - split; [apply Z.div_pos; lia|].
    apply Z.div_lt_upper_bound; [lia|]. change (2 ^ 48 * 2 ^ 16) with (2 ^ 64). lia.
Qed.

(** X12.  The difficulty test applied to a simulated hash reads the top 16
    bits of the interpreter's hash of [data + str(nonce)], taken modulo 2^64:
    it passes exactly when they are below 65536 // (difficulty + 1).  It
    raises ZeroDivisionError at difficulty -1 and nothing else, so the four
    characters it parses are always hexadecimal digits. *)
Theorem difficulty_test_reads_top_16_bits (sim : Simulator) (data : string)
    (nonce d d' : Z) :
  _check_hash_difficulty (_simulate_hash sim data nonce d) d'
  = if d' =? -1 then inl ZeroDivisionError
    else inr (py_hash sim (data +:+ str_int nonce) mod 2 ^ 64 / 2 ^ 48 <? 2 ^ 16 / (d' + 1)).
Proof.
  destruct (Z.eqb_spec d' (-1)) as [->|Hd].
  - unfold _check_hash_difficulty, _simulate_hash.
    set (n := py_hash sim (data +:+ str_int nonce) mod 2 ^ 64).
    assert (0 <= n < 2 ^ 64) as Hn by (apply Z.mod_pos_bound; lia).
    rewrite zfill_hex_fixed, fixed_hex_top_4 by exact Hn.
    rewrite int16_fixed_hex_4; [reflexivity|].
    split; [apply Z.div_pos; lia|].
    apply Z.div_lt_upper_bound; [lia|]. change (2 ^ 48 * 2 ^ 16) with (2 ^ 64). lia.
  - apply check_simulated_hash. lia.
Qed.

Example difficulty_test_boundary :
  _check_hash_difficulty
    (_simulate_hash (constant_simulator (13107 * 2 ^ 48)) "block" 7 4) 4 = inr false
  /\ _check_hash_difficulty
       (_simulate_hash (constant_simulator (13106 * 2 ^ 48)) "block" 7 4) 4 = inr true.
Proof. split; vm_compute; reflexivity. Qed.

(** X13.  A simulated hash that passes the test at some difficulty passes it
    at every lower difficulty down to 0, and at difficulty 0 every simulated
    hash passes. *)
Theorem difficulty_test_is_monotone (sim : Simulator) (data : string)
    (nonce d easy hard : Z) :
  0 <= easy <= hard ->
  _check_hash_difficulty (_simulate_hash sim data nonce d) 0 = inr true
  /\ (_check_hash_difficulty (_simulate_hash sim data nonce d) hard = inr true ->
      _check_hash_difficulty (_simulate_hash sim data nonce d) easy = inr true).
Proof.
  intros He. rewrite !check_simulated_hash by lia.
  set (top := py_hash sim (data +:+ str_int nonce) mod 2 ^ 64 / 2 ^ 48).
  assert (0 <= top < 2 ^ 16) as Ht.
  { subst top. split; [apply Z.div_pos; [apply Z.mod_pos_bound|]; lia|].
    apply Z.div_lt_upper_bound; [lia|]. change (2 ^ 48 * 2 ^ 16) with (2 ^ 64).
    apply Z.mod_pos_bound. lia. }
  split.
  - f_equal. apply Z.ltb_lt. change (2 ^ 16 / (0 + 1)) with (2 ^ 16). lia.
  - intros [= H]. f_equal. apply Z.ltb_lt in H. apply Z.ltb_lt.
    eapply Z.lt_le_trans; [exact H|].
    apply Z.div_le_compat_l; lia.
Qed.

Lemma difficulty_test_is_monotone_witness :
  0 <= 2 <= 4
  /\ _check_hash_difficulty (_simulate_hash (constant_simulator 0) "block" 7 4) 0 = inr true
  /\ (_check_hash_difficulty (_simulate_hash (constant_simulator 0) "block" 7 4) 4 = inr true ->
      _check_hash_difficulty (_simulate_hash (constant_simulator 0) "block" 7 4) 2 = inr true).
Proof.
  split; [lia|].
  apply (difficulty_test_is_monotone (constant_simulator 0) "block" 7 4 2 4). lia.
Defined.

(** ** The nonce search *)

Lemma attempt_returns (sim : Simulator) (block_data : string) (difficulty : Z) (i : nat) :
  difficulty + 1 <> 0 -> exists passed, attempt sim block_data difficulty i = inr passed.
Proof.
  intros Hd. unfold attempt. rewrite check_simulated_hash by exact Hd. eauto.
Qed.

Lemma search_first_success (sim : Simulator) (block_data : string) (difficulty : Z)
    (remaining iteration : nat) :
  difficulty + 1 <> 0 ->
  match search sim block_data difficulty (Z.min (difficulty + 4) 20) iteration remaining with
  | inl _ => False
  | inr (Failure t) =>
      t = elapsed_time sim
      /\ forall i, (iteration <= i < iteration + remaining)%nat ->
           attempt sim block_data difficulty i = inr false
  | inr (Success r) =>
      exists i, (iteration <= i < iteration + remaining)%nat
        /\ mr_iterations r = Z.of_nat i + 1
        /\ mr_nonce r = measured sim i mod 2 ^ Z.min (difficulty + 4) 20
        /\ mr_hash r = _simulate_hash sim block_data (mr_nonce r) difficulty
        /\ mr_circuit_width r = Z.min (difficulty + 4) 20
        /\ attempt sim block_data difficulty i = inr true
        /\ forall j, (iteration <= j < i)%nat ->
             attempt sim block_data difficulty j = inr false
  end.
Proof.
  intros Hd. revert iteration. induction remaining as [|remaining IH]; intros iteration.
  - simpl. split; [reflexivity|]. intros i Hi. lia.
  - simpl. fold (attempt sim block_data difficulty iteration).
    destruct (attempt_returns sim block_data difficulty iteration Hd) as [passed Hp].
    rewrite Hp. destruct passed.
    + exists iteration. cbn [mr_iterations mr_nonce mr_hash mr_circuit_width].
      split; [lia|]. split; [reflexivity|]. split; [reflexivity|].
      split; [reflexivity|]. split; [reflexivity|]. split; [exact Hp|].
      intros j Hj. lia.
    + specialize (IH (S iteration)).
      destruct (search sim block_data difficulty (Z.min (difficulty + 4) 20)
                  (S iteration) remaining) as [e|[r|t]].
      * exact IH.
      * destruct IH as (i & Hi & H1 & H2 & H3 & H4 & H5 & H6).
        exists i. split; [lia|]. split; [exact H1|]. split; [exact H2|].
        split; [exact H3|]. split; [exact H4|]. split; [exact H5|].
        intros j Hj. destruct (decide (j = iteration)) as [->|Hne]; [exact Hp|].
        apply H6. lia.
      * destruct IH as [Ht IH]. split; [exact Ht|]. intros i Hi.
        destruct (decide (i = iteration)) as [->|Hne]; [exact Hp|]. apply IH. lia.
Qed.

(** X14.  For a difficulty from -3 to 2047 other than -1 (the circuit then
    has a qubit, the divisor of the difficulty test is not 0 and the classical
    time is within the floats) the nonce search never raises.  It reports
    success at the first iteration whose simulated hash passes the difficulty
    test, with that iteration's measured value (reduced to the circuit width
    min(difficulty + 4, 20)) as nonce, its simulated hash as hash, and an
    iteration count between 1 and [max_iterations]; it reports failure exactly
    when none of the [max_iterations] iterations passes, in particular always
    when [max_iterations <= 0]. *)
Theorem quantum_enhanced_mining_finds_first_passing_nonce (sim : Simulator)
    (block_data : string) (difficulty max_iterations : Z) :
  -4 < difficulty < 2048 ->
  difficulty + 1 <> 0 ->
  match quantum_enhanced_mining sim block_data difficulty max_iterations with
  | inl _ => False
  | inr (Failure _) =>
      forall i, (i < Z.to_nat max_iterations)%nat ->
        attempt sim block_data difficulty i = inr false
  | inr (Success r) =>
      1 <= mr_iterations r <= max_iterations
      /\ mr_nonce r
         = measured sim (Z.to_nat (mr_iterations r - 1)) mod 2 ^ Z.min (difficulty + 4) 20
      /\ mr_hash r = _simulate_hash sim block_data (mr_nonce r) difficulty
      /\ _check_hash_difficulty (mr_hash r) difficulty = inr true
      /\ mr_circuit_width r = Z.min (difficulty + 4) 20
      /\ forall j, (j < Z.to_nat (mr_iterations r - 1))%nat ->
           attempt sim block_data difficulty j = inr false
  end.
Proof.
  intros _ Hd. unfold quantum_enhanced_mining.
  pose proof (search_first_success sim block_data difficulty
                (Z.to_nat max_iterations) 0 Hd) as H.
  destruct (search sim block_data difficulty (Z.min (difficulty + 4) 20) 0
              (Z.to_nat max_iterations)) as [e|[r|t]].
  - exact H.
  - destruct H as (i & Hi & H1 & H2 & H3 & H4 & H5 & H6).
    replace (Z.to_nat (mr_iterations r - 1)) with i by lia.
    split; [lia|]. split; [exact H2|]. split; [exact H3|]. split.
    + unfold attempt in H5. rewrite H3, H2. exact H5.
    + split; [exact H4|]. intros j Hj. apply H6. lia.
  - destruct H as [_ H]. intros i Hi. apply H. lia.
Qed.

Lemma quantum_enhanced_mining_finds_first_passing_nonce_witness :
  -4 < 4 < 2048
  /\ 4 + 1 <> 0
  /\ quantum_enhanced_mining (constant_simulator 0) "block" 4 100
     = inr (Success {| mr_nonce := 5; mr_hash := "0000000000000000"; mr_iterations := 1;
                       mr_time := "0.5"; mr_quantum_speedup := "2.0";
                       mr_circuit_depth := 12; mr_circuit_width := 8 |})
  /\ quantum_enhanced_mining (constant_simulator (-1)) "block" 4 100 = inr (Failure "0.5")
  /\ forall i, (i < Z.to_nat 100)%nat ->
       attempt (constant_simulator (-1)) "block" 4 i = inr false.
Proof.
  split; [lia|]. split; [lia|]. split; [vm_compute; reflexivity|].
  assert (quantum_enhanced_mining (constant_simulator (-1)) "block" 4 100
          = inr (Failure "0.5")) as H by (vm_compute; reflexivity).
  split; [exact H|].
  pose proof (quantum_enhanced_mining_finds_first_passing_nonce
                (constant_simulator (-1)) "block" 4 100 ltac:(lia) ltac:(lia)) as Hspec.
  rewrite H in Hspec. exact Hspec.
Defined.

(** X15.  A block mined with the repository's oracle stores a hash of exactly
    16 characters, whereas [_calculate_hash] always yields 64: the stored hash
    of such a block is never the one [_calculate_hash] computes, whatever the
    store the block is read against. *)
Theorem repository_oracle_hash_is_not_block_hash (clock : Clock) (sim : Simulator)
    (miner : string) (self self' : KontourCoin) (b : Block) :
  mine_block clock (repository_oracle sim) miner self = (self', Mined b) ->
  String.length (hash b) = 16%nat
  /\ forall objs,
       String.length (_calculate_hash (document objs b)) = 64%nat
       /\ _calculate_hash (document objs b) <> hash b.
Proof.
  intros Hm. split.
  - destruct (mine_block_mined _ _ _ _ _ _ Hm)
      as (new_block & objs0 & r & accts & objs' & _ & Hq & _ & -> & _).
    unfold repository_oracle, quantum_enhanced_mining in Hq.
    apply search_success_checked in Hq as [Hh _]. cbn [hash sealed].
    rewrite Hh. apply simulate_hash_length.
  - intros objs. split; [apply sha256_hex_length|].
    eapply repository_oracle_breaks_hash_integrity, Hm.
Qed.

Lemma repository_oracle_hash_is_not_block_hash_witness :
  mine_block noon (repository_oracle (constant_simulator 0)) KTR3 (run two_transfers genesis)
  = (overdrawn, Mined overdrawn_block)
  /\ String.length (hash overdrawn_block) = 16%nat
  /\ forall objs,
       String.length (_calculate_hash (document objs overdrawn_block)) = 64%nat
       /\ _calculate_hash (document objs overdrawn_block) <> hash overdrawn_block.
Proof.
  assert (mine_block noon (repository_oracle (constant_simulator 0)) KTR3
            (run two_transfers genesis) = (overdrawn, Mined overdrawn_block)) as H
    by (vm_compute; reflexivity).
  split; [exact H|].
  exact (repository_oracle_hash_is_not_block_hash _ _ _ _ _ _ H).
Defined.

(** ** The operations log *)

(** X16.  Logging an operation puts the new entry last and keeps the log at
    1000 entries at most: a log that is within the bound stays within it, and
    what is kept is the old log followed by the new entry, less at most one
    entry dropped at the front. *)
Theorem log_keeps_last_1000 (now : string) (mode : QuantumKontourMode)
    (details : list (string * json)) (operations_log : list LogEntry) :
  (length operations_log <= 1000)%nat ->
  let entry := {| log_timestamp := now; log_mode := mode; log_details := details |} in
  let log := _log_quantum_operation now mode details operations_log in
  (length log <= 1000)%nat
  /\ last log = Some entry
  /\ exists dropped,
       operations_log ++ [entry] = dropped ++ log /\ (length dropped <= 1)%nat.
Proof.
  intros Hlen. cbv zeta. unfold _log_quantum_operation.
  set (entry := {| log_timestamp := now; log_mode := mode; log_details := details |}).
  rewrite length_app. simpl length.
  destruct (1000 <? length operations_log + 1)%nat eqn:Hc.
  - apply Nat.ltb_lt in Hc. unfold last_n. rewrite length_app. simpl length.
    split; [rewrite length_skipn, length_app; simpl; lia|]. split.
    + rewrite last_lookup, length_skipn, lookup_drop, length_app. simpl length.
      replace (length operations_log + 1 - 1000
               + pred (length operations_log + 1 - (length operations_log + 1 - 1000)))%nat
        with (length operations_log) by lia.
      apply list_lookup_middle. reflexivity.
    + exists (firstn (length operations_log + 1 - 1000) (operations_log ++ [entry])).
      split; [symmetry; apply firstn_skipn|]. rewrite length_take. lia.
  - apply Nat.ltb_ge in Hc. split; [rewrite length_app; simpl; lia|].
    split; [apply last_snoc|]. exists []. simpl. auto.
Qed.

Lemma log_keeps_last_1000_witness :
  (length (@nil LogEntry) <= 1000)%nat
  /\ (length (_log_quantum_operation "2024-01-01 00:00:00" MINING
                [("difficulty", JInt 4)] []) <= 1000)%nat
  /\ last (_log_quantum_operation "2024-01-01 00:00:00" MINING [("difficulty", JInt 4)] [])
     = Some {| log_timestamp := "2024-01-01 00:00:00"; log_mode := MINING;
               log_details := [("difficulty", JInt 4)] |}.
Proof.
  assert (length (@nil LogEntry) <= 1000)%nat as H by (simpl; lia).
  split; [exact H|].
  destruct (log_keeps_last_1000 "2024-01-01 00:00:00" MINING [("difficulty", JInt 4)] [] H)
    as (H1 & H2 & _).
  split; [exact H1 | exact H2].
Defined.

(** * Looking a transaction up *)

Lemma find_hash_found (objs : list Transaction) (names : list nat) (h : string)
    (name : nat) :
  find_hash objs names h = Some name ->
  name ∈ names /\ exists t, objs !! name = Some t /\ tx_hash t = h.
Proof.
  induction names as [|n rest IH]; simpl; [discriminate|].
  destruct (objs !! n) as [t|] eqn:Ht.
  - destruct (String.eqb (tx_hash t) h) eqn:Hh.
    + intros [= <-]. apply String.eqb_eq in Hh. split; [left | eauto].
    + intros H. destruct (IH H) as [Hin Hex]. split; [right; exact Hin | exact Hex].
  - intros H. destruct (IH H) as [Hin Hex]. split; [right; exact Hin | exact Hex].
Qed.

Lemma find_hash_finds (objs : list Transaction) (names : list nat) (name : nat)
    (t : Transaction) :
  name ∈ names -> objs !! name = Some t ->
  exists name', find_hash objs names (tx_hash t) = Some name'.
Proof.
  intros Hin Ht. induction names as [|n rest IH]; [apply elem_of_nil in Hin; destruct Hin|].
  simpl. destruct (objs !! n) as [t0|] eqn:Ht0.
  - destruct (String.eqb (tx_hash t0) (tx_hash t)) eqn:Hh; [eauto|].
    apply elem_of_cons in Hin as [->|Hin]; [|auto].
    rewrite Ht in Ht0. injection Ht0 as <-. rewrite String.eqb_refl in Hh. discriminate.
  - apply elem_of_cons in Hin as [->|Hin]; [congruence | auto].
Qed.

Lemma find_in_chain_found (objs : list Transaction) (chain : list Block) (h : string)
    (name : nat) (i : Z) :
  find_in_chain objs chain h = Some (name, i) ->
  exists b, b ∈ chain /\ index b = i /\ name ∈ transactions b
            /\ exists t, objs !! name = Some t /\ tx_hash t = h.
Proof.
  induction chain as [|b rest IH]; simpl; [discriminate|].
  destruct (find_hash objs (transactions b) h) as [n|] eqn:Hf.
  - intros [= <- <-]. destruct (find_hash_found _ _ _ _ Hf) as [Hin Hex].
    exists b. split; [left|]. auto.
  - intros H. destruct (IH H) as (b' & Hin & Hrest). exists b'. split; [right; exact Hin|].
    exact Hrest.
Qed.

Lemma find_in_chain_app (objs : list Transaction) (chain chain' : list Block) (h : string) :
  find_in_chain objs (chain ++ chain') h
  = match find_in_chain objs chain h with
    | Some hit => Some hit
    | None => find_in_chain objs chain' h
    end.
Proof.
  induction chain as [|b rest IH]; simpl; [reflexivity|].
  destruct (find_hash objs (transactions b) h); [reflexivity | exact IH].
Qed.

Lemma verify_transaction_in_chain (quantum : string -> string -> Verification)
    (h : string) (self : KontourCoin) (name : nat) (i : Z) :
  find_in_chain (objects self) (blockchain self) h = Some (name, i) ->
  exists v, verify_transaction quantum h self = Value v
            /\ found v = name /\ where_found v = InBlock i.
Proof.
  intros Hc. unfold verify_transaction. rewrite Hc.
  destruct (find_in_chain_found _ _ _ _ _ Hc) as (_ & _ & _ & _ & t & Ht & _).
  rewrite Ht. eauto.
Qed.

Lemma verify_transaction_in_pool (quantum : string -> string -> Verification)
    (h : string) (self : KontourCoin) (name : nat) :
  find_in_chain (objects self) (blockchain self) h = None ->
  find_hash (objects self) (pending_transactions self) h = Some name ->
  exists v, verify_transaction quantum h self = Value v
            /\ found v = name /\ where_found v = InPool.
Proof.
  intros Hc Hp. unfold verify_transaction. rewrite Hc, Hp.
  destruct (find_hash_found _ _ _ _ Hp) as (_ & t & Ht & _).
  rewrite Ht. eauto.
Qed.

(** X17.  [verify_transaction] looks in the blocks first, in chain order, and
    in the pool only when no block holds the hash.  It answers
    "Transaction not found" exactly when neither a block nor the pool holds a
    transaction with that hash; otherwise the transaction it reports has the
    hash asked for, lies in the block whose index it reports (or in the pool),
    and the validity it reports is the oracle's verdict. *)
Theorem verify_transaction_finds_by_hash (quantum : string -> string -> Verification)
    (h : string) (self : KontourCoin) :
  match verify_transaction quantum h self with
  | Error msg =>
      msg = "Transaction not found"
      /\ find_in_chain (objects self) (blockchain self) h = None
      /\ find_hash (objects self) (pending_transactions self) h = None
  | Value v =>
      exists t, objects self !! found v = Some t /\ tx_hash t = h
        /\ reported_valid v = is_valid (quantum (verification_data t) h)
        /\ match where_found v with
           | InBlock i =>
               exists b, b ∈ blockchain self /\ index b = i /\ found v ∈ transactions b
           | InPool =>
               found v ∈ pending_transactions self
               /\ find_in_chain (objects self) (blockchain self) h = None
           end
  end.
Proof.
  unfold verify_transaction.
  destruct (find_in_chain (objects self) (blockchain self) h) as [[name i]|] eqn:Hc.
  - destruct (find_in_chain_found _ _ _ _ _ Hc) as (b & Hb & Hi & Hin & t & Ht & Hh).
    rewrite Ht. simpl. exists t. rewrite Hh. eauto 10.
  - destruct (find_hash (objects self) (pending_transactions self) h) as [name|] eqn:Hp.
    + destruct (find_hash_found _ _ _ _ Hp) as (Hin & t & Ht & Hh).
      rewrite Ht. simpl. exists t. rewrite Hh. auto.
    + auto.
Qed.

(** X18.  A transaction in the pool can always be looked up by its hash: the
    answer is never "Transaction not found". *)
Theorem pending_transaction_is_found (quantum : string -> string -> Verification)
    (self : KontourCoin) (name : nat) (t : Transaction) :
  name ∈ pending_transactions self -> objects self !! name = Some t ->
  exists v, verify_transaction quantum (tx_hash t) self = Value v.
Proof.
  intros Hin Ht.
  destruct (find_in_chain (objects self) (blockchain self) (tx_hash t)) as [[n i]|] eqn:Hc.
  - destruct (verify_transaction_in_chain quantum _ _ _ _ Hc) as (v & Hv & _). eauto.
  - destruct (find_hash_finds _ _ _ _ Hin Ht) as [name' Hf].
    destruct (verify_transaction_in_pool quantum _ _ _ Hc Hf) as (v & Hv & _). eauto.
Qed.

Lemma pending_transaction_is_found_witness :
  (0%nat ∈ pending_transactions one_transfer)
  /\ verify_transaction accepting
       "4a93d5f038dd44ebd31b521eb7d4e61745b293ae0414df34c8a274442cffe9d6" one_transfer
     = Value {| found := 0; where_found := InPool;
                verification_result := accepting "" ""; reported_valid := true |}
  /\ exists v, verify_transaction accepting
                 "4a93d5f038dd44ebd31b521eb7d4e61745b293ae0414df34c8a274442cffe9d6"
                 one_transfer = Value v.
Proof.
  assert (0%nat ∈ pending_transactions one_transfer) as Hin by (vm_compute; left).
  split; [exact Hin|]. split; [vm_compute; reflexivity|].
  refine (pending_transaction_is_found accepting one_transfer 0
            {| tx_sender := KTR1; tx_recipient := KTR2; tx_amount := 100;
               tx_timestamp := 1700000050; tx_type := TRANSFER; tx_data := [];
               tx_status := PENDING;
               tx_hash := "4a93d5f038dd44ebd31b521eb7d4e61745b293ae0414df34c8a274442cffe9d6" |}
            Hin _).
  vm_compute. reflexivity.
Defined.

(** X19.  Submission, mining and look-up compose: once a block is mined,
    every transaction that was in the pool is found by its hash in a block
    (no longer as pending), with the hash it was submitted under. *)
Theorem mined_transaction_is_found_in_a_block (clock : Clock)
    (mining : string -> Z -> exn + MiningResult) (miner : string)
    (quantum : string -> string -> Verification)
    (self self' : KontourCoin) (b : Block) (name : nat) (t : Transaction) :
  mine_block clock mining miner self = (self', Mined b) ->
  name ∈ pending_transactions self -> objects self !! name = Some t ->
  exists v i, verify_transaction quantum (tx_hash t) self' = Value v
              /\ where_found v = InBlock i.
Proof.
  intros Hm Hin Ht.
  destruct (mine_block_mined _ _ _ _ _ _ Hm)
    as (new_block & objs & r & accts & objs' & Hc & _ & Hu & Hb & ->).
  apply candidate_block_pending in Hc as (_ & Htx & (reward & -> & _) & _).
  assert ((objects self ++ [reward]) !! name = Some t) as Ht'.
  { rewrite lookup_app_l by (eapply lookup_lt_Some, Ht). exact Ht. }
  destruct (update_balances_only_status (transactions new_block) (accounts self)
              (objects self ++ [reward]) name t Ht') as [s Hs].
  rewrite Hu in Hs. simpl in Hs.
  assert (name ∈ transactions b) as Hnb.
  { rewrite Hb. simpl. rewrite Htx. apply elem_of_app. left. exact Hin. }
  destruct (find_hash_finds objs' (transactions b) name (set_status s t) Hnb Hs)
    as [name' Hf].
  assert (tx_hash (set_status s t) = tx_hash t) as Hh by (destruct t; reflexivity).
  rewrite Hh in Hf.
  set (after := _save_accounts (_save_blockchain
                   {| blockchain := blockchain self ++ [b]; pending_transactions := [];
                      accounts := accts; objects := objs'; files := files self |})).
  destruct (find_in_chain (objects after) (blockchain after) (tx_hash t))
    as [[n i]|] eqn:Hchain.
  - destruct (verify_transaction_in_chain quantum _ _ _ _ Hchain) as (v & Hv & _ & Hw).
    eauto.
  - exfalso. subst after. simpl in Hchain. rewrite find_in_chain_app in Hchain.
    destruct (find_in_chain objs' (blockchain self) (tx_hash t)); [discriminate|].
    simpl in Hchain. rewrite Hf in Hchain. discriminate.
Qed.

Lemma mined_transaction_is_found_in_a_block_witness :
  mine_block noon (repository_oracle (constant_simulator 0)) KTR3 (run two_transfers genesis)
  = (overdrawn, Mined overdrawn_block)
  /\ (1%nat ∈ pending_transactions (run two_transfers genesis))
  /\ objects (run two_transfers genesis) !! 1%nat = Some second_transfer
  /\ exists v i,
       verify_transaction accepting (tx_hash second_transfer) overdrawn = Value v
       /\ where_found v = InBlock i.
Proof.
  assert (mine_block noon (repository_oracle (constant_simulator 0)) KTR3
            (run two_transfers genesis) = (overdrawn, Mined overdrawn_block)) as H
    by (vm_compute; reflexivity).
  assert (1%nat ∈ pending_transactions (run two_transfers genesis)) as Hin
    by (vm_compute; right; left).
  assert (objects (run two_transfers genesis) !! 1%nat = Some second_transfer) as Ht
    by (vm_compute; reflexivity).
  split; [exact H|]. split; [exact Hin|]. split; [exact Ht|].
  exact (mined_transaction_is_found_in_a_block _ _ _ accepting _ _ _ _ _ H Hin Ht).
Defined.

Lemma find_hash_first (objs : list Transaction) (names rest : list nat) (n1 name : nat)
    (t1 : Transaction) :
  objs !! n1 = Some t1 ->
  find_hash objs (names ++ n1 :: rest) (tx_hash t1) = Some name ->
  name ∈ names \/ name = n1.
Proof.
  intros H1. induction names as [|n names IH]; simpl.
  - rewrite H1, String.eqb_refl. intros [= <-]. right. reflexivity.
  - destruct (objs !! n) as [t|].
    + destruct (String.eqb (tx_hash t) (tx_hash t1)).
      * intros [= <-]. left. left.
      * intros H. destruct (IH H) as [Hin| ->]; [left; right; exact Hin | right; reflexivity].
    + intros H. destruct (IH H) as [Hin| ->]; [left; right; exact Hin | right; reflexivity].
Qed.

(** X20.  The hash of a transaction is taken from sender, recipient, amount,
    the second of submission, type and data only.  So two equal submissions
    within one second are two dicts in the pool with one hash, and a look-up
    by that hash never answers with the second of them. *)
Theorem second_equal_submission_is_never_found (quantum : string -> string -> Verification)
    (now : Z) (sender recipient : string) (amount : Z) (ty : TransactionType)
    (data : option (list (string * json))) (self self1 self2 : KontourCoin) (n1 n2 : nat) :
  reachable self ->
  create_transaction now sender recipient amount ty data self = (self1, Value n1) ->
  create_transaction now sender recipient amount ty data self1 = (self2, Value n2) ->
  n1 <> n2
  /\ pending_transactions self2 = pending_transactions self ++ [n1; n2]
  /\ exists t v, objects self2 !! n1 = Some t /\ objects self2 !! n2 = Some t
       /\ verify_transaction quantum (tx_hash t) self2 = Value v
       /\ found v <> n2.
Proof.
  intros Hr H1 H2. destruct (reachable_allocated self Hr) as [Hpool Hblocks].
  unfold create_transaction in H1.
  destruct (get_account_balance self sender <? amount); [discriminate|].
  injection H1 as <- <-.
  unfold create_transaction in H2.
  destruct (get_account_balance _ sender <? amount); [discriminate|].
  cbn [objects pending_transactions blockchain accounts files] in H2.
  injection H2 as <- <-.
  cbn [objects pending_transactions blockchain accounts files].
  set (t := {| tx_sender := sender; tx_recipient := recipient; tx_amount := amount;
               tx_timestamp := now; tx_type := ty;
               tx_data := match data with Some d => d | None => [] end;
               tx_status := PENDING; tx_hash := _ |}).
  rewrite length_app. cbn [length].
  split; [lia|]. split; [rewrite <- app_assoc; reflexivity|].
  set (objs := (objects self ++ [t]) ++ [t]).
  assert (objs !! length (objects self) = Some t) as Ht1.
  { subst objs. rewrite lookup_app_l by (rewrite length_app; simpl; lia).
    rewrite lookup_app_r by lia. rewrite Nat.sub_diag. reflexivity. }
  assert (objs !! (length (objects self) + 1)%nat = Some t) as Ht2.
  { subst objs. rewrite lookup_app_r by (rewrite length_app; simpl; lia).
    rewrite length_app. simpl. rewrite Nat.sub_diag. reflexivity. }
  exists t. 
  set (after := {| blockchain := blockchain self;
                   pending_transactions := (pending_transactions self
                                            ++ [length (objects self)])
                                           ++ [(length (objects self) + 1)%nat];
                   accounts := accounts self; objects := objs; files := files self |}).
  destruct (find_in_chain (objects after) (blockchain after) (tx_hash t))
    as [[n i]|] eqn:Hchain.
  - destruct (verify_transaction_in_chain quantum _ _ _ _ Hchain) as (v & Hv & Hf & _).
    exists v. split; [exact Ht1|]. split; [exact Ht2|]. split; [exact Hv|].
    destruct (find_in_chain_found _ _ _ _ _ Hchain) as (b & Hb & _ & Hn & _).
    pose proof (Hblocks b n Hb Hn). lia.
  - assert (exists name, find_hash (objects after) (pending_transactions after) (tx_hash t)
                         = Some name) as [name Hp].
    { apply (find_hash_finds _ _ (length (objects self))); [|exact Ht1].
      subst after. cbn [pending_transactions]. rewrite !elem_of_app.
      left. right. left. }
    destruct (verify_transaction_in_pool quantum _ _ _ Hchain Hp) as (v & Hv & Hf & _).
    exists v. split; [exact Ht1|]. split; [exact Ht2|]. split; [exact Hv|].
    subst after. cbn [pending_transactions objects] in Hp.
    rewrite <- app_assoc in Hp. 
    destruct (find_hash_first _ _ _ _ _ _ Ht1 Hp) as [Hin|Heq].
    + pose proof (Hpool _ Hin). lia.
    + lia.
Qed.

Lemma second_equal_submission_is_never_found_witness :
  reachable genesis
  /\ create_transaction 1700000050 KTR1 KTR2 100 TRANSFER None genesis
     = (one_transfer, Value 0%nat)
  /\ create_transaction 1700000050 KTR1 KTR2 100 TRANSFER None one_transfer
     = (twice, Value 1%nat)
  /\ 0%nat <> 1%nat
  /\ pending_transactions twice = pending_transactions genesis ++ [0%nat; 1%nat]
  /\ exists t v, objects twice !! 0%nat = Some t /\ objects twice !! 1%nat = Some t
       /\ verify_transaction accepting (tx_hash t) twice = Value v
       /\ found v <> 1%nat.
Proof.
  assert (reachable genesis) as Hr by (exists 1700000000, []; reflexivity).
  assert (create_transaction 1700000050 KTR1 KTR2 100 TRANSFER None genesis
          = (one_transfer, Value 0%nat)) as H1 by (vm_compute; reflexivity).
  assert (create_transaction 1700000050 KTR1 KTR2 100 TRANSFER None one_transfer
          = (twice, Value 1%nat)) as H2 by (vm_compute; reflexivity).
  split; [exact Hr|]. split; [exact H1|]. split; [exact H2|].
  exact (second_equal_submission_is_never_found accepting _ _ _ _ _ _ _ _ _ _ _ Hr H1 H2).
Defined.

(** * Contracts and models *)

Lemma create_transaction_admitted (now : Z) (sender recipient : string) (amount : Z)
    (ty : TransactionType) (data : option (list (string * json)))
    (self self' : KontourCoin) (name : nat) :
  create_transaction now sender recipient amount ty data self = (self', Value name) ->
  (get_account_balance self sender <? amount) = false
  /\ name = length (objects self)
  /\ pending_transactions self' = pending_transactions self ++ [name]
  /\ blockchain self' = blockchain self /\ accounts self' = accounts self
  /\ files self' = files self
  /\ exists t, objects self' = objects self ++ [t]
       /\ tx_sender t = sender /\ tx_recipient t = recipient /\ tx_amount t = amount.
Proof.
  unfold create_transaction.
  destruct (get_account_balance self sender <? amount); [discriminate|].
  intros [= <- <-]. cbn [pending_transactions blockchain accounts files objects].
  conjuncts; try reflexivity. eexists. split; [reflexivity|]. auto.
Qed.

Lemma create_transaction_refused (now : Z) (sender recipient : string) (amount : Z)
    (ty : TransactionType) (data : option (list (string * json)))
    (self self' : KontourCoin) (msg : string) :
  create_transaction now sender recipient amount ty data self = (self', Error msg) ->
  (get_account_balance self sender <? amount) = true /\ self' = self.
Proof.
  unfold create_transaction.
  destruct (get_account_balance self sender <? amount); [|discriminate].
  intros [= <- _]. auto.
Qed.

Lemma reachable_step (self : KontourCoin) (c : call) :
  reachable self -> reachable (step self c).
Proof.
  intros (now & calls & ->). exists now, (calls ++ [c]).
  unfold run. rewrite fold_left_app. reflexivity.
Qed.

Lemma reachable_run (self : KontourCoin) (calls : list call) :
  reachable self -> reachable (run calls self).
Proof.
  revert self. induction calls as [|c calls IH]; intros self Hr; [exact Hr|].
  simpl. apply IH, reachable_step, Hr.
Qed.

Lemma stalled_step (self : KontourCoin) (c : call) :
  reachable self -> stalled self -> is_restart c = false ->
  stalled (step self c)
  /\ blockchain_json (files (step self c)) = blockchain_json (files self).
Proof.
  intros Hr (name & t & Hin & Ht & Hf) Hc.
  destruct c as [choice|now sender recipient amount ty data|clock quantum miner|now];
    cbn [step]; [| | |discriminate Hc].
  - unfold create_account. cbn [fst]. split; [|reflexivity].
    exists name, t. auto.
  - unfold create_transaction. destruct (_ <? _); cbn [fst]; [split; [|reflexivity]|].
    + exists name, t. auto.
    + cbn [files]. split; [|reflexivity]. exists name, t.
      cbn [pending_transactions objects]. split; [apply elem_of_app; left; exact Hin|].
      split; [|exact Hf]. rewrite lookup_app_l by (eapply lookup_lt_Some, Ht). exact Ht.
  - assert (accounts self !! tx_recipient t = None) as Hnone.
    { destruct (accounts self !! tx_recipient t) as [b|] eqn:Hb; [|reflexivity].
      exfalso. eapply account_address_is_not_foreign; [|exact Hf].
      eapply reachable_account_address; eauto. }
    destruct (mine_block_past_unknown_recipient clock quantum miner self name t Hin Ht Hnone)
      as (_ & Hp & Hfiles & _ & t' & Ht' & Heq).
    rewrite Hfiles. split; [|reflexivity].
    exists name, t'. rewrite Hp. split; [exact Hin|]. split; [exact Ht'|].
    injection Heq as _ Hrec _. rewrite Hrec. exact Hf.
Qed.

(** Once stalled, a reachable ledger stays stalled under every call but a
    restart: no mining call returns a block and the chain on disk stays as it
    is. *)
Lemma stalled_never_mines (self : KontourCoin) (calls : list call) (clock : Clock)
    (quantum : string -> Z -> exn + MiningResult) (miner : string) :
  reachable self -> stalled self -> no_restart calls = true ->
  is_mined (snd (mine_block clock quantum miner (run calls self))) = false
  /\ blockchain_json (files (run calls self)) = blockchain_json (files self).
Proof.
  revert self. induction calls as [|c calls IH]; intros self Hr Hs Hn.
  - split; [|reflexivity]. destruct Hs as (name & t & Hin & Ht & Hf).
    assert (accounts self !! tx_recipient t = None) as Hnone.
    { destruct (accounts self !! tx_recipient t) as [b|] eqn:Hb; [|reflexivity].
      exfalso. eapply account_address_is_not_foreign; [|exact Hf].
      eapply reachable_account_address; eauto. }
    apply (mine_block_past_unknown_recipient clock quantum miner self name t Hin Ht Hnone).
  - unfold no_restart in Hn. simpl in Hn. apply andb_true_iff in Hn as [Hc Hn].
    apply negb_true_iff in Hc.
    destruct (stalled_step self c Hr Hs Hc) as [Hs' Hfiles].
    simpl. rewrite <- Hfiles. apply IH; [apply reachable_step, Hr | exact Hs' | exact Hn].
Qed.

Lemma node_reachable_coin (node : Node) : node_reachable node -> reachable (coin node).
Proof.
  intros (now & calls & ->).
  assert (reachable (coin (open_node now no_files None None))) as H0
    by (exists now, []; reflexivity).
  revert H0. generalize (open_node now no_files None None).
  induction calls as [|c calls IH]; intros node Hr; [exact Hr|].
  simpl. apply IH.
  destruct c as [c|time_text created_at now' owner code state
                 |float_succ now' executed_at address caller function args amount
                 |quantum now' created_at owner config data]; cbn [node_step].
  - destruct c as [choice|now' sender recipient amount ty data|clock quantum miner|now'].
    + apply (reachable_step _ (CreateAccount choice)), Hr.
    + apply (reachable_step _ (CreateTransaction now' sender recipient amount ty data)), Hr.
    + apply (reachable_step _ (MineBlock clock quantum miner)), Hr.
    + apply (reachable_step _ (Restart now')), Hr.
  - unfold deploy_smart_contract. cbv zeta. cbn [coin with_contracts].
    match goal with
    | |- context [create_transaction ?n ?s ?r ?a ?ty ?d (coin node)] =>
        pose proof (reachable_step _ (CreateTransaction n s r a ty d) Hr) as Hstep;
        cbn [step] in Hstep;
        destruct (create_transaction n s r a ty d (coin node)) as [ledger transaction]
    end.
    exact Hstep.
  - unfold execute_smart_contract.
    destruct (smart_contracts node !! address) as [contract|]; [|exact Hr].
    destruct (get_account_balance (coin node) caller <? amount); [exact Hr|].
    match goal with
    | |- context [create_transaction ?n ?s ?r ?a ?ty ?d (coin node)] =>
        pose proof (reachable_step _ (CreateTransaction n s r a ty d) Hr) as Hstep;
        cbn [step] in Hstep;
        destruct (create_transaction n s r a ty d (coin node)) as [ledger transaction]
    end.
    cbn [fst] in Hstep. cbv zeta.
    repeat case_match; exact Hstep.
  - unfold train_ai_model. cbv zeta.
    destruct (get_account_balance (coin node) owner <? 10); [exact Hr|].
    match goal with
    | |- context [create_transaction ?n ?s ?r ?a ?ty ?d (coin node)] =>
        pose proof (reachable_step _ (CreateTransaction n s r a ty d) Hr) as Hstep;
        cbn [step] in Hstep;
        destruct (create_transaction n s r a ty d (coin node)) as [ledger transaction]
    end.
    cbn [fst] in Hstep.
    repeat case_match; exact Hstep.
Qed.

Lemma admitted_foreign_credit_stalls (now : Z) (sender recipient : string) (amount : Z)
    (ty : TransactionType) (data : option (list (string * json)))
    (self self' : KontourCoin) (name : nat) (calls : list call) (clock : Clock)
    (quantum : string -> Z -> exn + MiningResult) (miner : string) :
  reachable self ->
  create_transaction now sender recipient amount ty data self = (self', Value name) ->
  foreign recipient -> no_restart calls = true ->
  is_mined (snd (mine_block clock quantum miner (run calls self'))) = false
  /\ blockchain_json (files (run calls self')) = blockchain_json (files self).
Proof.
  intros Hr Hct Hf Hn.
  pose proof (reachable_step self (CreateTransaction now sender recipient amount ty data) Hr)
    as Hr'.
  cbn [step] in Hr'. rewrite Hct in Hr'. cbn [fst] in Hr'.
  destruct (create_transaction_admitted _ _ _ _ _ _ _ _ _ Hct)
    as (_ & -> & Hp & _ & _ & Hfiles & t & Ho & _ & Hrec & _).
  rewrite <- Hfiles. apply stalled_never_mines; [exact Hr' | | exact Hn].
  exists (length (objects self)), t. rewrite Hp, Ho, Hrec.
  split; [apply elem_of_app; right; left|]. split; [|exact Hf].
  apply list_lookup_middle. reflexivity.
Qed.

Lemma node_reachable_contracts (node : Node) (a : string) (c : Contract) :
  node_reachable node -> smart_contracts node !! a = Some c -> foreign a.
Proof.
  intros (now & calls & ->). revert a c.
  assert (forall a c, smart_contracts (open_node now no_files None None) !! a = Some c ->
            foreign a) as H0
    by (intros a c; simpl; rewrite lookup_empty; discriminate).
  revert H0. generalize (open_node now no_files None None).
  induction calls as [|k calls IH]; intros node Hn; [exact Hn|].
  simpl. apply IH.
  destruct k as [k|time_text created_at now' owner code state
                 |float_succ now' executed_at address caller function args amount
                 |quantum now' created_at owner config data]; cbn [node_step].
  - destruct k; try exact Hn.
    intros a c. simpl. rewrite lookup_empty. discriminate.
  - unfold deploy_smart_contract. cbv zeta. cbn [coin with_contracts].
    destruct (create_transaction _ _ _ _ _ _ _) as [ledger transaction].
    cbn [fst _save_smart_contracts with_coin with_contracts smart_contracts].
    intros a c.
    destruct (decide (a = "KTR_SC_" +:+ prefix 24 (sha256_hex (owner +:+ time_text
                                                                +:+ code))))
      as [->|Hne].
    + intros _. right. eexists. reflexivity.
    + rewrite lookup_insert_ne by (intros E; apply Hne; symmetry; exact E). apply Hn.
  - unfold execute_smart_contract.
    destruct (smart_contracts node !! address) as [contract|] eqn:Hc; [|exact Hn].
    destruct (get_account_balance (coin node) caller <? amount); [exact Hn|].
    destruct (create_transaction _ _ _ _ _ _ _) as [ledger transaction]. cbv zeta.
    assert (forall state history a c,
              <[address := updated state history contract]> (smart_contracts node) !! a
              = Some c -> foreign a) as Hins.
    { intros state history a c. destruct (decide (a = address)) as [->|Hne].
      - intros _. eapply Hn, Hc.
      - rewrite lookup_insert_ne by (intros E; apply Hne; symmetry; exact E). apply Hn. }
    repeat case_match; cbn [fst _save_smart_contracts with_contracts with_coin
                              smart_contracts]; apply Hins.
  - unfold train_ai_model. cbv zeta.
    destruct (get_account_balance (coin node) owner <? 10); [exact Hn|].
    destruct (create_transaction _ _ _ _ _ _ _) as [ledger transaction].
    repeat case_match; exact Hn.
Qed.

Lemma prefix_length (n : nat) (s : string) :
  (n <= String.length s)%nat -> String.length (prefix n s) = n.
Proof.
  revert s. induction n as [|n IH]; intros s Hn; [reflexivity|].
  destruct s as [|c s]; simpl in *; [lia|]. rewrite IH by lia. reflexivity.
Qed.

(** X21.  [deploy_smart_contract] puts the contract in the table and in the
    contracts file under ["KTR_SC_"] followed by 24 characters (the first 24
    of the SHA-256 digest of owner, time and code; 31 characters in all),
    whether or not the deployment transaction is admitted.  The transaction is refused
    exactly when the owner's balance is negative, and then the ledger is
    unchanged; an owner without an account is admitted.  An admitted
    deployment queues one transaction of amount 0 to the contract address. *)
Theorem deploy_smart_contract_effect (time_text : string) (created_at now : Z)
    (owner_address contract_code : string) (initial_state : gmap string json)
    (node : Node) :
  let result :=
    deploy_smart_contract time_text created_at now owner_address contract_code
      initial_state node in
  let after := fst result in
  let contract := fst (snd result) in
  (exists digits,
     sc_address contract = "KTR_SC_" +:+ digits
     /\ String.length digits = 24%nat
     /\ digits = prefix 24 (sha256_hex (owner_address +:+ time_text +:+ contract_code)))
  /\ String.length (sc_address contract) = 31%nat
  /\ foreign (sc_address contract)
  /\ smart_contracts after = <[sc_address contract := contract]> (smart_contracts node)
  /\ smart_contracts_json after = Some (smart_contracts after)
  /\ match snd (snd result) with
     | Error msg =>
         msg = "Insufficient balance"
         /\ get_account_balance (coin node) owner_address < 0
         /\ coin after = coin node
     | Value name =>
         0 <= get_account_balance (coin node) owner_address
         /\ pending_transactions (coin after) = pending_transactions (coin node) ++ [name]
         /\ exists t, objects (coin after) !! name = Some t
              /\ tx_sender t = owner_address
              /\ tx_recipient t = sc_address contract
              /\ tx_amount t = 0 /\ tx_type t = SMART_CONTRACT
     end.
Proof.
  cbv zeta. unfold deploy_smart_contract. cbv zeta. cbn [coin with_contracts].
  set (address := "KTR_SC_" +:+ prefix 24 (sha256_hex (owner_address +:+ time_text
                                                        +:+ contract_code))).
  assert (String.length address = 31%nat) as Hlen.
  { subst address. rewrite string_length_app, prefix_length; [reflexivity|].
    rewrite sha256_hex_length. lia. }
  assert (foreign address) as Hforeign by (right; eexists; reflexivity).
  assert (exists digits,
            address = "KTR_SC_" +:+ digits /\ String.length digits = 24%nat
            /\ digits = prefix 24 (sha256_hex (owner_address +:+ time_text
                                                +:+ contract_code))) as Hdigits.
  { eexists. split; [reflexivity|]. split; [|reflexivity].
    apply prefix_length. rewrite sha256_hex_length. lia. }
  unfold create_transaction.
  destruct (get_account_balance (coin node) owner_address <? 0) eqn:Hb;
    cbn [fst snd sc_address _save_smart_contracts with_coin with_contracts
         smart_contracts smart_contracts_json coin pending_transactions objects].
  - split; [exact Hdigits|].
    split; [exact Hlen|]. split; [exact Hforeign|]. split; [reflexivity|].
    split; [reflexivity|]. split; [reflexivity|]. split; [|reflexivity].
    apply Z.ltb_lt, Hb.
  - split; [exact Hdigits|].
    split; [exact Hlen|]. split; [exact Hforeign|]. split; [reflexivity|].
    split; [reflexivity|]. split; [apply Z.ltb_ge, Hb|]. split; [reflexivity|].
    eexists. split; [apply list_lookup_middle; reflexivity|]. auto.
Qed.

(** X22.  In an instance started on an empty data directory, an admitted
    contract deployment stalls the ledger: its transaction credits the
    contract address, which never has an account, so whatever is called
    afterwards short of a restart, no mining call returns a block and the chain
    on disk stays as it was. *)
Theorem deployment_stalls_mining (time_text : string) (created_at now : Z)
    (owner_address contract_code : string) (initial_state : gmap string json)
    (node after : Node) (contract : Contract) (name : nat)
    (calls : list call) (clock : Clock) (quantum : string -> Z -> exn + MiningResult)
    (miner : string) :
  node_reachable node ->
  deploy_smart_contract time_text created_at now owner_address contract_code
    initial_state node = (after, (contract, Value name)) ->
  no_restart calls = true ->
  is_mined (snd (mine_block clock quantum miner (run calls (coin after)))) = false
  /\ blockchain_json (files (run calls (coin after)))
     = blockchain_json (files (coin node)).
Proof.
  intros Hr Hd Hn. apply node_reachable_coin in Hr.
  unfold deploy_smart_contract in Hd. cbv zeta in Hd. cbn [coin with_contracts] in Hd.
  destruct (create_transaction _ _ _ _ _ _ _) as [ledger transaction] eqn:Hct.
  injection Hd as <- _ ->. cbn [coin _save_smart_contracts with_coin].
  eapply admitted_foreign_credit_stalls; [exact Hr | exact Hct | | exact Hn].
  right. eexists. reflexivity.
Qed.

Lemma deployment_stalls_mining_witness :
  node_reachable first_node
  /\ deploy_smart_contract "1700000010.5" 1700000010 1700000010 KTR1 "contract Token {}"
       {["supply" := JInt 1000]} first_node
     = (fst deployment, (fst (snd deployment), Value 0%nat))
  /\ no_restart [CreateTransaction 1700000050 KTR1 KTR2 100 TRANSFER None] = true
  /\ is_mined (snd (mine_block noon (repository_oracle (constant_simulator 0)) KTR3
                      (run [CreateTransaction 1700000050 KTR1 KTR2 100 TRANSFER None]
                           (coin (fst deployment))))) = false
  /\ blockchain_json
       (files (run [CreateTransaction 1700000050 KTR1 KTR2 100 TRANSFER None]
                   (coin (fst deployment))))
     = blockchain_json (files (coin first_node)).
Proof.
  assert (node_reachable first_node) as Hr by (exists 1700000000, []; reflexivity).
  assert (deploy_smart_contract "1700000010.5" 1700000010 1700000010 KTR1
            "contract Token {}" {["supply" := JInt 1000]} first_node
          = (fst deployment, (fst (snd deployment), Value 0%nat))) as Hd
    by (vm_compute; reflexivity).
  split; [exact Hr|]. split; [exact Hd|]. split; [reflexivity|].
  exact (deployment_stalls_mining _ _ _ _ _ _ _ _ _ _
           [CreateTransaction 1700000050 KTR1 KTR2 100 TRANSFER None] noon
           (repository_oracle (constant_simulator 0)) KTR3 Hr Hd eq_refl).
Defined.

(** X23.  In an instance started on an empty data directory, every contract
    execution that gets past its two checks stalls the ledger, even one that
    then raises: its transaction credits the contract address, which never
    has an account, so whatever is called afterwards short of a restart, no
    mining call returns a block and the chain on disk stays as it was. *)
Theorem execution_stalls_mining (float_succ : string -> string) (now executed_at : Z)
    (contract_address caller_address function : string) (args : list (string * json))
    (amount : Z) (node after : Node) (reply : executed)
    (calls : list call) (clock : Clock) (quantum : string -> Z -> exn + MiningResult)
    (miner : string) :
  node_reachable node ->
  execute_smart_contract float_succ now executed_at contract_address caller_address
    function args amount node = (after, reply) ->
  refused_execution reply = false ->
  no_restart calls = true ->
  is_mined (snd (mine_block clock quantum miner (run calls (coin after)))) = false
  /\ blockchain_json (files (run calls (coin after)))
     = blockchain_json (files (coin node)).
Proof.
  intros Hr He Hrefused Hn.
  unfold execute_smart_contract in He.
  destruct (smart_contracts node !! contract_address) as [contract|] eqn:Hc;
    [|injection He as _ <-; discriminate Hrefused].
  pose proof (node_reachable_contracts node _ _ Hr Hc) as Hf.
  apply node_reachable_coin in Hr.
  destruct (get_account_balance (coin node) caller_address <? amount) eqn:Hb;
    [injection He as _ <-; discriminate Hrefused|].
  destruct (create_transaction _ _ _ _ _ _ _) as [ledger [name|msg]] eqn:Hct.
  - assert (coin after = ledger) as ->.
    { cbv zeta in He. repeat case_match; injection He as <- _; reflexivity. }
    eapply admitted_foreign_credit_stalls; [exact Hr | exact Hct | exact Hf | exact Hn].
  - apply create_transaction_refused in Hct as [Hlt _]. congruence.
Qed.

Lemma execution_stalls_mining_witness :
  node_reachable (fst deployment)
  /\ execute_smart_contract one_more 1700000030 1700000030
       (sc_address (fst (snd deployment))) KTR2 "mint" [("to", JStr KTR3)] 5
       (fst deployment) = (fst execution, snd execution)
  /\ refused_execution (snd execution) = false
  /\ no_restart [CreateAccount (fun i => i)] = true
  /\ is_mined (snd (mine_block noon (repository_oracle (constant_simulator 0)) KTR3
                      (run [CreateAccount (fun i => i)] (coin (fst execution))))) = false
  /\ blockchain_json (files (run [CreateAccount (fun i => i)] (coin (fst execution))))
     = blockchain_json (files (coin (fst deployment))).
Proof.
  assert (node_reachable (fst deployment)) as Hr.
  { exists 1700000000,
      [Deploy "1700000010.5" 1700000010 1700000010 KTR1 "contract Token {}"
         {["supply" := JInt 1000]}].
    reflexivity. }
  assert (execute_smart_contract one_more 1700000030 1700000030
            (sc_address (fst (snd deployment))) KTR2 "mint" [("to", JStr KTR3)] 5
            (fst deployment) = (fst execution, snd execution)) as He
    by (unfold execution; apply surjective_pairing).
  assert (refused_execution (snd execution) = false) as Hx by (vm_compute; reflexivity).
  split; [exact Hr|]. split; [exact He|]. split; [exact Hx|]. split; [reflexivity|].
  exact (execution_stalls_mining _ _ _ _ _ _ _ _ _ _ _ [CreateAccount (fun i => i)] noon
           (repository_oracle (constant_simulator 0)) KTR3 Hr He Hx eq_refl).
Defined.

(** X24.  In every reachable ledger a training run that passes the balance
    check stalls the ledger, whether the training then succeeds or raises: the
    fee of 10 is queued for NETWORK, which never has an account, so whatever
    is called afterwards short of a restart, no mining call returns a block
    and the chain on disk stays as it was. *)
Theorem training_fee_stalls_mining
    (training_oracle : list json -> list (string * json) -> exn + TrainingResult)
    (now created_at : Z) (owner_address : string) (model_config : list (string * json))
    (training_data : list json) (node after : Node) (reply : trained)
    (calls : list call) (clock : Clock) (quantum : string -> Z -> exn + MiningResult)
    (miner : string) :
  reachable (coin node) ->
  train_ai_model training_oracle now created_at owner_address model_config training_data
    node = (after, reply) ->
  refused_training reply = false ->
  no_restart calls = true ->
  is_mined (snd (mine_block clock quantum miner (run calls (coin after)))) = false
  /\ blockchain_json (files (run calls (coin after)))
     = blockchain_json (files (coin node)).
Proof.
  intros Hr Ht Hrefused Hn.
  unfold train_ai_model in Ht. cbv zeta in Ht.
  destruct (get_account_balance (coin node) owner_address <? 10) eqn:Hb;
    [injection Ht as _ <-; discriminate Hrefused|].
  destruct (create_transaction _ _ _ _ _ _ _) as [ledger [name|msg]] eqn:Hct.
  - assert (coin after = ledger) as ->.
    { repeat case_match; injection Ht as <- _; reflexivity. }
    eapply admitted_foreign_credit_stalls; [exact Hr | exact Hct | | exact Hn].
    left. reflexivity.
  - apply create_transaction_refused in Hct as [Hlt _]. congruence.
Qed.

Lemma training_fee_stalls_mining_witness :
  reachable (coin first_node)
  /\ train_ai_model quick_training 1700000020 1700000021 KTR1 [("epochs", JInt 5)] []
       first_node = (fst training, snd training)
  /\ refused_training (snd training) = false
  /\ no_restart [] = true
  /\ is_mined (snd (mine_block noon (repository_oracle (constant_simulator 0)) KTR3
                      (run [] (coin (fst training))))) = false
  /\ blockchain_json (files (run [] (coin (fst training))))
     = blockchain_json (files (coin first_node)).
Proof.
  assert (reachable (coin first_node)) as Hr by (exists 1700000000, []; reflexivity).
  assert (train_ai_model quick_training 1700000020 1700000021 KTR1 [("epochs", JInt 5)] []
            first_node = (fst training, snd training)) as Ht
    by (unfold training; apply surjective_pairing).
  assert (refused_training (snd training) = false) as Hx by (vm_compute; reflexivity).
  split; [exact Hr|]. split; [exact Ht|]. split; [exact Hx|]. split; [reflexivity|].
  exact (training_fee_stalls_mining _ _ _ _ _ _ _ _ _ [] noon
           (repository_oracle (constant_simulator 0)) KTR3 Hr Ht Hx eq_refl).
Defined.



(** X26.  A fresh instance reads neither the contracts file nor the models
    file: whatever was deployed or trained before, every execution answers
    "Contract not found" and every prediction "Model not found", although both
    files are still as they were.  The next deployment then rewrites the
    contracts file with the one new contract alone. *)
Theorem restart_forgets_contracts_and_models (now : Z) (node : Node) :
  let restarted := node_step node (Ledger (Restart now)) in
  smart_contracts_json restarted = smart_contracts_json node
  /\ ai_models_json restarted = ai_models_json node
  /\ (forall float_succ now' executed_at contract_address caller_address function args
        amount,
        execute_smart_contract float_succ now' executed_at contract_address caller_address
          function args amount restarted
        = (restarted, ExecutionError "Contract not found"))
  /\ (forall (quantum : string -> list json -> json) model input_data,
        predict_with_ai_model quantum model input_data restarted = Error "Model not found")
  /\ forall time_text created_at now' owner_address contract_code initial_state,
       let deployed :=
         deploy_smart_contract time_text created_at now' owner_address contract_code
           initial_state restarted in
       smart_contracts_json (fst deployed)
       = Some {[ sc_address (fst (snd deployed)) := fst (snd deployed) ]}.
Proof.
  cbv zeta. cbn [node_step]. split; [reflexivity|]. split; [reflexivity|].
  split; [|split].
  - intros. unfold execute_smart_contract, open_node. cbn [smart_contracts].
    rewrite lookup_empty. reflexivity.
  - intros. unfold predict_with_ai_model, open_node. cbn [ai_models].
    rewrite lookup_empty. reflexivity.
  - intros. unfold deploy_smart_contract. cbv zeta.
    destruct (create_transaction _ _ _ _ _ _ _) as [ledger transaction].
    cbn [fst snd smart_contracts_json _save_smart_contracts with_coin with_contracts
         smart_contracts open_node sc_address].
    rewrite insert_empty. reflexivity.
Qed.

(** * Rewards *)

Lemma restatus_reward (t t' : Transaction) : restatus t t' -> is_reward t -> is_reward t'.
Proof. intros [s ->] H. destruct t. exact H. Qed.

Lemma grows_app (objs extra : list Transaction) : grows objs (objs ++ extra).
Proof.
  intros name t Ht. exists t. split.
  - rewrite lookup_app_l by (eapply lookup_lt_Some, Ht). exact Ht.
  - exists (tx_status t). destruct t. reflexivity.
Qed.

Lemma grows_trans (objs objs' objs'' : list Transaction) :
  grows objs objs' -> grows objs' objs'' -> grows objs objs''.
Proof.
  intros H1 H2 name t Ht. destruct (H1 name t Ht) as (t' & Ht' & [s ->]).
  destruct (H2 name _ Ht') as (t'' & Ht'' & [s' ->]).
  exists (set_status s' (set_status s t)). split; [exact Ht''|].
  exists s'. destruct t. reflexivity.
Qed.

Lemma grows_update_balances (names : list nat) (accts : gmap string Z)
    (objs : list Transaction) :
  grows objs (update_balances names accts objs).1.2.
Proof.
  intros name t Ht.
  destruct (update_balances_only_status names accts objs name t Ht) as [s Hs].
  exists (set_status s t). split; [exact Hs|]. exists s. reflexivity.
Qed.

Lemma resolve_grows (names : list nat) (objs objs' : list Transaction) :
  (forall name, name ∈ names -> (name < length objs)%nat) -> grows objs objs' ->
  Forall2 restatus (resolve objs names) (resolve objs' names).
Proof.
  intros Ha Hg. induction names as [|n names IH]; [constructor|].
  unfold resolve in *. simpl.
  destruct (lookup_lt_is_Some_2 objs n (Ha n ltac:(left))) as [t Ht].
  destruct (Hg n t Ht) as (t' & Ht' & Hr). rewrite Ht, Ht'. simpl.
  constructor; [exact Hr|]. apply IH. intros name Hin. apply Ha. right. exact Hin.
Qed.

Lemma rewarded_block_grows (b : Block) (objs objs' : list Transaction) :
  (forall name, name ∈ transactions b -> (name < length objs)%nat) -> grows objs objs' ->
  rewarded_block (document objs b) -> rewarded_block (document objs' b).
Proof.
  intros Ha Hg (txs & r & Htx & Hne & Hr). simpl in Htx.
  pose proof (resolve_grows (transactions b) objs objs' Ha Hg) as HF.
  rewrite Htx in HF. apply Forall2_app_inv_l in HF as (txs' & last' & H1 & H2 & Heq).
  inversion H2 as [|? r' ? rest Hrr Hnil]; subst. inversion Hnil; subst.
  exists txs', r'. simpl. split; [exact Heq|]. split.
  - intros ->. apply Forall2_length in H1. destruct txs; [congruence | discriminate].
  - eapply restatus_reward; eauto.
Qed.

Lemma rewarded_grows (chain : list Block) (objs objs' : list Transaction) :
  blocks_allocated chain objs -> grows objs objs' ->
  rewarded (map (document objs) chain) -> rewarded (map (document objs') chain).
Proof.
  intros Ha Hg H i d Hd. rewrite list_lookup_fmap in Hd.
  destruct (chain !! S i) as [b|] eqn:Hb; [|discriminate]. injection Hd as <-.
  apply (rewarded_block_grows b objs).
  - intros name Hin. eapply Ha; [|exact Hin]. eapply list_elem_of_lookup_2, Hb.
  - exact Hg.
  - apply (H i). rewrite list_lookup_fmap, Hb. reflexivity.
Qed.

Lemma rewarded_snoc (docs : list BlockDoc) (d : BlockDoc) :
  rewarded docs -> rewarded_block d -> rewarded (docs ++ [d]).
Proof.
  intros H Hd i d' Hl. apply lookup_snoc_Some in Hl as [[_ Hl]|[_ <-]].
  - eapply H, Hl.
  - exact Hd.
Qed.

Lemma candidate_block_reward (clock : Clock) (miner : string) (self : KontourCoin)
    (new_block : Block) (objs : list Transaction) :
  candidate_block clock miner self = inr (new_block, objs) ->
  exists reward, objs = objects self ++ [reward] /\ is_reward reward.
Proof.
  unfold candidate_block. intros H.
  destruct (pending_transactions self) as [|p ps]; [discriminate|].
  destruct (last (blockchain self)) as [lb|]; [|discriminate].
  destruct (_adjust_difficulty self lb) as [e|d]; [discriminate|].
  injection H as _ <-. eexists. split; [reflexivity|]. unfold is_reward. simpl. auto.
Qed.

Lemma pays_rewards_mine (clock : Clock) (quantum : string -> Z -> exn + MiningResult)
    (miner : string) (self : KontourCoin) :
  allocated self -> pays_rewards self ->
  pays_rewards (fst (mine_block clock quantum miner self)).
Proof.
  intros [Hpool Hblocks] [Hview Hdisk].
  destruct (mine_block_cases clock quantum miner self)
    as [[-> _]|(new_block & objs & r & Hc & Hq)]; [split; assumption|].
  pose proof (mine_block_success clock quantum miner self new_block objs r Hc Hq) as Hm.
  destruct (candidate_block_reward _ _ _ _ _ Hc) as (reward & -> & Hreward).
  apply candidate_block_pending in Hc as (Hne & Htx & _ & _).
  pose proof (grows_update_balances (transactions new_block) (accounts self)
                (objects self ++ [reward])) as Hg.
  assert (forall objs',
            grows (objects self ++ [reward]) objs' ->
            rewarded (map (document objs') (blockchain self ++ [sealed new_block r])))
    as Hnew.
  { intros objs' Hg'. rewrite map_app. apply rewarded_snoc.
    - apply (rewarded_grows _ (objects self)); [exact Hblocks | | exact Hview].
      eapply grows_trans; [apply grows_app | exact Hg'].
    - unfold rewarded_block, document. cbn [transactions sealed with_transactions].
      rewrite Htx. unfold resolve. rewrite omap_app.
      destruct (Hg' (length (objects self)) reward) as (reward' & Hl & Hr).
      { apply list_lookup_middle. reflexivity. }
      exists (omap (fun name => objs' !! name) (pending_transactions self)), reward'.
      split; [simpl; rewrite Hl; reflexivity|]. split; [|eapply restatus_reward; eauto].
      destruct (pending_transactions self) as [|p ps] eqn:Hpend; [congruence|].
      destruct (lookup_lt_is_Some_2 (objects self) p) as [t Ht].
      { apply Hpool. rewrite Hpend. left. }
      destruct (Hg' p t) as (t' & Ht' & _).
      { rewrite lookup_app_l by (eapply lookup_lt_Some, Ht). exact Ht. }
      simpl. rewrite Ht'. discriminate. }
  destruct (update_balances (transactions new_block) (accounts self)
              (objects self ++ [reward])) as [[accts objs'] [e|]];
    rewrite Hm; simpl in Hg; split; cbn [fst blockchain objects files].
  - apply Hnew, Hg.
  - exact Hdisk.
  - apply Hnew, Hg.
  - intros docs [= <-]. apply Hnew, Hg.
Qed.

Lemma pays_rewards_init (now : Z) (dir : Files) :
  (forall docs, blockchain_json dir = Some docs -> rewarded docs) ->
  pays_rewards (__init__ now dir).
Proof.
  intros Hdisk. unfold __init__, _load_blockchain. cbn [files objects].
  assert (forall s0, blockchain s0 = [] ->
            pays_rewards (_create_genesis_block now s0)) as Hgen.
  { intros s0 He. unfold _create_genesis_block, _create_initial_accounts, _save_accounts,
      _save_blockchain, set_accounts, set_files, append_block.
    cbn [blockchain files blockchain_json accounts objects pending_transactions].
    rewrite He. split.
    - intros i d Hl. simpl in Hl. rewrite lookup_nil in Hl. discriminate.
    - intros docs [= <-] i d Hl. simpl in Hl. rewrite lookup_nil in Hl. discriminate. }
  destruct (blockchain_json dir) as [docs|] eqn:Hf.
  - pose proof (load_blocks_documents docs []) as Hd.
    destruct (load_blocks docs []) as [bs objs]. cbn [blockchain fst snd] in *.
    destruct bs as [|b bs]; [apply Hgen; reflexivity|].
    split; cbn [blockchain objects files].
    + rewrite Hd. apply Hdisk. reflexivity.
    + intros docs' Hf'. apply Hdisk. congruence.
  - apply Hgen. reflexivity.
Qed.

Lemma pays_rewards_step (self : KontourCoin) (c : call) :
  allocated self -> pays_rewards self -> pays_rewards (step self c).
Proof.
  intros Ha [Hview Hdisk].
  destruct c as [choice|now sender recipient amount ty data|clock quantum miner|now];
    cbn [step].
  - split; assumption.
  - unfold create_transaction. destruct (_ <? _); [split; assumption|].
    split; cbn [fst blockchain objects files]; [|exact Hdisk].
    apply (rewarded_grows _ (objects self)); [apply Ha | apply grows_app | exact Hview].
  - apply pays_rewards_mine; [exact Ha | split; assumption].
  - apply pays_rewards_init, Hdisk.
Qed.

Lemma reachable_pays_rewards (self : KontourCoin) : reachable self -> pays_rewards self.
Proof.
  intros (now & calls & ->).
  assert (allocated (__init__ now no_files) /\ pays_rewards (__init__ now no_files)) as H0.
  { split.
    - apply reachable_allocated. exists now, []. reflexivity.
    - apply pays_rewards_init. discriminate. }
  revert H0. generalize (__init__ now no_files).
  induction calls as [|c calls IH]; intros self [Ha Hp]; simpl; [exact Hp|].
  apply IH. split; [apply allocated_step, Ha | apply pays_rewards_step; assumption].
Qed.

(** X27.  In every reachable ledger the first block lists no transaction,
    and each block after it, in memory and on disk, lists at least one
    transaction and then, last, a mining reward: 50 coins from NETWORK with
    data [{"reward": true}]. *)
Theorem every_mined_block_ends_with_a_reward (self : KontourCoin) :
  reachable self ->
  (forall b, blockchain self !! 0%nat = Some b -> transactions b = [])
  /\ (forall i b, blockchain self !! S i = Some b ->
        rewarded_block (document (objects self) b))
  /\ forall docs i d,
       blockchain_json (files self) = Some docs -> docs !! S i = Some d ->
       rewarded_block d.
Proof.
  intros Hr. destruct (reachable_pays_rewards self Hr) as [Hview Hdisk].
  destruct (reachable_consistent self Hr) as [((b0 & rest & Hc & Hnil & _) & _) _].
  split; [|split].
  - intros b Hb. rewrite Hc in Hb. injection Hb as <-. exact Hnil.
  - intros i b Hb. apply (Hview i). rewrite list_lookup_fmap, Hb. reflexivity.
  - intros docs i d Hdocs Hd. exact (Hdisk docs Hdocs i d Hd).
Qed.

Lemma every_mined_block_ends_with_a_reward_witness :
  reachable overdrawn
  /\ (forall b, blockchain overdrawn !! 0%nat = Some b -> transactions b = [])
  /\ (forall i b, blockchain overdrawn !! S i = Some b ->
        rewarded_block (document (objects overdrawn) b))
  /\ forall docs i d,
       blockchain_json (files overdrawn) = Some docs -> docs !! S i = Some d ->
       rewarded_block d.
Proof.
  assert (reachable overdrawn) as H.
  { exists 1700000000,
      (two_transfers ++ [MineBlock noon (repository_oracle (constant_simulator 0)) KTR3]).
    reflexivity. }
  split; [exact H|]. exact (every_mined_block_ends_with_a_reward overdrawn H).
Defined.

(** * Statistics *)

Lemma count_transactions_bound (chain : list Block) :
  (forall b, b ∈ chain -> (2 <= length (transactions b))%nat) ->
  2 * Z.of_nat (length chain) <= count_transactions chain.
Proof.
  induction chain as [|b chain IH]; intros H; simpl; [lia|].
  specialize (H b ltac:(left)) as Hb.
  assert (2 * Z.of_nat (length chain) <= count_transactions chain) as IH'
    by (apply IH; intros b' Hin; apply H; right; exact Hin).
  lia.
Qed.

Lemma resolve_length (objs : list Transaction) (names : list nat) :
  (length (resolve objs names) <= length names)%nat.
Proof.
  unfold resolve. induction names as [|n names IH]; simpl; [lia|].
  change (list_omap nat Transaction (fun r => objs !! r) names)
    with (omap (fun r => objs !! r) names).
  destruct (objs !! n); simpl; lia.
Qed.

(** X28.  On an instance whose ledger is reachable [get_blockchain_stats]
    never raises.  It counts at least one block, and at least two
    transactions for every block after the first; with one block alone the
    average block time is 0. *)
Theorem get_blockchain_stats_counts (node : Node) :
  reachable (coin node) ->
  exists stats,
    get_blockchain_stats node = inr stats
    /\ 1 <= block_count stats
    /\ 2 * (block_count stats - 1) <= transaction_count stats
    /\ (block_count stats = 1 -> avg_block_time stats = 0%Q /\ transaction_count stats = 0).
Proof.
  intros Hr. destruct (reachable_pays_rewards _ Hr) as [Hview _].
  destruct (reachable_consistent _ Hr) as [((b0 & rest & Hc & Hnil & _) & _) _].
  assert (2 * Z.of_nat (length rest) <= count_transactions rest) as Hcount.
  { apply count_transactions_bound. intros b Hin.
    apply list_elem_of_lookup in Hin as [i Hi].
    destruct (Hview i (document (objects (coin node)) b)) as (txs & r & Htx & Hne & _).
    { rewrite list_lookup_fmap, Hc. simpl. rewrite Hi. reflexivity. }
    pose proof (resolve_length (objects (coin node)) (transactions b)) as Hl.
    simpl in Htx. rewrite Htx, length_app in Hl. simpl in Hl.
    destruct txs; [congruence | simpl in Hl; lia]. }
  unfold get_blockchain_stats. rewrite Hc. cbn [length head].
  assert (exists newest, last (b0 :: rest) = Some newest) as [newest Hl].
  { destruct (last (b0 :: rest)) eqn:E; [eauto|]. apply last_None in E. discriminate. }
  rewrite Hl.
  assert (count_transactions (b0 :: rest) = count_transactions rest) as Hb0
    by (simpl; rewrite Hnil; reflexivity).
  destruct (1 <? Z.of_nat (S (length rest))) eqn:Hlt; eexists; (split; [reflexivity|]);
    cbn [block_count transaction_count avg_block_time]; rewrite Hb0.
  - apply Z.ltb_lt in Hlt. split; [lia|]. split; [lia|]. intros E. lia.
  - apply Z.ltb_ge in Hlt. split; [lia|]. split; [lia|]. intros _.
    split; [reflexivity|]. destruct rest; [reflexivity | simpl in Hlt; lia].
Qed.

Lemma get_blockchain_stats_counts_witness :
  reachable (coin (with_coin overdrawn first_node))
  /\ exists stats,
       get_blockchain_stats (with_coin overdrawn first_node) = inr stats
       /\ 1 <= block_count stats
       /\ 2 * (block_count stats - 1) <= transaction_count stats
       /\ (block_count stats = 1
           -> avg_block_time stats = 0%Q /\ transaction_count stats = 0).
Proof.
  assert (reachable (coin (with_coin overdrawn first_node))) as H.
  { exists 1700000000,
      (two_transfers ++ [MineBlock noon (repository_oracle (constant_simulator 0)) KTR3]).
    reflexivity. }
  split; [exact H|]. exact (get_blockchain_stats_counts _ H).
Defined.

(** * The HTTP endpoints *)

(** X29.  No endpoint answers with status 400: the [HTTPException] raised
    for an error value is caught by the endpoint's own handler and leaves as
    500, like every exception of the ledger.  [/transactions/create], whose
    amount is a float, returns the transaction exactly when the type is one of
    the four known values and [balance < amount] is false in Python (as it is
    for NaN), and otherwise fails with 500 and leaves accounts and pool as they
    were; [/mining/mine-block] returns exactly the
    blocks [mine_block] returns; [/smart-contracts/deploy] always returns,
    even when the deployment transaction was refused. *)
Theorem endpoints_never_answer_400 :
  (forall float_repr now sender recipient amount transaction_type data self,
     let result :=
       api_create_transaction float_repr now sender recipient amount transaction_type
         data self in
     let refused :=
       Numbers.lt (Numbers.get_account_balance self sender) (Numbers.Float amount) in
     match snd result with
     | Returned transaction =>
         exists tx_type, TransactionType_of transaction_type = Some tx_type
           /\ refused = false
           /\ Numbers.create_transaction float_repr now sender recipient
                (Numbers.Float amount) tx_type data self
              = (fst result, Value transaction)
           /\ Numbers.pending_transactions (fst result)
              = Numbers.pending_transactions self ++ [transaction]
           /\ Numbers.amount transaction = Numbers.Float amount
     | Failed status_code =>
         status_code = 500 /\ fst result = self
         /\ (TransactionType_of transaction_type = None \/ refused = true)
     end)
  /\ (forall clock quantum miner_address self,
        let result := api_mine_block clock quantum miner_address self in
        fst result = fst (mine_block clock quantum miner_address self)
        /\ match snd result with
           | Returned b => snd (mine_block clock quantum miner_address self) = Mined b
           | Failed status_code =>
               status_code = 500
               /\ is_mined (snd (mine_block clock quantum miner_address self)) = false
           end)
  /\ forall time_text created_at now owner_address contract_code initial_state node,
       api_deploy_smart_contract time_text created_at now owner_address contract_code
         initial_state node
       = (fst (deploy_smart_contract time_text created_at now owner_address contract_code
                 initial_state node),
          Returned (snd (deploy_smart_contract time_text created_at now owner_address
                           contract_code initial_state node))).
Proof.
  split; [|split].
  - intros. subst result refused. unfold api_create_transaction.
    destruct (TransactionType_of transaction_type) as [tx_type|]; [|simpl; auto].
    unfold Numbers.create_transaction.
    destruct (Numbers.lt (Numbers.get_account_balance self sender) (Numbers.Float amount));
      cbn [fst snd guarded]; [auto|].
    exists tx_type. auto.
  - intros. subst result. unfold api_mine_block.
    destruct (mine_block clock quantum miner_address self) as [self' [b|msg details|e]];
      cbn [fst snd guarded is_mined]; auto.
  - intros. unfold api_deploy_smart_contract.
    destruct (deploy_smart_contract _ _ _ _ _ _ _) as [node' result]. reflexivity.
Qed.

(** * The verification oracle *)

Lemma seven_tenths_of_1024 (k : Z) :
  Qltb seven_tenths (inject_Z k / 1024) = (717 <=? k).
Proof.
  unfold Qltb, Qle_bool, Qdiv, Qmult, Qinv, inject_Z, seven_tenths. simpl.
  destruct (717 <=? k) eqn:H; [apply Z.leb_le in H | apply Z.leb_gt in H].
  - apply negb_true_iff, Z.leb_gt. lia.
  - apply negb_false_iff, Z.leb_le. lia.
Qed.

(** X30.  The verification oracle accepts exactly when at least 717 of the
    1024 shots measure 0, and records the probability among the accepted ones
    only then.  So [verify_transaction], run with this oracle, reports a
    transaction it finds as valid exactly when the circuit built from the
    transaction's text and hash yields at least 717 zeros: balances, status
    and the place where the transaction was found play no part. *)
Theorem verification_accepts_from_717_zeros (float_repr : Q -> string)
    (measure : string -> string -> Shots) (oracle : Integration) :
  (forall transaction_data signature,
     let result :=
       quantum_transaction_verification float_repr measure transaction_data signature
         oracle in
     let zeros := zero_count (measure transaction_data signature) in
     is_valid (snd result) = (717 <=? zeros)
     /\ verification_width (snd result) = 8
     /\ verification_accuracy (fst result)
        = if 717 <=? zeros
          then verification_accuracy oracle ++ [float_repr (inject_Z zeros / 1024)%Q]
          else verification_accuracy oracle)
  /\ forall transaction_hash self v,
       verify_transaction
         (fun transaction_data signature =>
            snd (quantum_transaction_verification float_repr measure transaction_data
                   signature oracle))
         transaction_hash self = Value v ->
       exists t, objects self !! found v = Some t /\ tx_hash t = transaction_hash
         /\ reported_valid v
            = (717 <=? zero_count (measure (verification_data t) transaction_hash)).
Proof.
  split.
  - intros. subst result zeros. unfold quantum_transaction_verification.
    cbn [fst snd is_valid verification_width verification_accuracy].
    rewrite seven_tenths_of_1024. auto.
  - intros h self v. unfold verify_transaction.
    destruct (find_in_chain (objects self) (blockchain self) h) as [[name i]|] eqn:Hc.
    + destruct (find_in_chain_found _ _ _ _ _ Hc) as (_ & _ & _ & _ & t & Ht & Hh).
      rewrite Ht. intros [= <-]. exists t. cbn [found reported_valid].
      split; [exact Ht|]. split; [exact Hh|]. rewrite Hh.
      unfold quantum_transaction_verification. cbn [snd is_valid].
      apply seven_tenths_of_1024.
    + destruct (find_hash (objects self) (pending_transactions self) h) as [name|] eqn:Hp;
        [|discriminate].
      destruct (find_hash_found _ _ _ _ Hp) as (_ & t & Ht & Hh).
      rewrite Ht. intros [= <-]. exists t. cbn [found reported_valid].
      split; [exact Ht|]. split; [exact Hh|]. rewrite Hh.
      unfold quantum_transaction_verification. cbn [snd is_valid].
      apply seven_tenths_of_1024.
Qed.

Example verification_threshold :
  Qltb seven_tenths (inject_Z 716 / 1024) = false
  /\ Qltb seven_tenths (inject_Z 717 / 1024) = true
  /\ Qltb (7 # 10) seven_tenths = false /\ Qltb seven_tenths (7 # 10) = true.
Proof. repeat split; reflexivity. Qed.
